(** * Vibra-AI: quota ledger, generation records, prompt resolution and the
      image-to-image / retry request handlers.

    A shallow embedding of
      - backend/routes/generate.js        (router.post('/image-to-image'),
                                           router.post('/retry/:id'))
      - backend/models/Quota.js           (getTodayQuota, canUserGenerate,
                                           incrementUsage, virtuals)
      - backend/models/Generation.js      (pre('save'), markCompleted,
                                           markFailed)
      - backend/routes/user.js            (router.get('/quota'))
      - backend/services/geminiService.js (generateImageFromImage,
                                           generateLocalPlaceholder)
      - backend/services/promptMatcher.js (loadPrompts, findMatches,
                                           findBestMatch)
    together with the maintenance methods of the quota model, the virtuals
    of the generation model, and the status, delete, presets and listing
    handlers.

    Mongo collections are lists of records, documents loaded by a handler are
    local copies that [save] writes back by [_id]; every [await] on the
    database is one explicit step.  Dates are counted in whole days (the
    handlers only ever use [setHours(0,0,0,0)] of "now"), time stamps in
    milliseconds. *)

From Stdlib Require Import ZArith List String Ascii Bool Lia DecimalString.
Import ListNotations.
Open Scope string_scope.

(* ------------------------------------------------------------------ *)
(** ** JavaScript string primitives used by the handlers

    A string is a sequence of code units below 256. *)

Module JsString.

(** [String.prototype.trim] strips white space and line terminators. *)
Definition isWhiteSpace (c : ascii) : bool :=
  let n := nat_of_ascii c in
  ((9 <=? n)%nat && (n <=? 13)%nat) || (n =? 32)%nat || (n =? 160)%nat.

Fixpoint trimStart (s : string) : string :=
  match s with
  | "" => ""
  | String c r => if isWhiteSpace c then trimStart r else s
  end.

Fixpoint trimEnd (s : string) : string :=
  match s with
  | "" => ""
  | String c r =>
      let r' := trimEnd r in
      if isWhiteSpace c && (r' =? "") then "" else String c r'
  end.

Definition trim (s : string) : string := trimEnd (trimStart s).

(** Canonicalisation of the [i] flag (no [u] flag): only a-z fold. *)
Definition toUpper (c : ascii) : ascii :=
  let n := nat_of_ascii c in
  if ((97 <=? n) && (n <=? 122))%nat then ascii_of_nat (n - 32) else c.

Definition eq_cs (a b : ascii) : bool := Ascii.eqb a b.
Definition eq_ci (a b : ascii) : bool := Ascii.eqb (toUpper a) (toUpper b).

(** Does the literal [p] match at the head of [s]?  Returns the matched
    text (as it stands in [s]) and the rest. *)
Fixpoint matchAt (eqc : ascii -> ascii -> bool) (p s : string)
  : option (string * string) :=
  match p with
  | "" => Some ("", s)
  | String pc p' =>
      match s with
      | "" => None
      | String c s' =>
          if eqc pc c then
            match matchAt eqc p' s' with
            | Some (m, r) => Some (String c m, r)
            | None => None
            end
          else None
      end
  end.

(** [s.includes(sub)], also [/literal/.test(s)]. *)
Fixpoint includes (s sub : string) : bool :=
  match matchAt eq_cs sub s with
  | Some _ => true
  | None =>
      match s with
      | "" => false
      | String _ s' => includes s' sub
      end
  end.

(** GetSubstitution with no capture groups: [$$], [$&], [$`] and [$'] are
    expanded, every other [$] stands for itself. *)
Fixpoint GetSubstitution (matched before after repl : string) : string :=
  match repl with
  | "" => ""
  | String d t =>
      if Ascii.eqb d "$" then
        match t with
        | "" => String d ""
        | String c r =>
            if Ascii.eqb c "$" then
              String "$" (GetSubstitution matched before after r)
            else if Ascii.eqb c "&" then
              matched ++ GetSubstitution matched before after r
            else if Ascii.eqb c "`" then
              before ++ GetSubstitution matched before after r
            else if Ascii.eqb c "'" then
              after ++ GetSubstitution matched before after r
            else
              String d (String c (GetSubstitution matched before after r))
        end
      else String d (GetSubstitution matched before after t)
  end.

(** [s.replace(p, repl)] with a string pattern: first occurrence only. *)
Fixpoint replaceFirst_from (p repl before s : string) : string :=
  match matchAt eq_cs p s with
  | Some (m, rest) => GetSubstitution m before rest repl ++ rest
  | None =>
      match s with
      | "" => ""
      | String c s' =>
          String c (replaceFirst_from p repl (before ++ String c "") s')
      end
  end.

Definition replace (s p repl : string) : string :=
  replaceFirst_from p repl "" s.

(** [s.replace(/p/g, repl)] for a non-empty literal [p]: every match, left
    to right, matches do not overlap.  [skip] counts the code units of
    the last match that are still to be dropped. *)
Fixpoint replaceAll_from (eqc : ascii -> ascii -> bool) (p repl : string)
    (before : string) (skip : nat) (s : string) : string :=
  match s with
  | "" => ""
  | String c s' =>
      let before' := before ++ String c "" in
      match skip with
      | S k => replaceAll_from eqc p repl before' k s'
      | O =>
          match matchAt eqc p s with
          | Some (m, rest) =>
              GetSubstitution m before rest repl
                ++ replaceAll_from eqc p repl before' (String.length p - 1) s'
          | None => String c (replaceAll_from eqc p repl before' 0 s')
          end
      end
  end.

Definition replaceRegExp (ignoreCase : bool) (s p repl : string) : string :=
  replaceAll_from (if ignoreCase then eq_ci else eq_cs) p repl "" 0 s.

(** [a || b] on strings: the empty string is falsy. *)
Definition orElse (a b : string) : string := if a =? "" then b else a.

End JsString.

(* ------------------------------------------------------------------ *)
(** ** Prompt resolution (generate.js, lines 232-293) *)

Module PromptResolver.
Import JsString.

(** A catalog row.  A field that is absent in the row is the empty string:
    the handler reads them only through [||], [===] with a non-empty string
    and a regular-expression test, which do not tell the two apart. *)
Record Preset := mkPreset {
  id : string;
  name : string;
  category : string;
  main_prompt : string
}.

(** The built-in table, by its own keys. *)
Definition FALLBACK_PRESETS : list (string * Preset) :=
  [ ("realistic-portrait",
     mkPreset "realistic-portrait" "Realistic Portrait" "portrait"
       "professional portrait photography, high quality, realistic, detailed facial features, natural lighting");
    ("artistic-landscape",
     mkPreset "artistic-landscape" "Artistic Landscape" "landscape"
       "beautiful landscape, artistic style, vibrant colors, detailed scenery, professional photography");
    ("modern-architecture",
     mkPreset "modern-architecture" "Modern Architecture" "architecture"
       "modern architecture, contemporary design, clean lines, professional architectural photography") ].

(** [/{image}/gi, /{image_url}/gi, /{image_path}/gi, /\[IMAGE\]/g] *)
Definition imagePlaceholderPatterns : list (string * bool) :=
  [ ("{image}", true); ("{image_url}", true); ("{image_path}", true);
    ("[IMAGE]", false) ].

Definition matchesPreset (preset : string) (p : Preset) : bool :=
  (id p =? preset) || (name p =? preset).

(** [FALLBACK_PRESETS] is an object literal, so [FALLBACK_PRESETS[preset]]
    also finds what it inherits from [Object.prototype].  Each member is a
    function whose [name] is its key, but for [constructor] (the function
    [Object]) and [__proto__] (the prototype object, which has no [name]);
    none of them has an [id], a [category] or a [main_prompt]. *)
Definition inheritedMembers : list (string * Preset) :=
  [ ("constructor", mkPreset "" "Object" "" "");
    ("__defineGetter__", mkPreset "" "__defineGetter__" "" "");
    ("__defineSetter__", mkPreset "" "__defineSetter__" "" "");
    ("hasOwnProperty", mkPreset "" "hasOwnProperty" "" "");
    ("__lookupGetter__", mkPreset "" "__lookupGetter__" "" "");
    ("__lookupSetter__", mkPreset "" "__lookupSetter__" "" "");
    ("isPrototypeOf", mkPreset "" "isPrototypeOf" "" "");
    ("propertyIsEnumerable", mkPreset "" "propertyIsEnumerable" "" "");
    ("toString", mkPreset "" "toString" "" "");
    ("valueOf", mkPreset "" "valueOf" "" "");
    ("__proto__", mkPreset "" "" "" "");
    ("toLocaleString", mkPreset "" "toLocaleString" "" "") ].

(** [FALLBACK_PRESETS[preset] ||
     Object.values(FALLBACK_PRESETS).find(p => p.id === preset || p.name === preset)]:
    own keys first, then the inherited members, then the values by id or
    name. *)
Definition lookupFallback (preset : string) : option Preset :=
  match find (fun kv => fst kv =? preset)
             (FALLBACK_PRESETS ++ inheritedMembers)%list with
  | Some kv => Some (snd kv)
  | None => find (matchesPreset preset) (map snd FALLBACK_PRESETS)
  end.

Definition findPreset (allPrompts : list Preset) (preset : string)
  : option Preset :=
  match find (matchesPreset preset) allPrompts with
  | Some p => Some p
  | None => lookupFallback preset
  end.

Definition withReference (prompt uploadedImageUrl : string) : string :=
  prompt ++ ", reference image: " ++ uploadedImageUrl.

(** The body of [if (presetData) { ... }]. *)
Definition applyPreset (presetData : Preset) (prompt uploadedImageUrl : string)
  : string :=
  let base := main_prompt presetData in
  let base :=
    fold_left (fun b pat => replaceRegExp (snd pat) b (fst pat) uploadedImageUrl)
              imagePlaceholderPatterns base in
  let base :=
    if includes base "{prompt}" then replace base "{prompt}" prompt else base in
  let base :=
    if negb (includes base uploadedImageUrl)
    then trim (base ++ ", reference image: " ++ uploadedImageUrl)
    else base in
  if negb (includes (main_prompt presetData) "{prompt}")
     && negb (prompt =? "") && (0 <? String.length (trim prompt))%nat
  then base ++ ", " ++ prompt
  else base.

(** [allPrompts] is what [promptMatcher.getAllPrompts()] resolves to, [None]
    when it rejects.  The result is [(finalPrompt, normalizedPreset)]. *)
Definition resolvePrompt (allPrompts : option (list Preset))
    (preset : option string) (prompt uploadedImageUrl : string)
  : string * string :=
  match preset with
  | Some ps =>
      if ps =? "" then (withReference prompt uploadedImageUrl, "custom")
      else
        match allPrompts with
        | None => (withReference prompt uploadedImageUrl, ps)
        | Some all =>
            match findPreset all ps with
            | Some presetData =>
                (applyPreset presetData prompt uploadedImageUrl,
                 orElse (name presetData) (orElse (category presetData) ps))
            | None => (withReference prompt uploadedImageUrl, ps)
            end
        end
  | None => (withReference prompt uploadedImageUrl, "custom")
  end.

End PromptResolver.

(* ------------------------------------------------------------------ *)
(** ** Errors and results of awaited calls *)

Module Js.

Record Error := mkError { name : string; message : string }.

Inductive result (A : Type) : Type :=
| Ok (a : A)
| Throw (e : Error).
Arguments Ok {A} a.
Arguments Throw {A} e.

Definition ValidationError (msg : string) : Error :=
  mkError "ValidationError" msg.
Definition DuplicateKeyError : Error :=
  mkError "MongoServerError" "E11000 duplicate key error".
Definition DocumentNotFoundError : Error :=
  mkError "DocumentNotFoundError" "No document found for query".
Definition PlainError (msg : string) : Error := mkError "Error" msg.

(** The counters of the models are JavaScript Numbers holding integers;
    they are embedded as [Z].  [n + 1] in [Z] is what [n += 1] computes for
    every integer [n] up to [Number.MAX_SAFE_INTEGER]; from 2^53 on the
    sum is rounded to a double and need not move, which [Z] does not
    follow: the embedding is one of counters up to this bound. *)
Definition MAX_SAFE_INTEGER : Z := (2 ^ 53 - 1)%Z.

End Js.

(* ------------------------------------------------------------------ *)
(** ** Quota model (models/Quota.js) *)

Module Quota.
Import Js.

Inductive Tier := free | paid.

(** [process.env.*_TIER_DAILY_LIMIT] after [parseInt]; [None] is NaN. *)
Record Env := mkEnv {
  PAID_TIER_DAILY_LIMIT : option Z;
  FREE_TIER_DAILY_LIMIT : option Z
}.

Definition defaultEnv : Env := mkEnv None None.

(** [parseInt(v) || d]: NaN and 0 are falsy. *)
Definition parsedOr (v : option Z) (d : Z) : Z :=
  match v with
  | Some n => if (n =? 0)%Z then d else n
  | None => d
  end.

Definition tierLimit (env : Env) (userTier : Tier) : Z :=
  match userTier with
  | paid => parsedOr (PAID_TIER_DAILY_LIMIT env) 50
  | free => parsedOr (FREE_TIER_DAILY_LIMIT env) 5
  end.

Record t := mkQuota {
  _id : nat;
  userId : nat;
  date : Z;               (* day number, start of that day *)
  generationsUsed : Z;
  generationsLimit : Z;
  resetAt : Z             (* day number of the following day *)
}.

(** The collection; [nextId] stands for ObjectId generation. *)
Record Store := mkStore {
  docs : list t;
  nextId : nat
}.

Definition emptyStore : Store := mkStore [] 0.

Definition generationsRemaining (q : t) : Z :=
  Z.max 0 (generationsLimit q - generationsUsed q).

Definition isExceeded (q : t) : bool :=
  (generationsLimit q <=? generationsUsed q)%Z.

Definition sameKey (uid : nat) (day : Z) (q : t) : bool :=
  (userId q =? uid)%nat && (date q =? day)%Z.

(** [Quota.findOne({ userId, date })] *)
Definition findOne (st : Store) (uid : nat) (day : Z) : option t :=
  find (sameKey uid day) (docs st).

Definition findById (st : Store) (i : nat) : option t :=
  find (fun q => (_id q =? i)%nat) (docs st).

(** Schema validators: [generationsUsed] min 0, [generationsLimit] min 1. *)
Definition validate (used limit : Z) : option Error :=
  if (used <? 0)%Z then
    Some (ValidationError "Generations used cannot be negative")
  else if (limit <? 1)%Z then
    Some (ValidationError "Generations limit must be at least 1")
  else None.

(** Insert of a new document: validators, then the unique index on
    (userId, date). *)
Definition create (st : Store) (uid : nat) (day used limit : Z)
  : result t * Store :=
  match validate used limit with
  | Some e => (Throw e, st)
  | None =>
      match findOne st uid day with
      | Some _ => (Throw DuplicateKeyError, st)
      | None =>
          let q := mkQuota (nextId st) uid day used limit (day + 1) in
          (Ok q, mkStore (docs st ++ [q]) (S (nextId st)))
      end
  end.

Definition setUsed (v : Z) (q : t) : t :=
  mkQuota (_id q) (userId q) (date q) v (generationsLimit q) (resetAt q).
Definition setLimit (v : Z) (q : t) : t :=
  mkQuota (_id q) (userId q) (date q) (generationsUsed q) v (resetAt q).

Definition updateById (i : nat) (f : t -> t) (l : list t) : list t :=
  map (fun q => if (_id q =? i)%nat then f q else q) l.

(** [doc.save()] of a loaded document sends only the modified path. *)
Definition saveUsed (st : Store) (q : t) : result t * Store :=
  match validate (generationsUsed q) 1 with
  | Some e => (Throw e, st)
  | None =>
      match findById st (_id q) with
      | None => (Throw DocumentNotFoundError, st)
      | Some _ =>
          (Ok q, mkStore (updateById (_id q) (setUsed (generationsUsed q)) (docs st))
                         (nextId st))
      end
  end.

Definition saveLimit (st : Store) (q : t) : result t * Store :=
  match validate 0 (generationsLimit q) with
  | Some e => (Throw e, st)
  | None =>
      match findById st (_id q) with
      | None => (Throw DocumentNotFoundError, st)
      | Some _ =>
          (Ok q, mkStore (updateById (_id q) (setLimit (generationsLimit q)) (docs st))
                         (nextId st))
      end
  end.

(** Ids handed out so far are below [nextId]. *)
Definition idsFresh (st : Store) : Prop :=
  forall q, In q (docs st) -> (_id q < nextId st)%nat.

(** Both configured limits pass the schema's [min: 1]. *)
Definition envOk (env : Env) : Prop :=
  (1 <= tierLimit env free)%Z /\ (1 <= tierLimit env paid)%Z.

(** [userTier = 'free'] is the default of the omitted argument. *)
Definition tierArg (userTier : option Tier) : Tier :=
  match userTier with
  | Some tr => tr
  | None => free
  end.

(** [quotaSchema.statics.getTodayQuota]; [today] is the day of the call. *)
Definition getTodayQuota (env : Env) (today : Z) (st : Store) (uid : nat)
    (userTier : option Tier) : result t * Store :=
  let limit := tierLimit env (tierArg userTier) in
  match findOne st uid today with
  | None => create st uid today 0 limit
  | Some quota =>
      if negb (generationsLimit quota =? limit)%Z
      then saveLimit st (setLimit limit quota)
      else (Ok quota, st)
  end.

(** [quotaSchema.statics.canUserGenerate] *)
Definition canUserGenerate (env : Env) (today : Z) (st : Store) (uid : nat)
    (userTier : option Tier) : result bool * Store :=
  match getTodayQuota env today st uid userTier with
  | (Ok quota, st') => (Ok (generationsUsed quota <? generationsLimit quota)%Z, st')
  | (Throw e, st') => (Throw e, st')
  end.

(** [quotaSchema.statics.incrementUsage], with no other request in
    between its awaits.  [generationsUsed += 1] is [+ 1] on counters up to
    [MAX_SAFE_INTEGER]. *)
Definition incrementUsage (env : Env) (today : Z) (st : Store) (uid : nat)
    (userTier : option Tier) : result t * Store :=
  match getTodayQuota env today st uid userTier with
  | (Ok quota, st') =>
      if (generationsLimit quota <=? generationsUsed quota)%Z
      then (Throw (PlainError "Daily generation limit exceeded"), st')
      else saveUsed st' (setUsed (generationsUsed quota + 1) quota)
  | (Throw e, st') => (Throw e, st')
  end.

End Quota.

(* ------------------------------------------------------------------ *)
(** ** Generation model (models/Generation.js) *)

Module Generation.
Import Js.

Inductive Status := processing | completed | failed.

Definition Status_eqb (a b : Status) : bool :=
  match a, b with
  | processing, processing | completed, completed | failed, failed => true
  | _, _ => false
  end.

Definition isTerminal (s : Status) : bool :=
  match s with
  | processing => false
  | completed | failed => true
  end.

Record t := mkGeneration {
  _id : nat;
  userId : nat;
  originalImageUrl : option string;
  generatedImageUrl : option string;
  prompt : string;
  presetUsed : string;
  size : string;                       (* parameters.size *)
  status : Status;
  errorMessage : option string;
  processingStartTime : option Z;
  processingEndTime : option Z;
  processingTime : option Z            (* metadata.processingTime *)
}.

Record Store := mkStore {
  docs : list t;
  nextId : nat
}.

Definition emptyStore : Store := mkStore [] 0.

(** A document held by a handler: its fields and whether [status] is in
    the modified state ([this.isModified('status')]). *)
Record Doc := mkDoc {
  fields : t;
  statusModified : bool
}.

Definition presetEnum : list string :=
  [ "portrait-enhancement"; "artistic-landscape"; "modern-architecture";
    "fantasy-character"; "abstract-geometry"; "product-shot"; "editing";
    "background"; "retouch"; "portrait"; "lighting"; "90s movie";
    "1970s suit"; "black and white close-up portrait"; "Paris Travel";
    "Statue of Liberty"; "Taj Mahal at sunrise"; "Great Wall of China";
    "Eiffel Tower"; "top of the Hollywood Sign"; "reimagined in the 90s";
    "80s character with big hair"; "1970s disco look"; "custom" ].

(** [prompt] is required (a required string may not be empty) and at most
    2000 long; this is checked on every save. *)
Definition validatePrompt (g : t) : option Error :=
  if prompt g =? "" then Some (ValidationError "Prompt is required")
  else if (2000 <? String.length (prompt g))%nat
  then Some (ValidationError "Prompt is too long")
  else None.

(** On a new document [presetUsed] is checked against the enum too. *)
Definition validateNew (g : t) : option Error :=
  match validatePrompt g with
  | Some e => Some e
  | None =>
      if existsb (String.eqb (presetUsed g)) presetEnum then None
      else Some (ValidationError "presetUsed is not a valid enum value")
  end.

Definition truthyTime (v : option Z) : bool :=
  match v with
  | Some n => negb (n =? 0)%Z
  | None => false
  end.

(** [generationSchema.pre('save', ...)], run at time [now]. *)
Definition preSave (now : Z) (d : Doc) : t :=
  let g := fields d in
  if statusModified d && isTerminal (status g) then
    let endT :=
      match processingEndTime g with
      | Some e => e
      | None => now
      end in
    let pt :=
      match processingStartTime g with
      | Some s => if truthyTime (processingTime g) then processingTime g
                  else Some (endT - s)%Z
      | None => processingTime g
      end in
    mkGeneration (_id g) (userId g) (originalImageUrl g) (generatedImageUrl g)
      (prompt g) (presetUsed g) (size g) (status g) (errorMessage g)
      (processingStartTime g) (Some endT) pt
  else g.

(** [new Generation({ userId, originalImageUrl, generatedImageUrl,
    presetUsed, prompt, parameters: { size }, status })] built at [now];
    the other paths take their schema defaults. *)
Definition construct (st : Store) (now : Z) (uid : nat)
    (original generated pUsed pr sz : string) (s : Status) : Doc :=
  mkDoc (mkGeneration (nextId st) uid (Some original) (Some generated) pr pUsed
           sz s None (Some now) None None)
        true.

Definition findById (st : Store) (i : nat) : option t :=
  find (fun g => (_id g =? i)%nat) (docs st).

(** [Generation.findOne({ _id, userId })] *)
Definition findOne (st : Store) (i uid : nat) : option t :=
  find (fun g => (_id g =? i)%nat && (userId g =? uid)%nat) (docs st).

(** [doc.save()] of a new document. *)
Definition saveNew (st : Store) (now : Z) (d : Doc) : result t * Store :=
  match validateNew (fields d) with
  | Some e => (Throw e, st)
  | None =>
      let g := preSave now d in
      (Ok g, mkStore (docs st ++ [g]) (S (nextId st)))
  end.

(** [doc.save()] of a loaded document. *)
Definition save (st : Store) (now : Z) (d : Doc) : result t * Store :=
  match validatePrompt (fields d) with
  | Some e => (Throw e, st)
  | None =>
      match findById st (_id (fields d)) with
      | None => (Throw DocumentNotFoundError, st)
      | Some _ =>
          let g := preSave now d in
          (Ok g,
           mkStore (map (fun x => if (_id x =? _id g)%nat then g else x) (docs st))
                   (nextId st))
      end
  end.

Definition load (g : t) : Doc := mkDoc g false.

Definition withStatus (s : Status) (d : Doc) : Doc :=
  let g := fields d in
  mkDoc (mkGeneration (_id g) (userId g) (originalImageUrl g)
           (generatedImageUrl g) (prompt g) (presetUsed g) (size g) s
           (errorMessage g) (processingStartTime g) (processingEndTime g)
           (processingTime g))
        (statusModified d || negb (Status_eqb (status g) s)).

Definition withErrorMessage (m : option string) (d : Doc) : Doc :=
  let g := fields d in
  mkDoc (mkGeneration (_id g) (userId g) (originalImageUrl g)
           (generatedImageUrl g) (prompt g) (presetUsed g) (size g) (status g)
           m (processingStartTime g) (processingEndTime g) (processingTime g))
        (statusModified d).

Definition withGeneratedImageUrl (u : option string) (d : Doc) : Doc :=
  let g := fields d in
  mkDoc (mkGeneration (_id g) (userId g) (originalImageUrl g) u (prompt g)
           (presetUsed g) (size g) (status g) (errorMessage g)
           (processingStartTime g) (processingEndTime g) (processingTime g))
        (statusModified d).

Definition withProcessingEndTime (e : option Z) (d : Doc) : Doc :=
  let g := fields d in
  mkDoc (mkGeneration (_id g) (userId g) (originalImageUrl g)
           (generatedImageUrl g) (prompt g) (presetUsed g) (size g) (status g)
           (errorMessage g) (processingStartTime g) e (processingTime g))
        (statusModified d).

Definition withProcessingTime (p : option Z) (d : Doc) : Doc :=
  let g := fields d in
  mkDoc (mkGeneration (_id g) (userId g) (originalImageUrl g)
           (generatedImageUrl g) (prompt g) (presetUsed g) (size g) (status g)
           (errorMessage g) (processingStartTime g) (processingEndTime g) p)
        (statusModified d).

(** [generationSchema.methods.markCompleted]; [metaTime] is the
    [processingTime] of the [metadata] argument, when it has one. *)
Definition markCompleted (st : Store) (now : Z) (d : Doc)
    (generated : string) (metaTime : option Z) : result t * Store :=
  let d := withGeneratedImageUrl (Some generated) d in
  let d := withStatus completed d in
  let d := withProcessingEndTime (Some now) d in
  let d :=
    match metaTime with
    | Some p => withProcessingTime (Some p) d
    | None => d
    end in
  save st now d.

(** [generationSchema.methods.markFailed] *)
Definition markFailed (st : Store) (now : Z) (d : Doc) (msg : string)
  : result t * Store :=
  let d := withStatus failed d in
  let d := withErrorMessage (Some msg) d in
  let d := withProcessingEndTime (Some now) d in
  save st now d.

(** The invariant of section 3 of the specification. *)
Definition endTimeMatchesStatus (g : t) : bool :=
  Bool.eqb (match processingEndTime g with Some _ => true | None => false end)
           (isTerminal (status g)).

End Generation.

(* ------------------------------------------------------------------ *)
(** ** Provider client (services/geminiService.js, generateImageFromImage)

    The remote model is a black box; what is embedded is what the client
    does with each thing the remote call can do. *)

Module GeminiService.
Import JsString.

(** What was thrown inside the [try]: [error.message], [error.code]. *)
Record RawError := mkRawError {
  message : option string;
  code : option string
}.

Inductive RawOutcome :=
| RawImage (fileName : string)     (* a part with inline image data *)
| RawNoImage                       (* a response with no image part *)
| RawThrow (e : RawError).

Inductive ServiceResult :=
| Resolved (imageUrl : string)
| Rejected (msg : string).

(** [error.message?.includes(s)] *)
Definition messageIncludes (e : RawError) (s : string) : bool :=
  match message e with
  | Some m => includes m s
  | None => false
  end.

Definition codeIs (e : RawError) (s : string) : bool :=
  match code e with
  | Some c => c =? s
  | None => false
  end.

Definition messageText (e : RawError) : string :=
  match message e with
  | Some m => m
  | None => "undefined"
  end.

Definition isConnectionError (e : RawError) : bool :=
  messageIncludes e "SSL" || messageIncludes e "TLS"
  || messageIncludes e "ECONNRESET" || messageIncludes e "ENOTFOUND"
  || messageIncludes e "certificate"
  || codeIs e "ECONNRESET" || codeIs e "ENOTFOUND".

(** [generateLocalPlaceholder] (lines 637-689).  Its [try] block calls
    [sharp], a name this file never binds (it requires the Gemini SDK,
    crypto, fs and path only): the call throws a ReferenceError, and the
    [catch] block answers every error of the [try] with the one below.  No
    placeholder is ever returned. *)
Definition generateLocalPlaceholder : ServiceResult :=
  Rejected "Failed to generate placeholder image".

(** The [catch] block.  The file holds two revisions of the class; they
    differ in the connection-error branch only, present when
    [sslFallback], which returns what [generateLocalPlaceholder] does. *)
Definition onError (sslFallback : bool) (e : RawError) : ServiceResult :=
  if messageIncludes e "API key" then
    Rejected "Invalid or missing Gemini API key"
  else if messageIncludes e "quota" then
    Rejected "Gemini API quota exceeded"
  else if messageIncludes e "safety" then
    Rejected "Content blocked by safety filters"
  else if sslFallback && isConnectionError e then
    generateLocalPlaceholder
  else
    Rejected ("Image-to-image generation failed: " ++ messageText e).

Definition generateImageFromImage (sslFallback : bool) (raw : RawOutcome)
  : ServiceResult :=
  match raw with
  | RawImage f => Resolved ("/uploads/" ++ f)
  | RawNoImage =>
      onError sslFallback
        (mkRawError (Some "No image data received from Gemini API") None)
  | RawThrow e => onError sslFallback e
  end.

End GeminiService.

(* ------------------------------------------------------------------ *)
(** ** Request handlers (routes/generate.js, routes/user.js) *)

Module Routes.
Import Js JsString.

Record User := mkUser {
  u_id : nat;
  tier : Quota.Tier
}.

Record World := mkWorld {
  users : list User;
  quotas : Quota.Store;
  generations : Generation.Store
}.

Record File := mkFile {
  filename : string;
  path : string
}.

(** [req.user.id] is set by the [auth] middleware; [size] is [None] when
    the body has none (default '1024x1024'). *)
Record Request := mkRequest {
  userId : nat;
  protocol : string;
  host : string;
  prompt : option string;
  preset : option string;
  size : option string;
  file : option File
}.

(** What [geminiImageService.generateImageFromImage] does as seen by the
    handler: it resolves to an object whose [imageUrl] may be missing, or
    it rejects. *)
Inductive ProviderOutcome :=
| Returned (imageUrl : option string)
| Threw (msg : string).

Definition ofService (r : GeminiService.ServiceResult) : ProviderOutcome :=
  match r with
  | GeminiService.Resolved u => Returned (Some u)
  | GeminiService.Rejected m => Threw m
  end.

(** What surrounds one request: whether the module-level [geminiService]
    was initialised, the provider (by file path and final prompt; the
    width and height parsed from [size] only travel to the provider, which
    is opaque here), the prompt catalog, and the clock. *)
Record Config := mkConfig {
  serviceAvailable : bool;
  provider : string -> string -> ProviderOutcome;
  allPrompts : option (list PromptResolver.Preset);
  now : Z
}.

Definition msPerDay : Z := 86400000.

(** [new Date(); setHours(0, 0, 0, 0)] as a day number. *)
Definition startOfDay (t : Z) : Z := (t / msPerDay)%Z.

(** Effects of a handler on its collaborators, in the order they happen. *)
Inductive Event :=
| QuotaInserted (q : Quota.t)
| QuotaUsageSaved (q : Quota.t) (ok : bool)
| ProviderCalled (filePath finalPrompt : string)
| GenerationWrite (g : Generation.t) (ok : bool).

Inductive GenRef :=
| RealId (n : nat)
| TempId.

Inductive Response :=
| Fail (statusCode : nat) (error : string)
| Generated (echoedInput : bool) (id : GenRef)
    (imageUrl originalImageUrl finalPrompt : string)
    (generationsUsed generationsLimit generationsRemaining : Z).

(** The outer [catch] of the image-to-image handler. *)
Definition routeError (e : Error) : Response :=
  let m := Js.message e in
  if Js.name e =? "ValidationError" then
    Fail 400 "Invalid data provided. Please check your input and try again."
  else if includes m "quota" || includes m "limit" then
    Fail 429 "Generation limit exceeded. Please try again later or upgrade your plan."
  else if includes m "file" || includes m "upload" then
    Fail 400 "File upload error. Please try uploading a different image."
  else if includes m "network" || includes m "timeout" then
    Fail 503 "Network error. Please check your connection and try again."
  else Fail 500 "Internal server error. Please try again later.".

Definition withQuotas (w : World) (qs : Quota.Store) : World :=
  mkWorld (users w) qs (generations w).
Definition withGenerations (w : World) (gs : Generation.Store) : World :=
  mkWorld (users w) (quotas w) gs.

(** Lines 206-220: today's quota, inserted when there is none. *)
Definition findOrCreateQuota (today : Z) (qs : Quota.Store) (user : User)
  : result Quota.t * Quota.Store * list Event :=
  match Quota.findOne qs (u_id user) today with
  | Some quota => (Ok quota, qs, [])
  | None =>
      let generationsLimit :=
        match tier user with Quota.paid => 50%Z | Quota.free => 5%Z end in
      match Quota.create qs (u_id user) today 0 generationsLimit with
      | (Ok quota, qs') => (Ok quota, qs', [QuotaInserted quota])
      | (Throw e, qs') => (Throw e, qs', [])
      end
  end.

(** [/^https?:\/\/via\.placeholder\.com/i] *)
Definition isMockPlaceholder (u : string) : bool :=
  match matchAt eq_ci "http://via.placeholder.com" u with
  | Some _ => true
  | None =>
      match matchAt eq_ci "https://via.placeholder.com" u with
      | Some _ => true
      | None => false
      end
  end.

(** Lines 309-343: the output URL, or the 502 response. *)
Definition obtainImage (cfg : Config) (f : File)
    (finalPrompt originalImageUrl : string)
  : (Response + string) * list Event :=
  if negb (serviceAvailable cfg) then (inr originalImageUrl, [])
  else
    let ev := [ProviderCalled (path f) finalPrompt] in
    match provider cfg (path f) finalPrompt with
    | Returned None => (inl (Fail 502 "Invalid response from AI service"), ev)
    | Returned (Some u) =>
        if u =? "" then (inl (Fail 502 "Invalid response from AI service"), ev)
        else if isMockPlaceholder u then (inr originalImageUrl, ev)
        else (inr u, ev)
    | Threw _ => (inr originalImageUrl, ev)
    end.

(** Lines 345-398: charge the quota, record the generation, respond. *)
Definition commit (cfg : Config) (w : World) (req : Request)
    (quota : Quota.t) (imageUrl originalImageUrl finalPrompt normalizedPreset : string)
  : Response * World * list Event :=
  let quota := Quota.setUsed (Quota.generationsUsed quota + 1) quota in
  match Quota.saveUsed (quotas w) quota with
  | (Throw e, qs) => (routeError e, withQuotas w qs, [QuotaUsageSaved quota false])
  | (Ok _, qs) =>
      let w := withQuotas w qs in
      let echoedInput := imageUrl =? originalImageUrl in
      let sz := match size req with Some s => s | None => "1024x1024" end in
      let d := Generation.construct (generations w) (now cfg) (userId req)
                 originalImageUrl imageUrl normalizedPreset finalPrompt sz
                 Generation.completed in
      let respond (ref : GenRef) :=
        Generated echoedInput ref imageUrl originalImageUrl finalPrompt
          (Quota.generationsUsed quota) (Quota.generationsLimit quota)
          (Z.max 0 (Quota.generationsLimit quota - Quota.generationsUsed quota)) in
      match Generation.saveNew (generations w) (now cfg) d with
      | (Ok g, gs) =>
          (respond (RealId (Generation._id g)), withGenerations w gs,
           [QuotaUsageSaved quota true; GenerationWrite g true])
      | (Throw _, gs) =>
          (respond TempId, withGenerations w gs,
           [QuotaUsageSaved quota true; GenerationWrite (Generation.fields d) false])
      end
  end.

Definition promptRequired : string := "Prompt is required and cannot be empty".
Definition fileRequired : string :=
  "Image file is required for image-to-image generation".
Definition promptTooLong : string := "Prompt must be less than 1000 characters".
Definition quotaExceeded : string :=
  "Daily generation limit exceeded. Please upgrade to Pro for unlimited generations.".

(** [!prompt || prompt.trim().length === 0] *)
Definition promptMissing (p : option string) : bool :=
  match p with
  | None => true
  | Some s => (s =? "") || (String.length (trim s) =? 0)%nat
  end.

(** The request passes the three validation steps with prompt [p] and
    file [f]. *)
Definition validRequest (req : Request) (p : string) (f : File) : Prop :=
  prompt req = Some p /\ promptMissing (Some p) = false
  /\ file req = Some f /\ (String.length p <= 1000)%nat.

(** [router.post('/image-to-image', ...)] after the [auth], [upload] and
    [processImage] middleware. *)
Definition imageToImage (cfg : Config) (w : World) (req : Request)
  : Response * World * list Event :=
  match prompt req with
  | None => (Fail 400 promptRequired, w, [])
  | Some p =>
      if promptMissing (Some p) then (Fail 400 promptRequired, w, [])
      else
        match file req with
        | None => (Fail 400 fileRequired, w, [])
        | Some f =>
            if (1000 <? String.length p)%nat then (Fail 400 promptTooLong, w, [])
            else
              match find (fun u => (u_id u =? userId req)%nat) (users w) with
              | None => (Fail 404 "User not found", w, [])
              | Some user =>
                  match findOrCreateQuota (startOfDay (now cfg)) (quotas w) user with
                  | (Throw e, qs, ev) => (routeError e, withQuotas w qs, ev)
                  | (Ok quota, qs, ev) =>
                      let w := withQuotas w qs in
                      if (Quota.generationsLimit quota <=? Quota.generationsUsed quota)%Z
                      then (Fail 429 quotaExceeded, w, ev)
                      else
                        let uploadedImageUrl :=
                          protocol req ++ "://" ++ host req ++ "/uploads/" ++ filename f in
                        let fp := PromptResolver.resolvePrompt (allPrompts cfg)
                                    (preset req) p uploadedImageUrl in
                        let originalImageUrl := uploadedImageUrl in
                        match obtainImage cfg f (fst fp) originalImageUrl with
                        | (inl resp, ev2) => (resp, w, (ev ++ ev2)%list)
                        | (inr imageUrl, ev2) =>
                            match commit cfg w req quota imageUrl originalImageUrl
                                    (fst fp) (snd fp) with
                            | (resp, w', ev3) => (resp, w', (ev ++ ev2 ++ ev3)%list)
                            end
                        end
                  end
              end
        end
  end.

Inductive RetryResponse :=
| RetryFail (statusCode : nat) (error : string)
| RetryQuotaExceeded (used limit resetAt : Z)        (* 429 *)
| RetryInitiated (generationId : nat)                (* status: 'processing' *)
| RetryThrown (e : Error).                           (* left to asyncHandler *)

(** [router.post('/retry/:id', ...)]: [i] is [req.params.id], [uid] is
    [req.user._id]. *)
Definition retry (env : Quota.Env) (t : Z) (w : World) (i uid : nat)
  : RetryResponse * World :=
  match Generation.findOne (generations w) i uid with
  | None => (RetryFail 404 "Generation not found", w)
  | Some generation =>
      if negb (Generation.Status_eqb (Generation.status generation) Generation.failed)
      then (RetryFail 400 "Can only retry failed generations", w)
      else
        match Quota.canUserGenerate env (startOfDay t) (quotas w) uid None with
        | (Throw e, qs) => (RetryThrown e, withQuotas w qs)
        | (Ok false, qs) =>
            match Quota.getTodayQuota env (startOfDay t) qs uid None with
            | (Throw e, qs') => (RetryThrown e, withQuotas w qs')
            | (Ok quota, qs') =>
                (RetryQuotaExceeded (Quota.generationsUsed quota)
                   (Quota.generationsLimit quota) (Quota.resetAt quota),
                 withQuotas w qs')
            end
        | (Ok true, qs) =>
            let w := withQuotas w qs in
            let d := Generation.load generation in
            let d := Generation.withStatus Generation.processing d in
            let d := Generation.withErrorMessage None d in
            let d := Generation.withGeneratedImageUrl None d in
            match Generation.save (generations w) t d with
            | (Throw e, gs) => (RetryThrown e, withGenerations w gs)
            | (Ok g, gs) => (RetryInitiated (Generation._id g), withGenerations w gs)
            end
        end
  end.

Inductive QuotaResponse :=
| QuotaInfo (generationsUsed generationsLimit generationsRemaining resetAt date : Z)
| QuotaThrown (e : Error).

(** [router.get('/quota', ...)] of routes/user.js; the [usagePercentage]
    and [status] virtuals of the response are floating-point and left
    out. *)
Definition getQuota (env : Quota.Env) (t : Z) (w : World) (uid : nat)
  : QuotaResponse * World :=
  match Quota.getTodayQuota env (startOfDay t) (quotas w) uid None with
  | (Throw e, qs) => (QuotaThrown e, withQuotas w qs)
  | (Ok quota, qs) =>
      (QuotaInfo (Quota.generationsUsed quota) (Quota.generationsLimit quota)
         (Quota.generationsRemaining quota) (Quota.resetAt quota) (Quota.date quota),
       withQuotas w qs)
  end.

End Routes.

(* ------------------------------------------------------------------ *)
(** ** [incrementUsage] calls racing on one (userId, day)

    A call is suspended at each [await] on the collection; between two
    awaits it runs alone.  [Pc] says which database operation a call is
    about to issue; a schedule picks which call moves next. *)

Module Interleaving.
Import Js.

Inductive Pc :=
| AtFind                               (* await this.findOne(...) *)
| AtCreate (limit : Z)                 (* await this.create(...) *)
| AtSaveLimit (quota : Quota.t)        (* await quota.save() in getTodayQuota *)
| AtSaveUsed (quota : Quota.t)         (* await quota.save() in incrementUsage *)
| Done (r : result Quota.t).

(** The code of [incrementUsage] after [getTodayQuota] has returned. *)
Definition afterGet (quota : Quota.t) : Pc :=
  if (Quota.generationsLimit quota <=? Quota.generationsUsed quota)%Z
  then Done (Throw (PlainError "Daily generation limit exceeded"))
  else AtSaveUsed (Quota.setUsed (Quota.generationsUsed quota + 1) quota).

Section Call.
Variables (env : Quota.Env) (today : Z) (uid : nat) (userTier : option Quota.Tier).

Definition step (st : Quota.Store) (pc : Pc) : Pc * Quota.Store :=
  let limit := Quota.tierLimit env (Quota.tierArg userTier) in
  match pc with
  | AtFind =>
      match Quota.findOne st uid today with
      | None => (AtCreate limit, st)
      | Some quota =>
          if negb (Quota.generationsLimit quota =? limit)%Z
          then (AtSaveLimit (Quota.setLimit limit quota), st)
          else (afterGet quota, st)
      end
  | AtCreate l =>
      match Quota.create st uid today 0 l with
      | (Ok q, st') => (afterGet q, st')
      | (Throw e, st') => (Done (Throw e), st')
      end
  | AtSaveLimit q =>
      match Quota.saveLimit st q with
      | (Ok q', st') => (afterGet q', st')
      | (Throw e, st') => (Done (Throw e), st')
      end
  | AtSaveUsed q =>
      match Quota.saveUsed st q with
      | (Ok q', st') => (Done (Ok q'), st')
      | (Throw e, st') => (Done (Throw e), st')
      end
  | Done r => (Done r, st)
  end.

Fixpoint setNth (i : nat) (pc : Pc) (ts : list Pc) : list Pc :=
  match ts, i with
  | [], _ => []
  | _ :: r, O => pc :: r
  | x :: r, S k => x :: setNth k pc r
  end.

(** Calls [ts] under the schedule [sched] (indices into [ts]). *)
Fixpoint run (sched : list nat) (st : Quota.Store) (ts : list Pc)
  : Quota.Store * list Pc :=
  match sched with
  | [] => (st, ts)
  | i :: rest =>
      match nth_error ts i with
      | None => run rest st ts
      | Some pc =>
          let '(pc', st') := step st pc in
          run rest st' (setNth i pc' ts)
      end
  end.

(** The calls one after another, each from its start to its end. *)
Fixpoint runSequential (n : nat) (st : Quota.Store)
  : list (result Quota.t) * Quota.Store :=
  match n with
  | O => ([], st)
  | S k =>
      let '(r, st') := Quota.incrementUsage env today st uid userTier in
      let '(rs, st'') := runSequential k st' in
      (r :: rs, st'')
  end.

End Call.

Definition succeeded (pc : Pc) : bool :=
  match pc with
  | Done (Ok _) => true
  | _ => false
  end.

Definition finished (pc : Pc) : bool :=
  match pc with
  | Done _ => true
  | _ => false
  end.

Definition isOk {A : Type} (r : result A) : bool :=
  match r with
  | Ok _ => true
  | Throw _ => false
  end.

Definition successes (ts : list Pc) : nat := List.length (filter succeeded ts).

End Interleaving.

(* ------------------------------------------------------------------ *)
(** ** Concrete requests and stores used by the examples below *)

Module Scenarios.
Import Routes.

Definition styleTemplate : string :=
  "make it look like {prompt} in the style, ref: {image}".

Definition styleCatalog : list PromptResolver.Preset :=
  [ PromptResolver.mkPreset "style_1" "in the style" "style" styleTemplate ].

Definition alice : User := mkUser 1 Quota.free.
Definition bob : User := mkUser 2 Quota.paid.

Definition upload : File := mkFile "u.jpg" "/srv/uploads/u.jpg".

(** Alice posts the prompt "sunset" with an image, no preset. *)
Definition sunsetRequest : Request :=
  mkRequest 1 "http" "x" (Some "sunset") None None (Some upload).

Definition uploadUrl : string := "http://x/uploads/u.jpg".

Definition freshWorld : World :=
  mkWorld [alice; bob] Quota.emptyStore Generation.emptyStore.

(** Alice has used 5 of 5 today (day 0). *)
Definition exhaustedWorld : World :=
  mkWorld [alice; bob]
    (Quota.mkStore [Quota.mkQuota 0 1 0 5 5 1] 1)
    Generation.emptyStore.

(** No provider was configured: the module-level [geminiService] is
    null. *)
Definition unconfigured : Config :=
  mkConfig false (fun _ _ => Threw "unused") (Some []) 1000.

(** The provider client of the second revision, its remote call cut off
    by a connection reset. *)
Definition resetError : GeminiService.RawError :=
  GeminiService.mkRawError (Some "read ECONNRESET") (Some "ECONNRESET").

Definition resetConfig : Config :=
  mkConfig true
    (fun _ _ => ofService
       (GeminiService.generateImageFromImage true
          (GeminiService.RawThrow resetError)))
    (Some []) 1000.

(** A provider whose remote call is refused by the safety filter. *)
Definition safetyError : GeminiService.RawError :=
  GeminiService.mkRawError (Some "Response was blocked due to safety settings") None.

Definition safetyConfig : Config :=
  mkConfig true
    (fun _ _ => ofService
       (GeminiService.generateImageFromImage false
          (GeminiService.RawThrow safetyError)))
    (Some []) 1000.

(** Alice posts "sunset" with the built-in preset artistic-landscape. *)
Definition landscapeRequest : Request :=
  mkRequest 1 "http" "x" (Some "sunset") (Some "artistic-landscape") None
    (Some upload).

Definition landscapePrompt : string :=
  "beautiful landscape, artistic style, vibrant colors, detailed scenery, professional photography, reference image: http://x/uploads/u.jpg, sunset".

(** A provider that returns a new image. *)
Definition workingConfig : Config :=
  mkConfig true (fun _ _ => Returned (Some "/uploads/gemini-i2i-1.jpg"))
    (Some []) 1000.

(** Bob, a paid user, has a quota record for day 0 with the paid limit. *)
Definition bobWorld : World :=
  mkWorld [alice; bob]
    (Quota.mkStore [Quota.mkQuota 0 2 0 3 50 1] 1)
    (Generation.mkStore
       [Generation.mkGeneration 0 2 (Some uploadUrl) None "sunset" "custom"
          "1024x1024" Generation.failed (Some "provider down") (Some 100%Z)
          (Some 900%Z) (Some 800%Z)]
       1).

(** Alice has used none of her 5 generations of day 0. *)
Definition aliceStore : Quota.Store :=
  Quota.mkStore [Quota.mkQuota 0 1 0 0 5 1] 1.

(** Carol (user 3) has used 3 of the free 5 on day 0; record 0 is
    Alice's. *)
Definition carolStore : Quota.Store :=
  Quota.mkStore [Quota.mkQuota 0 1 0 0 5 1; Quota.mkQuota 1 3 0 3 5 1] 2.

Definition aliceWorld : World :=
  mkWorld [alice; bob] aliceStore Generation.emptyStore.

Definition sunsetPrompt : string :=
  "sunset, reference image: http://x/uploads/u.jpg".

(** Six calls take turns: each reads, then each writes. *)
Definition readsThenWrites : list nat :=
  [0; 1; 2; 3; 4; 5; 0; 1; 2; 3; 4; 5]%nat.

Definition sixCalls : list Interleaving.Pc :=
  repeat Interleaving.AtFind 6.

End Scenarios.

(* ------------------------------------------------------------------ *)
(** ** Quota maintenance (models/Quota.js, lines 155-185) *)

Module QuotaMaintenance.
Import Js.

(** [resetAt < now], with [resetAt] the start of a day and [now] in
    milliseconds. *)
Definition expired (now : Z) (q : Quota.t) : bool :=
  (Quota.resetAt q * Routes.msPerDay <? now)%Z.

(** [quotaSchema.statics.resetExpiredQuotas]: [deleteMany] of the expired
    records, returning [deletedCount]. *)
Definition resetExpiredQuotas (now : Z) (st : Quota.Store) : nat * Quota.Store :=
  (List.length (filter (expired now) (Quota.docs st)),
   Quota.mkStore (filter (fun q => negb (expired now q)) (Quota.docs st))
     (Quota.nextId st)).

Definition cleared (tomorrow : Z) (q : Quota.t) : Quota.t :=
  Quota.mkQuota (Quota._id q) (Quota.userId q) (Quota.date q) 0
    (Quota.generationsLimit q) tomorrow.

(** [quotaSchema.methods.reset] called at [now] on the loaded document
    [q]: usage to 0, [resetAt] to the start of the day after [now], save. *)
Definition reset (now : Z) (st : Quota.Store) (q : Quota.t)
  : result Quota.t * Quota.Store :=
  let tomorrow := (Routes.startOfDay now + 1)%Z in
  match Quota.findById st (Quota._id q) with
  | None => (Throw DocumentNotFoundError, st)
  | Some _ =>
      (Ok (cleared tomorrow q),
       Quota.mkStore (Quota.updateById (Quota._id q) (cleared tomorrow) (Quota.docs st))
         (Quota.nextId st))
  end.

(** [quotaSchema.methods.isExceeded] is [Quota.isExceeded]. *)

End QuotaMaintenance.

(* ------------------------------------------------------------------ *)
(** ** Virtuals of a generation (models/Generation.js) *)

Module GenerationViews.

(** [processingDuration]: both dates set, else null. *)
Definition processingDuration (g : Generation.t) : option Z :=
  match Generation.processingEndTime g, Generation.processingStartTime g with
  | Some e, Some s => Some (e - s)%Z
  | _, _ => None
  end.

(** [imageUrls]: [generatedImageUrl ? [generatedImageUrl] : []]. *)
Definition imageUrls (g : Generation.t) : list string :=
  match Generation.generatedImageUrl g with
  | Some u => if u =? "" then [] else [u]
  | None => []
  end.

Definition statusDisplay (g : Generation.t) : string :=
  match Generation.status g with
  | Generation.processing => "Processing..."
  | Generation.completed => "Completed"
  | Generation.failed => "Failed"
  end.

End GenerationViews.

(* ------------------------------------------------------------------ *)
(** ** Further handlers: status, delete, presets, paging *)

Module MoreRoutes.
Import Js Routes.

(** The body of a 200 answer of GET /status/:id (the fields modelled). *)
Record StatusView := mkStatusView {
  sv_id : nat;
  sv_status : Generation.Status;
  sv_imageUrls : list string;
  sv_prompt : string;
  sv_error : option string;
  sv_completedAt : option Z
}.

(** [router.get('/status/:id', ...)]; [None] is the 404 answer. *)
Definition getStatus (w : World) (i uid : nat) : option StatusView :=
  match Generation.findOne (generations w) i uid with
  | None => None
  | Some generation =>
      Some (mkStatusView (Generation._id generation) (Generation.status generation)
              (GenerationViews.imageUrls generation) (Generation.prompt generation)
              (Generation.errorMessage generation)
              (Generation.processingEndTime generation))
  end.

(** [deleteOne] on a document removes the stored document with its [_id]. *)
Fixpoint removeById (i : nat) (l : list Generation.t) : list Generation.t :=
  match l with
  | [] => []
  | g :: r => if (Generation._id g =? i)%nat then r else g :: removeById i r
  end.

(** [router.delete('/generations/:id', ...)] of routes/user.js; [false]
    is the 404 answer. *)
Definition deleteGeneration (w : World) (i uid : nat) : bool * World :=
  match Generation.findOne (generations w) i uid with
  | None => (false, w)
  | Some generation =>
      (true,
       withGenerations w
         (Generation.mkStore
            (removeById (Generation._id generation) (Generation.docs (generations w)))
            (Generation.nextId (generations w))))
  end.

(** A catalog row with the fields that GET /presets reads. *)
Record PresetRow := mkPresetRow {
  p_id : string;
  p_name : string;
  p_description : string;
  p_category : string;
  p_style : string;
  p_main_prompt : string;
  p_negative_prompt : string;
  p_user_tier : string
}.

Definition fallbackRows : list PresetRow :=
  [ mkPresetRow "realistic-portrait" "Realistic Portrait"
      "High-quality realistic human portraits" "portrait" "photorealistic"
      "professional portrait photography, high quality, realistic, detailed facial features, natural lighting"
      "cartoon, anime, illustration, painting, drawing, art, sketch" "free";
    mkPresetRow "artistic-landscape" "Artistic Landscape"
      "Beautiful artistic landscape scenes" "landscape" "artistic"
      "beautiful landscape, artistic style, vibrant colors, detailed scenery, professional photography"
      "people, portraits, indoor, urban, city" "free";
    mkPresetRow "modern-architecture" "Modern Architecture"
      "Contemporary architectural designs" "architecture" "architectural"
      "modern architecture, contemporary design, clean lines, professional architectural photography"
      "people, nature, vintage, old, traditional" "free" ].

(** One element of [presets] in the answer; the success path copies the
    row's fields except [user_tier], the error path copies the row. *)
Record PresetEntry := mkPresetEntry {
  row : PresetRow;
  available : bool;
  requiresPaid : bool
}.

Record PresetsResponse := mkPresetsResponse {
  presets : list PresetEntry;
  source : string;
  loadError : option string
}.

Definition isPaying (userTier : string) : bool :=
  (userTier =? "premium") || (userTier =? "paid").

Definition isAvailable (userTier : string) (p : PresetRow) : bool :=
  if isPaying userTier then true else p_user_tier p =? "free".

Definition isUnavailable (userTier : string) (p : PresetRow) : bool :=
  if isPaying userTier then false else negb (p_user_tier p =? "free").

(** [router.get('/presets', ...)]; [csv] is what
    [promptMatcher.getAllPrompts()] resolves to, [None] when it rejects. *)
Definition getPresets (csv : option (list PresetRow)) (userTier : string)
  : PresetsResponse :=
  match csv with
  | Some loaded =>
      let allPrompts :=
        if (List.length loaded =? 0)%nat then fallbackRows else loaded in
      let availablePrompts := filter (isAvailable userTier) allPrompts in
      let unavailablePrompts := filter (isUnavailable userTier) allPrompts in
      let shown := map (fun p => mkPresetEntry p true false) availablePrompts in
      let locked :=
        if userTier =? "free"
        then map (fun p => mkPresetEntry p false true) unavailablePrompts
        else [] in
      mkPresetsResponse (shown ++ locked)
        (if (List.length fallbackRows <? List.length allPrompts)%nat
         then "csv" else "fallback")
        None
  | None =>
      mkPresetsResponse
        (map (fun p => mkPresetEntry p true false)
           (filter (fun p => isPaying userTier || (p_user_tier p =? "free"))
              fallbackRows))
        "fallback" (Some "Failed to load CSV prompts")
  end.

(** The [pagination] object of GET /generations and the documents of the
    page.  [results] is what the filter matches, in sort order. *)
Record Page (A : Type) := mkPage {
  items : list A;
  page : Z;
  limit : Z;
  total : Z;
  pages : Z;
  hasNext : bool;
  hasPrev : bool
}.
Arguments mkPage {A}.
Arguments items {A}.
Arguments page {A}.
Arguments limit {A}.
Arguments total {A}.
Arguments pages {A}.
Arguments hasNext {A}.
Arguments hasPrev {A}.

(** [Math.ceil(total / limit)] *)
Definition ceilDiv (a b : Z) : Z := (- ((- a) / b))%Z.

(** [parseInt(req.query.page) || 1], [parseInt(req.query.limit) || 20],
    [.limit(limit * 1).skip((page - 1) * limit)].  The server refuses a
    negative skip; a negative limit returns that many documents. *)
Definition paginate {A : Type} (results : list A) (qpage qlimit : option Z)
  : result (Page A) :=
  let page := Quota.parsedOr qpage 1 in
  let limit := Quota.parsedOr qlimit 20 in
  let skip := ((page - 1) * limit)%Z in
  if (skip <? 0)%Z then
    Throw (mkError "MongoServerError" "Skip value must be non-negative")
  else
    let total := Z.of_nat (List.length results) in
    let pages := ceilDiv total limit in
    Ok (mkPage (firstn (Z.to_nat (Z.abs limit)) (skipn (Z.to_nat skip) results))
          page limit total pages (page <? pages)%Z (1 <? page)%Z).

End MoreRoutes.

(* ------------------------------------------------------------------ *)
(** ** The prompt catalog (services/promptMatcher.js) *)

Module PromptMatcher.
Import Js JsString.

(** [String.prototype.toLowerCase] on code units below 256. *)
Definition toLower (c : ascii) : ascii :=
  let n := nat_of_ascii c in
  if ((65 <=? n) && (n <=? 90))%nat then ascii_of_nat (n + 32)
  else if ((192 <=? n) && (n <=? 222) && negb (n =? 215))%nat then ascii_of_nat (n + 32)
  else c.

Fixpoint toLowerCase (s : string) : string :=
  match s with
  | "" => ""
  | String c r => String (toLower c) (toLowerCase r)
  end.

(** [s.split(sep)] for a one-character separator; [cur] is the piece
    being read. *)
Fixpoint split_from (sep : ascii) (cur : string) (s : string) : list string :=
  match s with
  | "" => [cur]
  | String c r =>
      if Ascii.eqb c sep then cur :: split_from sep "" r
      else split_from sep (cur ++ String c "") r
  end.

Definition split (sep : ascii) (s : string) : list string := split_from sep "" s.

(** A catalog entry.  [name] is undefined when the CSV row has no
    category column; the other fields are always strings. *)
Record Prompt := mkPrompt {
  id : string;
  name : option string;
  description : string;
  category : string;
  tags : string;
  main_prompt : string;
  negative_prompt : string;
  style : string;
  quality_level : string;
  user_tier : string;
  is_active : bool
}.

(** A parsed CSV row: the two columns that are read. *)
Record Row := mkRow {
  row_category : option string;
  row_main_prompt : option string
}.

Definition natToString (n : nat) : string :=
  NilEmpty.string_of_uint (Nat.to_uint n).

(** The ['data'] handler of [loadPrompts]: the entry built from [row]
    when [loaded] entries were kept so far, or nothing when it is not
    valid. *)
Definition rowToPrompt (loaded : nat) (row : Row) : option Prompt :=
  let cat := match row_category row with Some c => c | None => "undefined" end in
  let nm := option_map trim (row_category row) in
  let category :=
    match nm with
    | Some c => orElse c "general"
    | None => "general"
    end in
  let main := match row_main_prompt row with Some m => trim m | None => "" end in
  if (category =? "") || (main =? "") then None
  else Some (mkPrompt (cat ++ "_" ++ natToString (loaded + 1)) nm "" category ""
               main "" "realistic" "high" "free" true).

(** The whole file, row after row. *)
Fixpoint loadRows (acc : list Prompt) (rows : list Row) : list Prompt :=
  match rows with
  | [] => acc
  | row :: rest =>
      match rowToPrompt (List.length acc) row with
      | Some p => loadRows (acc ++ [p]) rest
      | None => loadRows acc rest
      end
  end.

Definition loadPrompts (rows : list Row) : list Prompt := loadRows [] rows.

(** [getPromptsByUserTier] *)
Definition getPromptsByUserTier (prompts : list Prompt) (userTier : string)
  : list Prompt :=
  filter (fun p => if userTier =? "premium" then true else user_tier p =? "free")
         prompts.

(** The candidates of [findBestMatch] and [findMatches]: by tier, then by
    category when one is given (a truthy string). *)
Definition candidates (prompts : list Prompt) (userTier : string)
    (category_ : option string) : list Prompt :=
  let available := getPromptsByUserTier prompts userTier in
  match category_ with
  | Some c =>
      if c =? "" then available
      else filter (fun p => toLowerCase (category p) =? toLowerCase c) available
  | None => available
  end.

Definition bonus (b : bool) (n : nat) : nat := if b then n else 0%nat.

(** The score of one entry for the lower-cased [input]; [None] is the
    TypeError of [prompt.name.toLowerCase()] on an undefined name. *)
Definition score (input : string) (p : Prompt) : option nat :=
  match name p with
  | None => None
  | Some nm =>
      let tagList := map trim (split "," (toLowerCase (tags p))) in
      let inputWords :=
        filter (fun w => (2 <? String.length w)%nat) (split " " input) in
      Some (bonus (includes (toLowerCase nm) input) 10
            + bonus (includes (toLowerCase (description p)) input) 5
            + list_sum (map (fun tag => bonus (includes input tag || includes tag input) 3)
                          tagList)
            + bonus (includes (toLowerCase (category p)) input) 2
            + bonus (includes (toLowerCase (style p)) input) 2
            + list_sum (map (fun w => bonus (includes (toLowerCase (main_prompt p)) w) 1)
                          inputWords))%nat
  end.

(** The [forEach] over the candidates: the entries with a positive
    score, in order, or the error. *)
Fixpoint scoreAll (input : string) (ps : list Prompt)
  : result (list (Prompt * nat)) :=
  match ps with
  | [] => Ok []
  | p :: rest =>
      match score input p with
      | None => Throw (mkError "TypeError"
                         "Cannot read properties of undefined (reading 'toLowerCase')")
      | Some sc =>
          match scoreAll input rest with
          | Throw e => Throw e
          | Ok ms => Ok (if (0 <? sc)%nat then (p, sc) :: ms else ms)
          end
      end
  end.

(** [matches.sort((a, b) => b.matchScore - a.matchScore)]: stable, by
    decreasing score. *)
Fixpoint insertByScore (x : Prompt * nat) (l : list (Prompt * nat))
  : list (Prompt * nat) :=
  match l with
  | [] => [x]
  | y :: r => if (snd y <=? snd x)%nat then x :: y :: r else y :: insertByScore x r
  end.

Definition sortByScore (l : list (Prompt * nat)) : list (Prompt * nat) :=
  fold_right insertByScore [] l.

Fixpoint isDescending (l : list nat) : bool :=
  match l with
  | [] => true
  | x :: r =>
      match r with
      | [] => true
      | y :: _ => (y <=? x)%nat && isDescending r
      end
  end.

(** [arr.slice(0, limit)] for an integer [limit]. *)
Definition slice0 {A : Type} (l : list A) (limit : Z) : list A :=
  if (limit <? 0)%Z
  then firstn (List.length l - Z.to_nat (- limit)) l
  else firstn (Z.to_nat limit) l.

(** [findMatches(userInput, userTier, category, limit)] on the loaded
    [prompts]. *)
Definition findMatches (prompts : list Prompt) (userInput userTier : string)
    (category_ : option string) (limit : Z) : result (list (Prompt * nat)) :=
  let available := candidates prompts userTier category_ in
  if (List.length available =? 0)%nat then Ok []
  else
    match scoreAll (toLowerCase userInput) available with
    | Throw e => Throw e
    | Ok ms => Ok (slice0 (sortByScore ms) limit)
    end.

(** [findBestMatch(userInput, userTier, category)]; [Ok None] is null. *)
Definition findBestMatch (prompts : list Prompt) (userInput userTier : string)
    (category_ : option string) : result (option Prompt) :=
  let available := candidates prompts userTier category_ in
  match available with
  | [] => Ok None
  | first :: _ =>
      match scoreAll (toLowerCase userInput) available with
      | Throw e => Throw e
      | Ok ms =>
          match sortByScore ms with
          | best :: _ => Ok (Some (fst best))
          | [] => Ok (Some first)
          end
      end
  end.

(** What the loader guarantees of an entry it keeps. *)
Definition wellLoaded (p : Prompt) : Prop :=
  main_prompt p <> "" /\ category p <> "" /\ user_tier p = "free"
  /\ tags p = "" /\ description p = "".

End PromptMatcher.

(* ================================================================== *)
(** * Theorems *)

(** ** The quota collection *)

Module QuotaFacts.
Import Js Quota.

Lemma find_snoc {A : Type} (p : A -> bool) (l : list A) (x : A) :
  find p l = None -> find p (l ++ [x]) = if p x then Some x else None.
Proof.
  induction l as [|a l IH]; simpl; intros H.
  - reflexivity.
  - destruct (p a); [discriminate | auto].
Qed.

Lemma sameKey_setLimit uid day v q :
  sameKey uid day (setLimit v q) = sameKey uid day q.
Proof. reflexivity. Qed.

Lemma sameKey_setUsed uid day v q :
  sameKey uid day (setUsed v q) = sameKey uid day q.
Proof. reflexivity. Qed.

Lemma find_updateById_hit uid day f l q :
  (forall x, sameKey uid day (f x) = sameKey uid day x) ->
  find (sameKey uid day) l = Some q ->
  find (sameKey uid day) (updateById (_id q) f l) = Some (f q).
Proof.
  intros Hf. induction l as [|a l IH]; simpl; intros H; [discriminate|].
  destruct (sameKey uid day a) eqn:Ha.
  - injection H as ->. rewrite Nat.eqb_refl, Hf, Ha. reflexivity.
  - destruct (_id a =? _id q)%nat; [rewrite Hf|]; rewrite Ha; auto.
Qed.

Lemma find_updateById_miss uid day i f l :
  (forall x, sameKey uid day (f x) = sameKey uid day x) ->
  find (sameKey uid day) l = None ->
  find (sameKey uid day) (updateById i f l) = None.
Proof.
  intros Hf. induction l as [|a l IH]; simpl; intros H; [reflexivity|].
  destruct (sameKey uid day a) eqn:Ha; [discriminate|].
  destruct (_id a =? i)%nat; [rewrite Hf|]; rewrite Ha; auto.
Qed.

Lemma findOne_In st uid day q :
  findOne st uid day = Some q -> In q (docs st) /\ userId q = uid /\ date q = day.
Proof.
  unfold findOne. intros H. apply find_some in H as [Hin Hk].
  unfold sameKey in Hk. apply andb_true_iff in Hk as [Hu Hd].
  apply Nat.eqb_eq in Hu. apply Z.eqb_eq in Hd. auto.
Qed.

Lemma findById_present st q :
  In q (docs st) -> exists q0, findById st (_id q) = Some q0.
Proof.
  intros Hin. unfold findById.
  destruct (find (fun x => (_id x =? _id q)%nat) (docs st)) eqn:E; eauto.
  pose proof (find_none _ _ E q Hin) as Hn. simpl in Hn.
  rewrite Nat.eqb_refl in Hn. discriminate.
Qed.

Lemma setLimit_same q : setLimit (generationsLimit q) q = q.
Proof. destruct q; reflexivity. Qed.

Lemma validate_limit_ok v : (1 <= v)%Z -> validate 0 v = None.
Proof.
  intros H. unfold validate. simpl.
  destruct (v <? 1)%Z eqn:E; [apply Z.ltb_lt in E; lia | reflexivity].
Qed.

Lemma validate_used_ok v : (0 <= v)%Z -> validate v 1 = None.
Proof.
  intros H. unfold validate.
  destruct (v <? 0)%Z eqn:E; [apply Z.ltb_lt in E; lia | reflexivity].
Qed.

Lemma In_updateById i f l (x : t) :
  In x (updateById i f l) -> exists y, In y l /\ (x = y \/ x = f y).
Proof.
  unfold updateById. intros H. apply in_map_iff in H as (y & Hy & Hin).
  exists y. split; [assumption|].
  destruct (_id y =? i)%nat; auto.
Qed.

(** [saveLimit] of the record found for (uid, day). *)
Lemma saveLimit_found st uid day q v :
  findOne st uid day = Some q -> (1 <= v)%Z ->
  exists st',
    saveLimit st (setLimit v q) = (Ok (setLimit v q), st')
    /\ findOne st' uid day = Some (setLimit v q)
    /\ nextId st' = nextId st
    /\ docs st' = updateById (_id q) (setLimit v) (docs st).
Proof.
  intros Hf Hv. unfold saveLimit. simpl.
  rewrite validate_limit_ok by assumption.
  destruct (findOne_In _ _ _ _ Hf) as (Hin & _ & _).
  destruct (findById_present _ _ Hin) as (q0 & ->).
  eexists. repeat split. unfold findOne. simpl.
  apply find_updateById_hit; [intros; apply sameKey_setLimit | exact Hf].
Qed.

Lemma saveUsed_found st uid day q v :
  findOne st uid day = Some q -> (0 <= v)%Z ->
  exists st',
    saveUsed st (setUsed v q) = (Ok (setUsed v q), st')
    /\ findOne st' uid day = Some (setUsed v q)
    /\ nextId st' = nextId st
    /\ docs st' = updateById (_id q) (setUsed v) (docs st).
Proof.
  intros Hf Hv. unfold saveUsed. simpl.
  rewrite validate_used_ok by assumption.
  destruct (findOne_In _ _ _ _ Hf) as (Hin & _ & _).
  destruct (findById_present _ _ Hin) as (q0 & ->).
  eexists. repeat split. unfold findOne. simpl.
  apply find_updateById_hit; [intros; apply sameKey_setUsed | exact Hf].
Qed.

(** What [getTodayQuota] does when today's record exists. *)
Lemma getTodayQuota_found env today st uid tr q :
  findOne st uid today = Some q ->
  (1 <= tierLimit env (tierArg tr))%Z ->
  let q' := setLimit (tierLimit env (tierArg tr)) q in
  exists st',
    getTodayQuota env today st uid tr = (Ok q', st')
    /\ findOne st' uid today = Some q'
    /\ nextId st' = nextId st
    /\ (docs st' = docs st
        \/ docs st' = updateById (_id q) (setLimit (tierLimit env (tierArg tr))) (docs st)).
Proof.
  intros Hf Hl q'. unfold getTodayQuota. rewrite Hf.
  destruct (generationsLimit q =? tierLimit env (tierArg tr))%Z eqn:E; simpl.
  - apply Z.eqb_eq in E. subst q'. rewrite <- E, setLimit_same.
    exists st. auto.
  - destruct (saveLimit_found st uid today q _ Hf Hl) as (st' & H1 & H2 & H3 & H4).
    exists st'. auto.
Qed.

(** What it does when there is none. *)
Lemma getTodayQuota_absent env today st uid tr :
  findOne st uid today = None ->
  (1 <= tierLimit env (tierArg tr))%Z ->
  let q' := mkQuota (nextId st) uid today 0 (tierLimit env (tierArg tr)) (today + 1) in
  getTodayQuota env today st uid tr
    = (Ok q', mkStore (docs st ++ [q']) (S (nextId st)))
  /\ findOne (mkStore (docs st ++ [q']) (S (nextId st))) uid today = Some q'.
Proof.
  intros Hf Hl q'. unfold getTodayQuota, create. rewrite Hf.
  rewrite validate_limit_ok by assumption. split; [reflexivity|].
  unfold findOne in *. simpl. rewrite find_snoc by assumption.
  unfold sameKey. simpl. rewrite Nat.eqb_refl, Z.eqb_refl. reflexivity.
Qed.

Lemma tierLimit_envOk env tr : envOk env -> (1 <= tierLimit env tr)%Z.
Proof. intros [Hf Hp]. destruct tr; assumption. Qed.

Lemma envOk_default : envOk defaultEnv.
Proof. split; vm_compute; discriminate. Qed.

End QuotaFacts.

Module QuotaLedger.
Import Js Quota QuotaFacts.

Lemma idsFresh_update st st' i f :
  (forall x, _id (f x) = _id x) ->
  idsFresh st -> nextId st' = nextId st ->
  (docs st' = docs st \/ docs st' = updateById i f (docs st)) ->
  idsFresh st'.
Proof.
  intros Hid Hfr Hn Hd q Hin. rewrite Hn.
  destruct Hd as [Hd | Hd]; rewrite Hd in Hin.
  - apply Hfr, Hin.
  - apply In_updateById in Hin as (y & Hy & [-> | ->]).
    + apply Hfr, Hy.
    + rewrite Hid. apply Hfr, Hy.
Qed.

Lemma findOne_none_update st st' uid d i v :
  findOne st uid d = None ->
  (docs st' = docs st \/ docs st' = updateById i (setLimit v) (docs st)) ->
  findOne st' uid d = None.
Proof.
  unfold findOne. intros Hn [Hd | Hd]; rewrite Hd; [assumption|].
  apply find_updateById_miss; [intros; apply sameKey_setLimit | assumption].
Qed.

(** [getTodayQuota] always returns a record, which is then the one stored
    for (uid, today); records of other days are left as they are. *)
Lemma getTodayQuota_total env today st uid tr :
  envOk env -> idsFresh st ->
  exists q st',
    getTodayQuota env today st uid tr = (Ok q, st')
    /\ findOne st' uid today = Some q
    /\ idsFresh st'
    /\ (_id q < nextId st')%nat
    /\ (nextId st <= nextId st')%nat
    /\ (forall d, d <> today -> findOne st uid d = None -> findOne st' uid d = None)
    /\ (forall q0, findOne st uid today = Some q0 ->
          q = setLimit (tierLimit env (tierArg tr)) q0)
    /\ (findOne st uid today = None ->
          generationsUsed q = 0%Z /\ _id q = nextId st /\ date q = today).
Proof.
  intros Henv Hfr.
  pose proof (tierLimit_envOk env (tierArg tr) Henv) as Hl.
  destruct (findOne st uid today) as [q0|] eqn:E.
  - destruct (getTodayQuota_found env today st uid tr q0 E Hl)
      as (st' & Hg & Hfind & Hn & Hd).
    assert (Hfr' : idsFresh st')
      by (eapply idsFresh_update; eauto; intros; reflexivity).
    exists (setLimit (tierLimit env (tierArg tr)) q0), st'.
    repeat split; auto.
    + apply Hfr'. apply (findOne_In _ _ _ _ Hfind).
    + rewrite Hn. apply Nat.le_refl.
    + intros d _ Hnone. eapply findOne_none_update; eauto.
    + intros q1 [= <-]. reflexivity.
    + discriminate.
    + discriminate.
    + discriminate.
  - destruct (getTodayQuota_absent env today st uid tr E Hl) as (Hg & Hfind).
    eexists. eexists. split; [exact Hg|]. split; [exact Hfind|].
    repeat split; simpl; auto.
    + intros q Hin. simpl in *. apply in_app_or in Hin as [Hin | [<- | []]].
      * apply Nat.lt_lt_succ_r. apply Hfr, Hin.
      * simpl. apply Nat.lt_succ_diag_r.
    + intros d Hd Hnone. unfold findOne in *. simpl.
      rewrite find_snoc by assumption. unfold sameKey. simpl.
      destruct (today =? d)%Z eqn:Ed; [apply Z.eqb_eq in Ed; congruence|].
      rewrite andb_false_r. reflexivity.
    + discriminate.
Qed.

(** [getTodayQuota] written out, for a limit that passes the schema. *)
Lemma getTodayQuota_exact env today st uid tr :
  (1 <= tierLimit env (tierArg tr))%Z ->
  getTodayQuota env today st uid tr
  = match findOne st uid today with
    | Some q0 =>
        (Ok (setLimit (tierLimit env (tierArg tr)) q0),
         if (generationsLimit q0 =? tierLimit env (tierArg tr))%Z then st
         else mkStore (updateById (_id q0) (setLimit (tierLimit env (tierArg tr)))
                         (docs st))
                      (nextId st))
    | None =>
        (Ok (mkQuota (nextId st) uid today 0 (tierLimit env (tierArg tr)) (today + 1)),
         mkStore (docs st ++ [mkQuota (nextId st) uid today 0
                                (tierLimit env (tierArg tr)) (today + 1)])
                 (S (nextId st)))
    end.
Proof.
  intros Hl. unfold getTodayQuota.
  destruct (findOne st uid today) as [q0|] eqn:E.
  - destruct (generationsLimit q0 =? tierLimit env (tierArg tr))%Z eqn:El; simpl.
    + apply Z.eqb_eq in El. rewrite <- El, setLimit_same. reflexivity.
    + unfold saveLimit. simpl. rewrite validate_limit_ok by assumption.
      destruct (findOne_In _ _ _ _ E) as (Hin & _ & _).
      destruct (findById_present _ _ Hin) as (q' & ->). reflexivity.
  - unfold create. rewrite validate_limit_ok by assumption. rewrite E. reflexivity.
Qed.

Lemma find_app_some {A : Type} (p : A -> bool) (l l' : list A) (x : A) :
  find p l = Some x -> find p (l ++ l') = Some x.
Proof.
  induction l as [|a l IH]; simpl; [discriminate|].
  destruct (p a); auto.
Qed.

(** C8.  Two calls to getTodayQuota for one user on one day work on one
    stored record.  The first call returns the record stored for that day
    with only its limit set to the limit of the tier passed, and where the
    limit differs it updates exactly that record in the collection, by its
    _id (when none is stored it inserts one with generationsUsed = 0).  The
    second call returns the first result with only its limit set to the
    limit of its own tier: same _id, same generationsUsed, no reset, again
    updated in place.  After each call the collection holds the returned
    record for that user and day.  The first call on the following day,
    for which no record exists yet, appends a record with another _id and
    generationsUsed = 0, and the record of the day before stays stored as
    it was. *)
Theorem getTodayQuota_same_day_then_next_day :
  forall env day st uid t1 t2 t3,
    envOk env -> idsFresh st -> findOne st uid (day + 1) = None ->
    exists q1 st1 q2 st2 q3 st3,
      getTodayQuota env day st uid t1 = (Ok q1, st1)
      /\ match findOne st uid day with
         | Some q0 =>
             q1 = setLimit (tierLimit env (tierArg t1)) q0
             /\ st1 = (if (generationsLimit q0 =? tierLimit env (tierArg t1))%Z
                       then st
                       else mkStore (updateById (_id q0)
                                       (setLimit (tierLimit env (tierArg t1)))
                                       (docs st))
                                    (nextId st))
         | None =>
             q1 = mkQuota (nextId st) uid day 0 (tierLimit env (tierArg t1)) (day + 1)
             /\ st1 = mkStore (docs st ++ [q1]) (S (nextId st))
         end
      /\ findOne st1 uid day = Some q1
      /\ getTodayQuota env day st1 uid t2 = (Ok q2, st2)
      /\ q2 = setLimit (tierLimit env (tierArg t2)) q1
      /\ _id q2 = _id q1
      /\ generationsUsed q2 = generationsUsed q1
      /\ generationsLimit q2 = tierLimit env (tierArg t2)
      /\ st2 = (if (generationsLimit q1 =? tierLimit env (tierArg t2))%Z
                then st1
                else mkStore (updateById (_id q1)
                                (setLimit (tierLimit env (tierArg t2)))
                                (docs st1))
                             (nextId st1))
      /\ findOne st2 uid day = Some q2
      /\ getTodayQuota env (day + 1) st2 uid t3 = (Ok q3, st3)
      /\ q3 = mkQuota (nextId st2) uid (day + 1) 0 (tierLimit env (tierArg t3))
                (day + 1 + 1)
      /\ _id q3 <> _id q1
      /\ generationsUsed q3 = 0%Z
      /\ date q3 = (day + 1)%Z
      /\ st3 = mkStore (docs st2 ++ [q3]) (S (nextId st2))
      /\ findOne st3 uid day = Some q2
      /\ findOne st3 uid (day + 1) = Some q3.
Proof.
  intros env day st uid t1 t2 t3 Henv Hfr Hnext.
  assert (Hne : (day + 1)%Z <> day) by lia.
  pose proof (tierLimit_envOk env (tierArg t1) Henv) as L1.
  pose proof (tierLimit_envOk env (tierArg t2) Henv) as L2.
  pose proof (tierLimit_envOk env (tierArg t3) Henv) as L3.
  destruct (getTodayQuota_total env day st uid t1 Henv Hfr)
    as (q1 & st1 & G1 & F1 & Fr1 & Lt1 & _ & K1 & _ & _).
  destruct (getTodayQuota_total env day st1 uid t2 Henv Fr1)
    as (q2 & st2 & G2 & F2 & Fr2 & _ & Le2 & K2 & S2 & _).
  destruct (getTodayQuota_total env (day + 1) st2 uid t3 Henv Fr2)
    as (q3 & st3 & G3 & F3 & _ & _ & _ & _ & _ & N3).
  specialize (S2 q1 F1).
  assert (Hn2 : findOne st2 uid (day + 1) = None) by (apply K2, K1; assumption).
  destruct (N3 Hn2) as (U3 & I3 & D3).
  pose proof G1 as E1. rewrite (getTodayQuota_exact _ _ _ _ _ L1) in E1.
  pose proof G2 as E2. rewrite (getTodayQuota_exact _ _ _ _ _ L2), F1 in E2.
  pose proof G3 as E3. rewrite (getTodayQuota_exact _ _ _ _ _ L3), Hn2 in E3.
  injection E2 as _ E2. injection E3 as E3q E3.
  exists q1, st1, q2, st2, q3, st3.
  split; [exact G1|].
  split; [destruct (findOne st uid day) as [q0|]; injection E1 as <- <-; auto|].
  split; [exact F1|]. split; [exact G2|]. split; [exact S2|].
  split; [subst q2; reflexivity|]. split; [subst q2; reflexivity|].
  split; [subst q2; reflexivity|]. split; [symmetry; exact E2|].
  split; [exact F2|]. split; [exact G3|]. split; [symmetry; exact E3q|].
  split; [rewrite I3; lia|]. split; [exact U3|]. split; [exact D3|].
  split; [rewrite E3q in E3; symmetry; exact E3|].
  split; [|exact F3].
  rewrite <- E3. unfold findOne in *. simpl. apply find_app_some. exact F2.
Qed.

Lemma getTodayQuota_same_day_then_next_day_witness :
  exists q1 st1 q2 st2 q3 st3,
    getTodayQuota defaultEnv 0 Scenarios.carolStore 3 (Some free) = (Ok q1, st1)
    /\ match findOne Scenarios.carolStore 3 0 with
       | Some q0 =>
           q1 = setLimit (tierLimit defaultEnv (tierArg (Some free))) q0
           /\ st1 = (if (generationsLimit q0
                         =? tierLimit defaultEnv (tierArg (Some free)))%Z
                     then Scenarios.carolStore
                     else mkStore (updateById (_id q0)
                                     (setLimit (tierLimit defaultEnv (tierArg (Some free))))
                                     (docs Scenarios.carolStore))
                                  (nextId Scenarios.carolStore))
       | None =>
           q1 = mkQuota (nextId Scenarios.carolStore) 3 0 0
                  (tierLimit defaultEnv (tierArg (Some free))) (0 + 1)
           /\ st1 = mkStore (docs Scenarios.carolStore ++ [q1])
                      (S (nextId Scenarios.carolStore))
       end
    /\ findOne st1 3 0 = Some q1
    /\ getTodayQuota defaultEnv 0 st1 3 (Some paid) = (Ok q2, st2)
    /\ q2 = setLimit (tierLimit defaultEnv (tierArg (Some paid))) q1
    /\ _id q2 = _id q1
    /\ generationsUsed q2 = generationsUsed q1
    /\ generationsLimit q2 = tierLimit defaultEnv (tierArg (Some paid))
    /\ st2 = (if (generationsLimit q1 =? tierLimit defaultEnv (tierArg (Some paid)))%Z
              then st1
              else mkStore (updateById (_id q1)
                              (setLimit (tierLimit defaultEnv (tierArg (Some paid))))
                              (docs st1))
                           (nextId st1))
    /\ findOne st2 3 0 = Some q2
    /\ getTodayQuota defaultEnv (0 + 1) st2 3 (Some paid) = (Ok q3, st3)
    /\ q3 = mkQuota (nextId st2) 3 (0 + 1) 0 (tierLimit defaultEnv (tierArg (Some paid)))
              (0 + 1 + 1)
    /\ _id q3 <> _id q1
    /\ generationsUsed q3 = 0%Z
    /\ date q3 = (0 + 1)%Z
    /\ st3 = mkStore (docs st2 ++ [q3]) (S (nextId st2))
    /\ findOne st3 3 0 = Some q2
    /\ findOne st3 3 (0 + 1) = Some q3.
Proof.
  apply (getTodayQuota_same_day_then_next_day defaultEnv 0 Scenarios.carolStore 3
           (Some free) (Some paid) (Some paid)).
  - split; vm_compute; discriminate.
  - intros q [<- | [<- | []]]; vm_compute; repeat constructor.
  - reflexivity.
Defined.

(** The run of the scenario above: Carol's record keeps its _id 1 and its
    usage 3 while its limit goes from 5 to 50 in the collection, and the
    record of day 1 is a new one with usage 0. *)
Example carol_changes_tier_then_next_day :
  forall q1 st1 q2 st2 q3 st3,
    getTodayQuota defaultEnv 0 Scenarios.carolStore 3 (Some free) = (Ok q1, st1) ->
    getTodayQuota defaultEnv 0 st1 3 (Some paid) = (Ok q2, st2) ->
    getTodayQuota defaultEnv 1 st2 3 (Some paid) = (Ok q3, st3) ->
    q1 = mkQuota 1 3 0 3 5 1
    /\ q2 = mkQuota 1 3 0 3 50 1
    /\ q3 = mkQuota 2 3 1 0 50 2
    /\ docs st3 = [mkQuota 0 1 0 0 5 1; mkQuota 1 3 0 3 50 1; mkQuota 2 3 1 0 50 2].
Proof.
  intros q1 st1 q2 st2 q3 st3 H1. vm_compute in H1. injection H1 as <- <-.
  intros H2. vm_compute in H2. injection H2 as <- <-.
  intros H3. vm_compute in H3. injection H3 as <- <-.
  repeat split.
Qed.

End QuotaLedger.

(** ** Calls that leave the tier out *)

Module TierlessCalls.
Import Js Quota QuotaFacts Routes.

Lemma canUserGenerate_found env today st uid tr q :
  findOne st uid today = Some q ->
  (1 <= tierLimit env (tierArg tr))%Z ->
  exists st',
    canUserGenerate env today st uid tr
      = (Ok (generationsUsed q <? tierLimit env (tierArg tr))%Z, st')
    /\ findOne st' uid today = Some (setLimit (tierLimit env (tierArg tr)) q).
Proof.
  intros Hf Hl.
  destruct (getTodayQuota_found env today st uid tr q Hf Hl) as (st' & Hg & Hfi & _).
  exists st'. unfold canUserGenerate. rewrite Hg. auto.
Qed.

(** C5.  For a user [u] of tier paid with a quota record [q] for today:
    getTodayQuota and canUserGenerate called without a tier use the free
    limit ([tierLimit env free], 5 when the environment sets none) and
    leave [q] stored with its limit overwritten by it, usage untouched;
    GET /quota and the quota check of POST /retry/:id are such calls, so
    after either the stored record carries the free limit, which is below
    the user's own limit whenever the free limit is below the paid one. *)
Theorem tierless_calls_overwrite_limit_with_free :
  forall env t w (u : User) q,
    In u (users w) -> tier u = paid ->
    (1 <= tierLimit env free)%Z ->
    findOne (quotas w) (u_id u) (startOfDay t) = Some q ->
    let today := startOfDay t in
    let q' := setLimit (tierLimit env free) q in
    (exists st',
        getTodayQuota env today (quotas w) (u_id u) None = (Ok q', st')
        /\ findOne st' (u_id u) today = Some q')
    /\ (exists st',
        canUserGenerate env today (quotas w) (u_id u) None
          = (Ok (generationsUsed q <? tierLimit env free)%Z, st')
        /\ findOne st' (u_id u) today = Some q')
    /\ (exists w',
        getQuota env t w (u_id u)
          = (QuotaInfo (generationsUsed q) (tierLimit env free)
               (Z.max 0 (tierLimit env free - generationsUsed q))
               (resetAt q) (date q), w')
        /\ findOne (quotas w') (u_id u) today = Some q')
    /\ (forall i g,
        Generation.findOne (generations w) i (u_id u) = Some g ->
        Generation.status g = Generation.failed ->
        findOne (quotas (snd (retry env t w i (u_id u)))) (u_id u) today = Some q')
    /\ generationsUsed q' = generationsUsed q
    /\ ((tierLimit env free < tierLimit env paid)%Z ->
        (generationsLimit q' < tierLimit env (tier u))%Z)
    /\ tierLimit defaultEnv free = 5%Z.
Proof.
  intros env t w u q Hu Htier Hl Hf today q'.
  assert (Hl' : (1 <= tierLimit env (tierArg None))%Z) by exact Hl.
  destruct (getTodayQuota_found env today (quotas w) (u_id u) None q Hf Hl')
    as (st1 & G1 & F1 & _).
  destruct (canUserGenerate_found env today (quotas w) (u_id u) None q Hf Hl')
    as (st2 & G2 & F2).
  simpl tierArg in *. fold q' in G1, F1, F2.
  split; [eauto|]. split; [eauto|]. split; [|split; [|split; [|split]]].
  - unfold getQuota. fold today. rewrite G1. eexists. split; [reflexivity|exact F1].
  - intros i g Hg Hs. unfold retry. rewrite Hg, Hs. simpl negb. cbv iota.
    fold today. rewrite G2.
    destruct (generationsUsed q <? tierLimit env free)%Z.
    + destruct (Generation.save _ _ _) as [[g' | e] gs]; simpl; exact F2.
    + destruct (getTodayQuota_found env today st2 (u_id u) None q' F2 Hl')
        as (st3 & G3 & F3 & _).
      simpl tierArg in *. rewrite G3. simpl. exact F3.
  - reflexivity.
  - intros Hlt. rewrite Htier. exact Hlt.
  - reflexivity.
Qed.

Lemma tierless_calls_overwrite_limit_with_free_witness :
  let q := mkQuota 0 2 0 3 50 1 in
  let q' := setLimit 5 q in
  (exists st',
      getTodayQuota defaultEnv 0 (quotas Scenarios.bobWorld) 2 None = (Ok q', st')
      /\ findOne st' 2 0 = Some q')
  /\ (exists w',
      getQuota defaultEnv 1000 Scenarios.bobWorld 2 = (QuotaInfo 3 5 2 1 0, w')
      /\ findOne (quotas w') 2 0 = Some q')
  /\ findOne (quotas (snd (retry defaultEnv 1000 Scenarios.bobWorld 0 2))) 2 0
     = Some q'.
Proof.
  intros q q'.
  destruct (tierless_calls_overwrite_limit_with_free defaultEnv 1000
              Scenarios.bobWorld Scenarios.bob q)
    as (H1 & _ & H3 & H4 & _).
  - right. left. reflexivity.
  - reflexivity.
  - vm_compute. discriminate.
  - reflexivity.
  - split; [exact H1|]. split; [exact H3|].
    apply (H4 0%nat (Generation.mkGeneration 0 2 (Some Scenarios.uploadUrl) None
                       "sunset" "custom" "1024x1024" Generation.failed
                       (Some "provider down") (Some 100%Z) (Some 900%Z) (Some 800%Z)));
      reflexivity.
Defined.

End TierlessCalls.

(** ** Prompt resolution *)

Module PromptFacts.
Import JsString PromptResolver.

Example replace_expands_dollar_patterns :
  replace "a {prompt} b" "{prompt}" "x$&y$$" = "a x{prompt}y$ b".
Proof. reflexivity. Qed.

Example replaceRegExp_ignores_case :
  replaceRegExp true "{IMAGE} and {image}" "{image}" "U" = "U and U".
Proof. reflexivity. Qed.

Example trim_both_ends : trim "  a b  " = "a b".
Proof. reflexivity. Qed.

(** A preset without any placeholder gets the reference and the prompt
    appended. *)
Example fallback_preset_appends :
  resolvePrompt (Some []) (Some "artistic-landscape") "sunset" "http://x/u.jpg"
  = ("beautiful landscape, artistic style, vibrant colors, detailed scenery, professional photography, reference image: http://x/u.jpg, sunset",
     "Artistic Landscape").
Proof. reflexivity. Qed.

(** A preset that names a member the built-in table inherits takes the
    preset branch with an empty template. *)
Example inherited_member_is_taken_for_a_preset :
  PromptResolver.resolvePrompt (Some []) (Some "constructor") "sunset"
    "http://x/uploads/u.jpg"
  = (", reference image: http://x/uploads/u.jpg, sunset", "Object")
  /\ PromptResolver.resolvePrompt (Some []) (Some "__proto__") "sunset"
       "http://x/uploads/u.jpg"
     = (", reference image: http://x/uploads/u.jpg, sunset", "__proto__")
  /\ PromptResolver.resolvePrompt (Some []) (Some "no-such-preset") "sunset"
       "http://x/uploads/u.jpg"
     = ("sunset, reference image: http://x/uploads/u.jpg", "no-such-preset").
Proof. repeat split. Qed.

(** C10.  Whatever the catalog, when the preset asked for resolves to a
    row whose template is the one of the scenario, the prompt "sunset" and
    the image URL "http://x/u.jpg" give exactly
    "make it look like sunset in the style, ref: http://x/u.jpg": the image
    placeholder becomes the URL, the prompt placeholder the raw prompt, and
    nothing is appended. *)
Theorem resolvePrompt_style_scenario :
  forall (all : list Preset) (ps : string) (pd : Preset),
    ps <> "" ->
    findPreset all ps = Some pd ->
    main_prompt pd = Scenarios.styleTemplate ->
    fst (resolvePrompt (Some all) (Some ps) "sunset" "http://x/u.jpg")
    = "make it look like sunset in the style, ref: http://x/u.jpg".
Proof.
  intros all ps pd Hne Hfind Hmp. unfold resolvePrompt.
  destruct (ps =? "") eqn:E; [apply String.eqb_eq in E; contradiction|].
  rewrite Hfind. unfold fst, applyPreset. rewrite Hmp. reflexivity.
Qed.

Lemma resolvePrompt_style_scenario_witness :
  fst (resolvePrompt (Some Scenarios.styleCatalog) (Some "style_1") "sunset"
         "http://x/u.jpg")
  = "make it look like sunset in the style, ref: http://x/u.jpg".
Proof.
  apply (resolvePrompt_style_scenario Scenarios.styleCatalog "style_1"
           (mkPreset "style_1" "in the style" "style" Scenarios.styleTemplate)).
  - discriminate.
  - reflexivity.
  - reflexivity.
Defined.

End PromptFacts.

(** ** The image-to-image handler *)

Module ImageToImageFacts.
Import Js JsString Routes.

Lemma withQuotas_same w : withQuotas w (quotas w) = w.
Proof. destruct w; reflexivity. Qed.

(** C9.  A user whose quota record of today has generationsUsed >=
    generationsLimit posts to /image-to-image: whatever the request, the
    world is left as it was (generationsUsed unchanged, nothing written)
    and no event happens, so the provider is not called; the response is
    an error, and for a request that passes validation it is the 429
    "Daily generation limit exceeded" response. *)
Theorem exhausted_quota_is_refused_before_provider :
  forall cfg w req user quota,
    find (fun u => (u_id u =? userId req)%nat) (users w) = Some user ->
    Quota.findOne (quotas w) (u_id user) (startOfDay (now cfg)) = Some quota ->
    (Quota.generationsLimit quota <= Quota.generationsUsed quota)%Z ->
    snd (fst (imageToImage cfg w req)) = w
    /\ snd (imageToImage cfg w req) = []
    /\ (exists code msg, fst (fst (imageToImage cfg w req)) = Fail code msg)
    /\ (forall p f, validRequest req p f ->
          imageToImage cfg w req = (Fail 429 quotaExceeded, w, [])).
Proof.
  intros cfg w req user quota Hu Hq Hfull.
  assert (Hcore : forall p f, prompt req = Some p -> file req = Some f ->
            promptMissing (Some p) = false ->
            (1000 <? String.length p)%nat = false ->
            imageToImage cfg w req = (Fail 429 quotaExceeded, w, [])).
  { intros p f Hp Hf Hm Hlen. unfold imageToImage.
    rewrite Hp, Hm, Hf, Hlen, Hu. unfold findOrCreateQuota. rewrite Hq.
    apply Z.leb_le in Hfull. rewrite Hfull, withQuotas_same. reflexivity. }
  assert (Hall : exists code msg, imageToImage cfg w req = (Fail code msg, w, [])).
  { destruct (prompt req) as [p|] eqn:Hp.
    - destruct (promptMissing (Some p)) eqn:Hm.
      + unfold imageToImage. rewrite Hp, Hm. eauto.
      + destruct (file req) as [f|] eqn:Hf.
        * destruct (1000 <? String.length p)%nat eqn:Hlen.
          -- unfold imageToImage. rewrite Hp, Hm, Hf, Hlen. eauto.
          -- rewrite (Hcore p f); eauto.
        * unfold imageToImage. rewrite Hp, Hm, Hf. eauto.
    - unfold imageToImage. rewrite Hp. eauto. }
  destruct Hall as (code & msg & Hall).
  repeat split.
  - rewrite Hall. reflexivity.
  - rewrite Hall. reflexivity.
  - rewrite Hall. simpl. eauto.
  - intros p f (Hp & Hm & Hf & Hlen). apply (Hcore p f); auto.
    apply Nat.ltb_ge. exact Hlen.
Qed.

Lemma exhausted_quota_is_refused_before_provider_witness :
  imageToImage Scenarios.workingConfig Scenarios.exhaustedWorld
    Scenarios.sunsetRequest
  = (Fail 429 quotaExceeded, Scenarios.exhaustedWorld, []).
Proof.
  destruct (exhausted_quota_is_refused_before_provider Scenarios.workingConfig
              Scenarios.exhaustedWorld Scenarios.sunsetRequest Scenarios.alice
              (Quota.mkQuota 0 1 0 5 5 1))
    as (_ & _ & _ & H).
  - reflexivity.
  - reflexivity.
  - simpl. lia.
  - apply (H "sunset" Scenarios.upload). repeat split. simpl. lia.
Defined.

Lemma routeError_is_Fail e : exists code msg, routeError e = Fail code msg.
Proof.
  unfold routeError.
  repeat match goal with
         | |- context [if ?b then _ else _] => destruct b
         end; eauto.
Qed.

Lemma url_not_empty a b : (a ++ "://" ++ b =? "") = false.
Proof. destruct a; reflexivity. Qed.

(** Today's record after lines 206-220. *)
Lemma findOrCreateQuota_total today qs user :
  exists quota qs' ev,
    findOrCreateQuota today qs user = (Ok quota, qs', ev)
    /\ Quota.findOne qs' (u_id user) today = Some quota
    /\ (forall g ok, ~ In (GenerationWrite g ok) ev)
    /\ (forall q ok, ~ In (QuotaUsageSaved q ok) ev)
    /\ (forall q0, Quota.findOne qs (u_id user) today = Some q0 ->
          quota = q0 /\ qs' = qs /\ ev = []).
Proof.
  unfold findOrCreateQuota.
  destruct (Quota.findOne qs (u_id user) today) as [q0|] eqn:E.
  - exists q0, qs, []. repeat split; auto; try (intros; intros []).
    all: injection H as <-; reflexivity.
  - set (l := match tier user with Quota.paid => 50%Z | Quota.free => 5%Z end).
    assert (Hl : Quota.validate 0 l = None) by (subst l; destruct (tier user); reflexivity).
    unfold Quota.create. rewrite Hl, E.
    eexists. eexists. eexists. split; [reflexivity|].
    split; [|split; [|split]].
    + unfold Quota.findOne in *. simpl. rewrite QuotaFacts.find_snoc by assumption.
      unfold Quota.sameKey. simpl. rewrite Nat.eqb_refl, Z.eqb_refl. reflexivity.
    + intros g ok [H | []]. discriminate.
    + intros q ok [H | []]. discriminate.
    + discriminate.
Qed.

(** Lines 345-398 on a record that is stored and whose usage is not
    negative: the usage is saved incremented, then the generation is
    written as completed, or the failure of that write is passed over. *)
Lemma commit_charges cfg w req quota imageUrl original fp np uid today :
  Quota.findOne (quotas w) uid today = Some quota ->
  (0 <= Quota.generationsUsed quota)%Z ->
  let used' := (Quota.generationsUsed quota + 1)%Z in
  let quota' := Quota.setUsed used' quota in
  exists ref w' g ok,
    commit cfg w req quota imageUrl original fp np
    = (Generated (imageUrl =? original) ref imageUrl original fp used'
         (Quota.generationsLimit quota)
         (Z.max 0 (Quota.generationsLimit quota - used')),
       w', [QuotaUsageSaved quota' true; GenerationWrite g ok])
    /\ Quota.findOne (quotas w') uid today = Some quota'
    /\ Generation.status g = Generation.completed
    /\ Generation.generatedImageUrl g = Some imageUrl
    /\ ((ok = true
         /\ Generation.docs (generations w') = Generation.docs (generations w) ++ [g])%list
        \/ (ok = false /\ ref = TempId /\ generations w' = generations w)).
Proof.
  intros Hf Hu used' quota'. subst quota' used'. unfold commit. cbv zeta.
  destruct (QuotaFacts.saveUsed_found (quotas w) uid today quota
              (Quota.generationsUsed quota + 1) Hf)
    as (st' & Hs & Hfi & _); [lia|].
  rewrite Hs.
  unfold Generation.saveNew.
  destruct (Generation.validateNew _) as [e|].
  - eexists. eexists. eexists. eexists. split; [reflexivity|].
    simpl. repeat split; auto.
  - eexists. eexists. eexists. eexists. split; [reflexivity|].
    simpl. repeat split; auto.
Qed.

(** A request that passes validation and the quota check goes on to the
    provider and, unless the provider's answer is unusable, to the commit. *)
Lemma imageToImage_after_quota_check cfg w req p f user quota qs ev1 :
  validRequest req p f ->
  find (fun u => (u_id u =? userId req)%nat) (users w) = Some user ->
  findOrCreateQuota (startOfDay (now cfg)) (quotas w) user = (Ok quota, qs, ev1) ->
  (Quota.generationsUsed quota < Quota.generationsLimit quota)%Z ->
  let original := protocol req ++ "://" ++ host req ++ "/uploads/" ++ filename f in
  let fp := PromptResolver.resolvePrompt (allPrompts cfg) (preset req) p original in
  imageToImage cfg w req
  = match obtainImage cfg f (fst fp) original with
    | (inl resp, ev2) => (resp, withQuotas w qs, (ev1 ++ ev2)%list)
    | (inr imageUrl, ev2) =>
        match commit cfg (withQuotas w qs) req quota imageUrl original
                (fst fp) (snd fp) with
        | (resp, w', ev3) => (resp, w', (ev1 ++ ev2 ++ ev3)%list)
        end
    end.
Proof.
  intros (Hp & Hm & Hf & Hlen) Hu Hq Hlt original fp.
  unfold imageToImage. rewrite Hp, Hm, Hf.
  apply Nat.ltb_ge in Hlen. rewrite Hlen, Hu, Hq.
  destruct (Quota.generationsLimit quota <=? Quota.generationsUsed quota)%Z eqn:E;
    [apply Z.leb_le in E; lia | reflexivity].
Qed.

(** The same, for an output URL that was obtained. *)
Lemma imageToImage_charges cfg w req p f user quota qs ev1 imageUrl ev2 :
  validRequest req p f ->
  find (fun u => (u_id u =? userId req)%nat) (users w) = Some user ->
  findOrCreateQuota (startOfDay (now cfg)) (quotas w) user = (Ok quota, qs, ev1) ->
  (0 <= Quota.generationsUsed quota < Quota.generationsLimit quota)%Z ->
  let original := protocol req ++ "://" ++ host req ++ "/uploads/" ++ filename f in
  let fp := fst (PromptResolver.resolvePrompt (allPrompts cfg) (preset req) p original) in
  let used' := (Quota.generationsUsed quota + 1)%Z in
  obtainImage cfg f fp original = (inr imageUrl, ev2) ->
  exists ref w' g ok,
    imageToImage cfg w req
    = (Generated (imageUrl =? original) ref imageUrl original fp used'
         (Quota.generationsLimit quota)
         (Z.max 0 (Quota.generationsLimit quota - used')),
       w',
       (ev1 ++ ev2 ++ [QuotaUsageSaved (Quota.setUsed used' quota) true;
                       GenerationWrite g ok])%list)
    /\ Quota.findOne (quotas w') (u_id user) (startOfDay (now cfg))
       = Some (Quota.setUsed used' quota)
    /\ Generation.status g = Generation.completed
    /\ Generation.generatedImageUrl g = Some imageUrl
    /\ ((ok = true
         /\ Generation.docs (generations w') = Generation.docs (generations w) ++ [g])%list
        \/ (ok = false /\ ref = TempId /\ generations w' = generations w)).
Proof.
  intros Hv Hu Hq [H0 Hlt] original fp used' Hob.
  rewrite (imageToImage_after_quota_check cfg w req p f user quota qs ev1 Hv Hu Hq Hlt).
  fold original. fold fp. rewrite Hob.
  destruct (findOrCreateQuota_total (startOfDay (now cfg)) (quotas w) user)
    as (quota0 & qs0 & ev0 & Hq0 & Hfind & _).
  rewrite Hq in Hq0. injection Hq0 as <- <- <-.
  destruct (commit_charges cfg (withQuotas w qs) req quota imageUrl original fp
              (snd (PromptResolver.resolvePrompt (allPrompts cfg) (preset req) p original))
              (u_id user) (startOfDay (now cfg)) Hfind H0)
    as (ref & w' & g & ok & Hc & Hfi & Hst & Hgen & Hdocs).
  rewrite Hc. exists ref, w', g, ok. repeat split; auto.
Qed.

(** The same, with what becomes of the Generation: it is written as
    completed, without an error message; it is stored when it passes the
    validators of the schema (presetUsed in the enum, prompt not empty and
    at most 2000 long), and otherwise nothing is stored and the answer
    carries the stand-in id. *)
Lemma imageToImage_records cfg w req p f user quota qs ev1 imageUrl ev2 :
  validRequest req p f ->
  find (fun u => (u_id u =? userId req)%nat) (users w) = Some user ->
  findOrCreateQuota (startOfDay (now cfg)) (quotas w) user = (Ok quota, qs, ev1) ->
  (0 <= Quota.generationsUsed quota < Quota.generationsLimit quota)%Z ->
  let original := protocol req ++ "://" ++ host req ++ "/uploads/" ++ filename f in
  let rp := PromptResolver.resolvePrompt (allPrompts cfg) (preset req) p original in
  let used' := (Quota.generationsUsed quota + 1)%Z in
  obtainImage cfg f (fst rp) original = (inr imageUrl, ev2) ->
  exists ref w' g ok,
    imageToImage cfg w req
    = (Generated (imageUrl =? original) ref imageUrl original (fst rp) used'
         (Quota.generationsLimit quota)
         (Z.max 0 (Quota.generationsLimit quota - used')),
       w',
       (ev1 ++ ev2 ++ [QuotaUsageSaved (Quota.setUsed used' quota) true;
                       GenerationWrite g ok])%list)
    /\ Quota.findOne (quotas w') (u_id user) (startOfDay (now cfg))
       = Some (Quota.setUsed used' quota)
    /\ Generation.status g = Generation.completed
    /\ Generation.errorMessage g = None
    /\ Generation.generatedImageUrl g = Some imageUrl
    /\ Generation.prompt g = fst rp
    /\ Generation.presetUsed g = snd rp
    /\ (ok = true <-> Generation.validateNew g = None)
    /\ (ok = true ->
        ref = RealId (Generation._id g)
        /\ Generation.docs (generations w')
           = (Generation.docs (generations w) ++ [g])%list)
    /\ (ok = false -> ref = TempId /\ generations w' = generations w).
Proof.
  intros Hv Hu Hq [H0 Hlt] original rp used' Hob.
  rewrite (imageToImage_after_quota_check cfg w req p f user quota qs ev1 Hv Hu Hq Hlt).
  fold original. fold rp. rewrite Hob.
  destruct (findOrCreateQuota_total (startOfDay (now cfg)) (quotas w) user)
    as (quota0 & qs0 & ev0 & Hq0 & Hfind & _).
  rewrite Hq in Hq0. injection Hq0 as <- <- <-.
  unfold commit. cbv zeta.
  destruct (QuotaFacts.saveUsed_found (quotas (withQuotas w qs)) (u_id user)
              (startOfDay (now cfg)) quota (Quota.generationsUsed quota + 1) Hfind)
    as (st' & Hs & Hfi & _); [lia|].
  cbn [quotas withQuotas] in Hs |- *. rewrite Hs.
  unfold Generation.saveNew.
  destruct (Generation.validateNew _) as [e|] eqn:V.
  - eexists. eexists. eexists. exists false. split; [reflexivity|].
    cbn [quotas generations withQuotas withGenerations Generation.fields
         Generation.construct Generation.status Generation.errorMessage
         Generation.generatedImageUrl Generation.prompt Generation.presetUsed].
    repeat split; auto; try discriminate.
    intros V'. cbn in V, V'. rewrite V in V'. discriminate.
  - eexists. eexists. eexists. exists true. split; [reflexivity|].
    cbn [Generation.fields Generation.construct] in V.
    cbn. repeat split; auto; try discriminate.
Qed.

End ImageToImageFacts.

(** ** Echoed output and provider failures *)

Module Outcomes.
Import Js JsString Routes ImageToImageFacts.

(** The two ways in which the handler comes to an output URL equal to
    the input URL with the provider client of the repository: no provider
    is configured, or its call is rejected. *)
Lemma obtainImage_unconfigured cfg f fp original :
  serviceAvailable cfg = false ->
  obtainImage cfg f fp original = (inr original, []).
Proof. intros Hs. unfold obtainImage. rewrite Hs. reflexivity. Qed.


(** The [catch] block of the client never resolves. *)
Lemma onError_rejects sslFallback e :
  exists msg, GeminiService.onError sslFallback e = GeminiService.Rejected msg.
Proof.
  unfold GeminiService.onError, GeminiService.generateLocalPlaceholder.
  repeat match goal with
         | |- context [if ?b then _ else _] => destruct b
         end; eauto.
Qed.

(** C1 (as the code has it).  A request that passes validation and the
    quota check and whose output image URL is the input image URL itself
    (an echo: with the provider client of the repository this is what the
    handler is left with when no provider is configured or the provider
    call is rejected) is answered with success and echoedInput = true.
    generationsUsed is stored incremented by 1 (the usage being at most
    MAX_SAFE_INTEGER), and the Generation is written with status
    completed, the echoed URL and no error message: it is stored when it
    passes the schema's validators, and otherwise nothing is stored and
    the answer carries the stand-in id.  No failed record is written. *)
Theorem echoed_output_is_completed_and_charged :
  forall cfg w req p f user quota qs ev1 ev2,
    validRequest req p f ->
    find (fun u => (u_id u =? userId req)%nat) (users w) = Some user ->
    findOrCreateQuota (startOfDay (now cfg)) (quotas w) user = (Ok quota, qs, ev1) ->
    (0 <= Quota.generationsUsed quota < Quota.generationsLimit quota)%Z ->
    (Quota.generationsUsed quota <= MAX_SAFE_INTEGER)%Z ->
    let original := protocol req ++ "://" ++ host req ++ "/uploads/" ++ filename f in
    let rp := PromptResolver.resolvePrompt (allPrompts cfg) (preset req) p original in
    let used' := (Quota.generationsUsed quota + 1)%Z in
    obtainImage cfg f (fst rp) original = (inr original, ev2) ->
    exists ref w' g ok,
      imageToImage cfg w req
      = (Generated true ref original original (fst rp) used'
           (Quota.generationsLimit quota)
           (Z.max 0 (Quota.generationsLimit quota - used')),
         w',
         (ev1 ++ ev2 ++ [QuotaUsageSaved (Quota.setUsed used' quota) true;
                         GenerationWrite g ok])%list)
      /\ Quota.findOne (quotas w') (u_id user) (startOfDay (now cfg))
         = Some (Quota.setUsed used' quota)
      /\ Generation.status g = Generation.completed
      /\ Generation.errorMessage g = None
      /\ Generation.generatedImageUrl g = Some original
      /\ Generation.prompt g = fst rp
      /\ Generation.presetUsed g = snd rp
      /\ (ok = true <-> Generation.validateNew g = None)
      /\ (ok = true ->
          ref = RealId (Generation._id g)
          /\ Generation.docs (generations w')
             = (Generation.docs (generations w) ++ [g])%list)
      /\ (ok = false -> ref = TempId /\ generations w' = generations w).
Proof.
  intros cfg w req p f user quota qs ev1 ev2 Hv Hu Hq Hrange _ original rp used' Hob.
  destruct (imageToImage_records cfg w req p f user quota qs ev1 _ _ Hv Hu Hq Hrange Hob)
    as (ref & w' & g & ok & H & Hrest).
  fold original rp used' in H, Hrest.
  rewrite String.eqb_refl in H. exists ref, w', g, ok. split; [exact H | exact Hrest].
Qed.

Lemma echoed_output_is_completed_and_charged_witness :
  exists ref w' g ok,
    imageToImage Scenarios.resetConfig Scenarios.aliceWorld Scenarios.sunsetRequest
    = (Generated true ref Scenarios.uploadUrl Scenarios.uploadUrl
         Scenarios.sunsetPrompt 1 5 4,
       w',
       [ProviderCalled "/srv/uploads/u.jpg" Scenarios.sunsetPrompt;
        QuotaUsageSaved (Quota.mkQuota 0 1 0 1 5 1) true;
        GenerationWrite g ok])
    /\ Quota.findOne (quotas w') 1 0 = Some (Quota.mkQuota 0 1 0 1 5 1)
    /\ Generation.status g = Generation.completed
    /\ Generation.errorMessage g = None
    /\ Generation.generatedImageUrl g = Some Scenarios.uploadUrl
    /\ Generation.prompt g = Scenarios.sunsetPrompt
    /\ Generation.presetUsed g = "custom"
    /\ (ok = true <-> Generation.validateNew g = None)
    /\ (ok = true ->
        ref = RealId (Generation._id g)
        /\ Generation.docs (generations w')
           = (Generation.docs (generations Scenarios.aliceWorld) ++ [g])%list)
    /\ (ok = false -> ref = TempId /\ generations w' = generations Scenarios.aliceWorld).
Proof.
  apply (echoed_output_is_completed_and_charged Scenarios.resetConfig
           Scenarios.aliceWorld Scenarios.sunsetRequest "sunset" Scenarios.upload
           Scenarios.alice (Quota.mkQuota 0 1 0 0 5 1) Scenarios.aliceStore []
           [ProviderCalled "/srv/uploads/u.jpg" Scenarios.sunsetPrompt]).
  - repeat split. simpl. lia.
  - reflexivity.
  - reflexivity.
  - simpl. lia.
  - vm_compute. discriminate.
  - reflexivity.
Defined.

(** C1 as stated fails.  Alice posts "sunset" with an upload.  Without a
    configured provider, and likewise with the provider client rejecting
    after a connection reset, the output image URL is the input image URL;
    the answer is a success with echoedInput = true, the generation is
    stored with status completed and no error message, and her
    generationsUsed goes from 0 to 1. *)
Lemma echo_is_not_rejected :
  let r1 := imageToImage Scenarios.unconfigured Scenarios.aliceWorld
              Scenarios.sunsetRequest in
  let r2 := imageToImage Scenarios.resetConfig Scenarios.aliceWorld
              Scenarios.sunsetRequest in
  GeminiService.generateImageFromImage true
    (GeminiService.RawThrow Scenarios.resetError)
  = GeminiService.Rejected "Failed to generate placeholder image"
  /\ fst (fst r1)
     = Generated true (RealId 0) Scenarios.uploadUrl Scenarios.uploadUrl
         Scenarios.sunsetPrompt 1 5 4
  /\ fst (fst r2) = fst (fst r1)
  /\ map Generation.status (Generation.docs (generations (snd (fst r1))))
     = [Generation.completed]
  /\ map Generation.errorMessage (Generation.docs (generations (snd (fst r1))))
     = [None]
  /\ snd (fst r2) = snd (fst r1)
  /\ map Quota.generationsUsed (Quota.docs (quotas Scenarios.aliceWorld)) = [0%Z]
  /\ map Quota.generationsUsed (Quota.docs (quotas (snd (fst r1)))) = [1%Z].
Proof. vm_compute. repeat split. Qed.




(** Both outcomes of the write, computed: after a safety rejection the
    request with no preset stores a completed generation, the request
    with the built-in preset stores none; both are charged. *)
Example safety_rejection_with_and_without_preset :
  let r1 := imageToImage Scenarios.safetyConfig Scenarios.aliceWorld
              Scenarios.sunsetRequest in
  let r2 := imageToImage Scenarios.safetyConfig Scenarios.aliceWorld
              Scenarios.landscapeRequest in
  fst (fst r2)
  = Generated true TempId Scenarios.uploadUrl Scenarios.uploadUrl
      Scenarios.landscapePrompt 1 5 4
  /\ Generation.docs (generations (snd (fst r2))) = []
  /\ map Quota.generationsUsed (Quota.docs (quotas (snd (fst r2)))) = [1%Z]
  /\ map Generation.status (Generation.docs (generations (snd (fst r1))))
     = [Generation.completed]
  /\ map Quota.generationsUsed (Quota.docs (quotas (snd (fst r1)))) = [1%Z].
Proof. vm_compute. repeat split. Qed.


End Outcomes.

(** ** Order of the writes of a request *)

Module Ordering.
Import Js JsString Routes ImageToImageFacts.

Lemma obtainImage_events cfg f fp original r ev :
  obtainImage cfg f fp original = (r, ev) ->
  (ev = [] \/ ev = [ProviderCalled (path f) fp])
  /\ (forall resp, r = inl resp -> exists code msg, resp = Fail code msg).
Proof.
  unfold obtainImage.
  destruct (serviceAvailable cfg); simpl negb; cbv iota.
  - destruct (provider cfg (path f) fp) as [[u|]|m].
    + destruct (u =? ""); [|destruct (isMockPlaceholder u)];
        intros [= <- <-]; split; auto; intros resp [= <-]; eauto.
    + intros [= <- <-]. split; auto. intros resp [= <-]. eauto.
    + intros [= <- <-]. split; auto. intros resp [=].
  - intros [= <- <-]. split; auto. intros resp [=].
Qed.

(** Lines 345-398 in all their outcomes. *)
Lemma commit_shape cfg w req quota imageUrl original fp np resp w' ev :
  commit cfg w req quota imageUrl original fp np = (resp, w', ev) ->
  let quota' := Quota.setUsed (Quota.generationsUsed quota + 1) quota in
  ((exists code msg, resp = Fail code msg)
   /\ ev = [QuotaUsageSaved quota' false]
   /\ generations w' = generations w)
  \/ (exists g ok ref,
       resp = Generated (imageUrl =? original) ref imageUrl original fp
                (Quota.generationsUsed quota') (Quota.generationsLimit quota')
                (Z.max 0 (Quota.generationsLimit quota' - Quota.generationsUsed quota'))
       /\ ev = [QuotaUsageSaved quota' true; GenerationWrite g ok]
       /\ Generation.status g = Generation.completed
       /\ ((ok = true
            /\ Generation.docs (generations w')
               = Generation.docs (generations w) ++ [g])%list
           \/ (ok = false /\ ref = TempId /\ generations w' = generations w))).
Proof.
  unfold commit. cbv zeta.
  destruct (Quota.saveUsed (quotas w) _) as [[q | e] qs].
  - unfold Generation.saveNew.
    destruct (Generation.validateNew _) as [e|]; intros [= <- <- <-]; right.
    + eexists. exists false. eexists. repeat split. right. auto.
    + eexists. exists true. eexists. repeat split. left. auto.
  - intros [= <- <- <-]. left. split; [apply routeError_is_Fail | auto].
Qed.

Lemma not_in_obtain_events ev f fp :
  ev = [] \/ ev = [ProviderCalled f fp] ->
  (forall g ok, ~ In (GenerationWrite g ok) ev)
  /\ (forall q ok, ~ In (QuotaUsageSaved q ok) ev).
Proof.
  intros [-> | ->]; split; intros ? ? H; simpl in H;
    try contradiction; destruct H as [H | []]; discriminate.
Qed.

(** Every run of the handler: either an error response, with no
    generation written, or a success whose last two effects are the save
    of the incremented usage and then the write of the generation. *)
Lemma imageToImage_shape cfg w req resp w' ev :
  imageToImage cfg w req = (resp, w', ev) ->
  ((exists code msg, resp = Fail code msg)
   /\ generations w' = generations w
   /\ (forall g ok, ~ In (GenerationWrite g ok) ev))
  \/ (exists pre q g ok,
       ev = (pre ++ [QuotaUsageSaved q true; GenerationWrite g ok])%list
       /\ (forall g' ok', ~ In (GenerationWrite g' ok') pre)
       /\ (forall q' ok', ~ In (QuotaUsageSaved q' ok') pre)
       /\ (exists e r i o f l m,
             resp = Generated e r i o f (Quota.generationsUsed q) l m)
       /\ Generation.status g = Generation.completed
       /\ ((ok = true
            /\ Generation.docs (generations w')
               = Generation.docs (generations w) ++ [g])%list
           \/ (ok = false /\ generations w' = generations w))).
Proof.
  unfold imageToImage.
  destruct (prompt req) as [p|];
    [|intros [= <- <- <-]; left; repeat split; eauto].
  destruct (promptMissing (Some p));
    [intros [= <- <- <-]; left; repeat split; eauto|].
  destruct (file req) as [f|];
    [|intros [= <- <- <-]; left; repeat split; eauto].
  destruct (1000 <? String.length p)%nat;
    [intros [= <- <- <-]; left; repeat split; eauto|].
  destruct (find _ (users w)) as [user|];
    [|intros [= <- <- <-]; left; repeat split; eauto].
  destruct (findOrCreateQuota_total (startOfDay (now cfg)) (quotas w) user)
    as (quota & qs & ev1 & -> & _ & Hg1 & Hq1 & _).
  destruct (Quota.generationsLimit quota <=? Quota.generationsUsed quota)%Z;
    [intros [= <- <- <-]; left; repeat split; eauto|].
  cbv zeta.
  destruct (obtainImage cfg f _ _) as [[r | imageUrl] ev2] eqn:Hob;
    apply obtainImage_events in Hob as [Hev2 Hfail];
    destruct (not_in_obtain_events _ _ _ Hev2) as [Hg2 Hq2].
  - intros [= <- <- <-]. left. split; [apply Hfail; reflexivity|].
    split; [reflexivity|].
    intros g ok Hin. apply in_app_or in Hin as [Hin | Hin];
      [eapply Hg1 | eapply Hg2]; eauto.
  - destruct (commit _ _ _ _ _ _ _ _) as [[resp3 w3] ev3] eqn:Hc.
    intros [= <- <- <-].
    apply commit_shape in Hc.
    destruct Hc as [(Hf & -> & Hgen) | (g & ok & ref & -> & -> & Hst & Hdocs)].
    + left. split; [exact Hf|]. split; [exact Hgen|].
      intros g ok Hin.
      apply in_app_or in Hin as [Hin | Hin]; [eapply Hg1; eauto|].
      apply in_app_or in Hin as [Hin | Hin]; [eapply Hg2; eauto|].
      destruct Hin as [H | []]. discriminate.
    + right. exists (ev1 ++ ev2)%list. eexists. exists g, ok.
      split; [rewrite <- app_assoc; reflexivity|].
      split; [|split; [|split; [|split]]].
      * intros g' ok' Hin. apply in_app_or in Hin as [Hin | Hin];
          [eapply Hg1 | eapply Hg2]; eauto.
      * intros q' ok' Hin. apply in_app_or in Hin as [Hin | Hin];
          [eapply Hq1 | eapply Hq2]; eauto.
      * repeat eexists.
      * exact Hst.
      * destruct Hdocs as [(-> & Hd) | (-> & _ & Hd)]; auto.
Qed.

(** A success answer, traced back: the record of today that the handler
    found or inserted, the save of its incremented usage, then the write
    of the generation; what the collections hold afterwards. *)
Lemma imageToImage_generated_trace cfg w req e r i o f u l m w' ev :
  imageToImage cfg w req = (Generated e r i o f u l m, w', ev) ->
  exists quota pre g ok,
    let q := Quota.setUsed (Quota.generationsUsed quota + 1) quota in
    ev = (pre ++ [QuotaUsageSaved q true; GenerationWrite g ok])%list
    /\ u = Quota.generationsUsed q
    /\ (forall g' ok', ~ In (GenerationWrite g' ok') pre)
    /\ (forall q' ok', ~ In (QuotaUsageSaved q' ok') pre)
    /\ (forall q0, Quota.findOne (quotas w) (userId req) (startOfDay (now cfg)) = Some q0 ->
          quota = q0)
    /\ Quota.findOne (quotas w') (userId req) (startOfDay (now cfg)) = Some q
    /\ Generation.status g = Generation.completed
    /\ (ok = true ->
        r = RealId (Generation._id g)
        /\ Generation.docs (generations w')
           = (Generation.docs (generations w) ++ [g])%list)
    /\ (ok = false -> r = TempId /\ generations w' = generations w).
Proof.
  unfold imageToImage.
  destruct (prompt req) as [p|]; [|discriminate].
  destruct (promptMissing (Some p)); [discriminate|].
  destruct (file req) as [fl|]; [|discriminate].
  destruct (1000 <? String.length p)%nat; [discriminate|].
  destruct (find _ (users w)) as [user|] eqn:Hu; [|discriminate].
  apply find_some in Hu as [_ Hid]. apply Nat.eqb_eq in Hid.
  destruct (findOrCreateQuota_total (startOfDay (now cfg)) (quotas w) user)
    as (quota & qs & ev1 & -> & Hfind & Hg1 & Hq1 & Hsame).
  rewrite Hid in Hfind, Hsame.
  destruct (Quota.generationsLimit quota <=? Quota.generationsUsed quota)%Z;
    [discriminate|].
  cbv zeta.
  destruct (obtainImage cfg fl _ _) as [[resp | imageUrl] ev2] eqn:Hob;
    apply obtainImage_events in Hob as [Hev2 Hfail];
    destruct (not_in_obtain_events _ _ _ Hev2) as [Hg2 Hq2].
  - intros [= -> _ _]. destruct (Hfail _ eq_refl) as (c & msg & Hc). discriminate.
  - unfold commit. cbv zeta.
    destruct (Quota.saveUsed _ _) as [[q | err] qs2] eqn:Hsave.
    + assert (Hstored :
        Quota.findOne qs2 (userId req) (startOfDay (now cfg))
        = Some (Quota.setUsed (Quota.generationsUsed quota + 1) quota)).
      { unfold Quota.saveUsed in Hsave.
        destruct (Quota.validate _ 1); [discriminate|].
        destruct (Quota.findById _ _); [|discriminate].
        injection Hsave as _ <-. unfold Quota.findOne in *.
        cbn [Quota.docs quotas withQuotas Quota._id Quota.setUsed
             Quota.generationsUsed].
        apply (QuotaFacts.find_updateById_hit (userId req) (startOfDay (now cfg))
                 (Quota.setUsed (Quota.generationsUsed quota + 1)));
          [intros; reflexivity | exact Hfind]. }
      assert (Hpre : (forall g' ok', ~ In (GenerationWrite g' ok') (ev1 ++ ev2)%list)
                     /\ (forall q' ok', ~ In (QuotaUsageSaved q' ok') (ev1 ++ ev2)%list)).
      { split; intros x ok' Hin; apply in_app_or in Hin as [Hin | Hin];
          [eapply Hg1 | eapply Hg2 | eapply Hq1 | eapply Hq2]; eauto. }
      destruct Hpre as [Hpg Hpq].
      unfold Generation.saveNew.
      destruct (Generation.validateNew _) as [err|];
        intros [= <- <- <- <- <- <- <- <- <- <-];
        exists quota, (ev1 ++ ev2)%list; eexists; [exists false | exists true];
        cbv zeta;
        (split; [rewrite <- app_assoc; reflexivity|]);
        (split; [reflexivity|]); (split; [exact Hpg|]); (split; [exact Hpq|]);
        (split; [intros q0 Hq0; destruct (Hsame q0 Hq0); auto|]);
        (split; [exact Hstored|]); (split; [reflexivity|]);
        split; intros Hok; try discriminate Hok; split; reflexivity.
    + intros [= Hr _ _]. destruct (routeError_is_Fail err) as (c & msg & Hc).
      rewrite Hc in Hr. discriminate.
Qed.

(** C3 (as the code has it).  In every request that is answered with a
    generation, the incremented generationsUsed is saved first and the
    write of the Generation record is attempted right after it: the two
    are the last effects of the request, in this order, and no Generation
    write comes before the increment.  A failure of that write is
    tolerated without undoing the increment: whether or not the write
    succeeded, the record stored for the user and day after the request
    is the one saved with the incremented usage (the former usage plus 1,
    for a usage of at most MAX_SAFE_INTEGER), which the response reports;
    a failed write leaves the generations as they were and puts the
    stand-in id in the answer, a successful one appends the record. *)
Theorem usage_is_saved_before_generation_is_written :
  forall cfg w req echoed ref iu ou fpr used limit remaining w' ev,
    imageToImage cfg w req
    = (Generated echoed ref iu ou fpr used limit remaining, w', ev) ->
    exists pre q g ok,
      ev = (pre ++ [QuotaUsageSaved q true; GenerationWrite g ok])%list
      /\ Quota.generationsUsed q = used
      /\ (forall g' ok', ~ In (GenerationWrite g' ok') pre)
      /\ (forall q' ok', ~ In (QuotaUsageSaved q' ok') pre)
      /\ Quota.findOne (quotas w') (userId req) (startOfDay (now cfg)) = Some q
      /\ (forall q0,
            Quota.findOne (quotas w) (userId req) (startOfDay (now cfg)) = Some q0 ->
            (Quota.generationsUsed q0 <= MAX_SAFE_INTEGER)%Z ->
            q = Quota.setUsed (Quota.generationsUsed q0 + 1) q0)
      /\ (ok = true ->
          ref = RealId (Generation._id g)
          /\ Generation.docs (generations w')
             = (Generation.docs (generations w) ++ [g])%list)
      /\ (ok = false -> ref = TempId /\ generations w' = generations w).
Proof.
  intros cfg w req echoed ref iu ou fpr used limit remaining w' ev H.
  apply imageToImage_generated_trace in H
    as (quota & pre & g & ok & Hev & Hu & Hg & Hq & Hsame & Hstored & _ & Hok & Hko).
  exists pre, (Quota.setUsed (Quota.generationsUsed quota + 1) quota), g, ok.
  split; [exact Hev|]. split; [symmetry; exact Hu|]. split; [exact Hg|].
  split; [exact Hq|]. split; [exact Hstored|].
  split; [intros q0 Hq0 _; rewrite (Hsame q0 Hq0); reflexivity|].
  split; assumption.
Qed.

Lemma usage_is_saved_before_generation_is_written_witness :
  exists pre q g ok,
    snd (imageToImage Scenarios.workingConfig Scenarios.aliceWorld
           Scenarios.landscapeRequest)
    = (pre ++ [QuotaUsageSaved q true; GenerationWrite g ok])%list
    /\ Quota.generationsUsed q = 1%Z
    /\ (forall g' ok', ~ In (GenerationWrite g' ok') pre)
    /\ (forall q' ok', ~ In (QuotaUsageSaved q' ok') pre)
    /\ Quota.findOne
         (quotas (snd (fst (imageToImage Scenarios.workingConfig Scenarios.aliceWorld
                              Scenarios.landscapeRequest)))) 1 (startOfDay 1000)
       = Some q
    /\ (forall q0,
          Quota.findOne (quotas Scenarios.aliceWorld) 1 (startOfDay 1000) = Some q0 ->
          (Quota.generationsUsed q0 <= MAX_SAFE_INTEGER)%Z ->
          q = Quota.setUsed (Quota.generationsUsed q0 + 1) q0)
    /\ (ok = true ->
        TempId = RealId (Generation._id g)
        /\ Generation.docs
             (generations (snd (fst (imageToImage Scenarios.workingConfig
                                       Scenarios.aliceWorld Scenarios.landscapeRequest))))
           = (Generation.docs (generations Scenarios.aliceWorld) ++ [g])%list)
    /\ (ok = false ->
        TempId = TempId
        /\ generations (snd (fst (imageToImage Scenarios.workingConfig
                                    Scenarios.aliceWorld Scenarios.landscapeRequest)))
           = generations Scenarios.aliceWorld).
Proof.
  eapply (usage_is_saved_before_generation_is_written Scenarios.workingConfig
            Scenarios.aliceWorld Scenarios.landscapeRequest).
  vm_compute. reflexivity.
Defined.

(** The run of the request above, computed: the write of the generation
    fails (the preset's display name is not in the enum), and the quota
    record stored afterwards carries the usage 1. *)
Example failed_write_keeps_the_charge :
  let r := imageToImage Scenarios.workingConfig Scenarios.aliceWorld
             Scenarios.landscapeRequest in
  (exists g,
     snd r = [ProviderCalled "/srv/uploads/u.jpg" Scenarios.landscapePrompt;
              QuotaUsageSaved (Quota.mkQuota 0 1 0 1 5 1) true;
              GenerationWrite g false])
  /\ Generation.docs (generations (snd (fst r))) = []
  /\ Quota.docs (quotas (snd (fst r))) = [Quota.mkQuota 0 1 0 1 5 1].
Proof. vm_compute. split; [eexists; reflexivity | split; reflexivity]. Qed.

(** C3 as stated fails: in this completed request the usage is saved
    incremented (second effect) before the Generation write is attempted
    (third effect). *)
Lemma increment_precedes_generation_write :
  exists g,
    snd (imageToImage Scenarios.workingConfig Scenarios.aliceWorld
           Scenarios.sunsetRequest)
    = [ProviderCalled "/srv/uploads/u.jpg" Scenarios.sunsetPrompt;
       QuotaUsageSaved (Quota.mkQuota 0 1 0 1 5 1) true;
       GenerationWrite g true]
    /\ Generation.status g = Generation.completed.
Proof. eexists. vm_compute. split; reflexivity. Qed.

End Ordering.

(** ** Generation records: end time and terminal status *)

Module GenerationFacts.
Import Js Generation.

Lemma preSave_processing now d :
  status (fields d) = processing -> preSave now d = fields d.
Proof.
  intros H. unfold preSave. rewrite H. simpl. rewrite andb_false_r. reflexivity.
Qed.

Lemma preSave_terminal now d :
  statusModified d = true -> isTerminal (status (fields d)) = true ->
  endTimeMatchesStatus (preSave now d) = true.
Proof.
  intros Hm Ht. unfold preSave. rewrite Hm, Ht. simpl.
  unfold endTimeMatchesStatus. simpl. rewrite Ht. reflexivity.
Qed.

(** A new record built with an explicit terminal or processing status
    satisfies the invariant once saved. *)
Lemma saveNew_construct_invariant st now uid o g pu pr sz s r st' :
  saveNew st now (construct st now uid o g pu pr sz s) = (Ok r, st') ->
  endTimeMatchesStatus r = true.
Proof.
  unfold saveNew. destruct (validateNew _); [discriminate|].
  intros [= <- _]. destruct s; reflexivity.
Qed.

Lemma save_result st now d r st' :
  save st now d = (Ok r, st') -> r = preSave now d.
Proof.
  unfold save. destruct (validatePrompt _); [discriminate|].
  destruct (findById _ _); [|discriminate]. intros [= <- _]. reflexivity.
Qed.

Lemma markCompleted_invariant st now d u m r st' :
  markCompleted st now d u m = (Ok r, st') -> endTimeMatchesStatus r = true.
Proof.
  unfold markCompleted. intros H. apply save_result in H. subst r.
  unfold preSave.
  destruct m; simpl; destruct (statusModified d || _); reflexivity.
Qed.

Lemma markFailed_invariant st now d msg r st' :
  markFailed st now d msg = (Ok r, st') -> endTimeMatchesStatus r = true.
Proof.
  unfold markFailed. intros H. apply save_result in H. subst r.
  unfold preSave. simpl. destruct (statusModified d || _); reflexivity.
Qed.

(** After [save] the record found under (i, uid) is the saved one. *)
Lemma findOne_after_save st now d r st' i uid g0 :
  findOne st i uid = Some g0 ->
  _id (fields d) = i -> userId (fields d) = uid ->
  _id (preSave now d) = i -> userId (preSave now d) = uid ->
  save st now d = (Ok r, st') ->
  findOne st' i uid = Some r.
Proof.
  intros Hf Hi Hu Hi' Hu' Hs.
  pose proof (save_result _ _ _ _ _ Hs) as ->.
  unfold save in Hs. destruct (validatePrompt _); [discriminate|].
  destruct (findById _ _); [|discriminate]. injection Hs as <-.
  unfold findOne in *. simpl.
  set (g := preSave now d) in *.
  assert (Hg : ((_id g =? i)%nat && (userId g =? uid)%nat) = true)
    by (rewrite Hi', Hu', !Nat.eqb_refl; reflexivity).
  induction (docs st) as [|a l IH]; simpl in *; [discriminate|].
  destruct ((_id a =? i)%nat && (userId a =? uid)%nat) eqn:Ea.
  - apply andb_true_iff in Ea as [Ea _]. apply Nat.eqb_eq in Ea.
    rewrite Ea, Hi', Nat.eqb_refl, Hg. reflexivity.
  - destruct (_id a =? _id g)%nat; [rewrite Hg; reflexivity|].
    rewrite Ea. apply IH, Hf.
Qed.

End GenerationFacts.

(** ** The retry handler *)

Module RetryFacts.
Import Js Routes GenerationFacts.

(** A retry that is accepted leaves the record stored with status
    processing, no error message, no generated URL, and every other
    field, processingEndTime included, as it was. *)
Lemma retry_initiated_record env t w i uid j w' g :
  Generation.findOne (generations w) i uid = Some g ->
  retry env t w i uid = (RetryInitiated j, w') ->
  let g' := Generation.fields
              (Generation.withGeneratedImageUrl None
                 (Generation.withErrorMessage None
                    (Generation.withStatus Generation.processing
                       (Generation.load g)))) in
  Generation.findOne (generations w') i uid = Some g'
  /\ Generation.status g' = Generation.processing
  /\ Generation.processingEndTime g' = Generation.processingEndTime g
  /\ Generation.status g = Generation.failed.
Proof.
  intros Hg Hret g'. revert Hret. unfold retry. rewrite Hg.
  destruct (Generation.status g) eqn:Hs; simpl negb; cbv iota; try discriminate.
  destruct (Quota.canUserGenerate _ _ _ _ _) as [[[|] | e] qs]; try discriminate.
  - cbv zeta.
    destruct (Generation.save _ _ _) as [[r | e] gs] eqn:Hsave; [|discriminate].
    intros [= <- <-]. subst g'.
    pose proof (find_some _ _ Hg) as [_ Hk]. simpl in Hk.
    apply andb_true_iff in Hk as [Hi Hu].
    apply Nat.eqb_eq in Hi. apply Nat.eqb_eq in Hu.
    pose proof (save_result _ _ _ _ _ Hsave) as Hr.
    rewrite preSave_processing in Hr by reflexivity.
    split; [|repeat split].
    simpl generations.
    rewrite <- Hr.
    eapply findOne_after_save; [exact Hg | | | | | exact Hsave];
      try (rewrite preSave_processing by reflexivity); simpl; assumption.
  - destruct (Quota.getTodayQuota _ _ _ _ _) as [[q | e] qs']; discriminate.
Qed.

End RetryFacts.

Module Lifecycle.
Import Js Routes GenerationFacts RetryFacts.

Lemma retry_refused_keeps_generations env t w i uid resp w' :
  retry env t w i uid = (resp, w') ->
  (forall j, resp <> RetryInitiated j) ->
  generations w' = generations w.
Proof.
  unfold retry.
  destruct (Generation.findOne _ _ _) as [g|]; [|intros [= <- <-]; reflexivity].
  destruct (negb _); [intros [= <- <-]; reflexivity|].
  destruct (Quota.canUserGenerate _ _ _ _ _) as [[[|] | e] qs].
  - cbv zeta. unfold Generation.save.
    destruct (Generation.validatePrompt _); [intros [= <- <-]; reflexivity|].
    destruct (Generation.findById _ _); [|intros [= <- <-]; reflexivity].
    intros [= <- <-] H. exfalso. eapply H. reflexivity.
  - destruct (Quota.getTodayQuota _ _ _ _ _) as [[q | e] qs'];
      intros [= <- <-]; reflexivity.
  - intros [= <- <-]. reflexivity.
Qed.

(** C7 (as the code has it).  A request to /image-to-image writes at most
    one Generation record and writes it with the terminal status
    completed.  A retry that is accepted stores the record with status
    processing and returns; a retry that is not accepted leaves the
    generations as they were. *)
Theorem request_writes_completed_retry_leaves_processing :
  (forall cfg w req resp w' ev,
      imageToImage cfg w req = (resp, w', ev) ->
      generations w' = generations w
      \/ exists g,
           Generation.docs (generations w')
           = (Generation.docs (generations w) ++ [g])%list
           /\ Generation.status g = Generation.completed
           /\ Generation.isTerminal (Generation.status g) = true)
  /\ (forall env t w i uid j w' g,
      Generation.findOne (generations w) i uid = Some g ->
      retry env t w i uid = (RetryInitiated j, w') ->
      exists g',
        Generation.findOne (generations w') i uid = Some g'
        /\ Generation.status g' = Generation.processing
        /\ Generation.isTerminal (Generation.status g') = false)
  /\ (forall env t w i uid resp w',
      retry env t w i uid = (resp, w') ->
      (forall j, resp <> RetryInitiated j) ->
      generations w' = generations w).
Proof.
  split; [|split].
  - intros cfg w req resp w' ev H. apply Ordering.imageToImage_shape in H.
    destruct H as [(_ & Hg & _) | (pre & q & g & ok & _ & _ & _ & _ & Hst & Hd)].
    + left. exact Hg.
    + destruct Hd as [(_ & Hd) | (_ & Hd)]; [right | left; exact Hd].
      exists g. rewrite Hst. auto.
  - intros env t w i uid j w' g Hg Hr.
    destruct (retry_initiated_record env t w i uid j w' g Hg Hr) as (Hf & Hs & _).
    eexists. split; [exact Hf|]. split; reflexivity.
  - intros env t w i uid resp w'. apply retry_refused_keeps_generations.
Qed.

Lemma request_writes_completed_retry_leaves_processing_witness :
  (generations (snd (fst (imageToImage Scenarios.workingConfig Scenarios.aliceWorld
                            Scenarios.sunsetRequest)))
   = generations Scenarios.aliceWorld
   \/ exists g,
        Generation.docs
          (generations (snd (fst (imageToImage Scenarios.workingConfig
                                    Scenarios.aliceWorld Scenarios.sunsetRequest))))
        = (Generation.docs (generations Scenarios.aliceWorld) ++ [g])%list
        /\ Generation.status g = Generation.completed
        /\ Generation.isTerminal (Generation.status g) = true)
  /\ (exists g',
        Generation.findOne
          (generations (snd (retry Quota.defaultEnv 1000 Scenarios.bobWorld 0 2))) 0 2
        = Some g'
        /\ Generation.status g' = Generation.processing
        /\ Generation.isTerminal (Generation.status g') = false).
Proof.
  destruct request_writes_completed_retry_leaves_processing as (H1 & H2 & _).
  split.
  - eapply (H1 Scenarios.workingConfig Scenarios.aliceWorld Scenarios.sunsetRequest).
    vm_compute. reflexivity.
  - eapply (H2 Quota.defaultEnv 1000%Z Scenarios.bobWorld 0%nat 2%nat).
    + vm_compute. reflexivity.
    + vm_compute. reflexivity.
Defined.

(** C7 as stated fails: Bob's retry of his failed generation is accepted
    and the handler returns with the record in processing. *)
Lemma retry_returns_with_record_in_processing :
  let r := retry Quota.defaultEnv 1000 Scenarios.bobWorld 0 2 in
  map Generation.status (Generation.docs (generations Scenarios.bobWorld))
  = [Generation.failed]
  /\ fst r = RetryInitiated 0
  /\ map Generation.status (Generation.docs (generations (snd r)))
     = [Generation.processing].
Proof. vm_compute. repeat split. Qed.

(** Every accepted retry of a failed record that has its end time set
    stores a record that is in processing and still has that end time. *)
Lemma retry_keeps_end_time env t w i uid j w' g :
  Generation.findOne (generations w) i uid = Some g ->
  Generation.endTimeMatchesStatus g = true ->
  retry env t w i uid = (RetryInitiated j, w') ->
  exists g',
    Generation.findOne (generations w') i uid = Some g'
    /\ Generation.status g' = Generation.processing
    /\ Generation.processingEndTime g' = Generation.processingEndTime g
    /\ Generation.endTimeMatchesStatus g' = false.
Proof.
  intros Hg Hinv Hr.
  destruct (retry_initiated_record env t w i uid j w' g Hg Hr) as (Hf & Hs & He & Hfail).
  eexists. split; [exact Hf|]. split; [exact Hs|]. split; [exact He|].
  unfold Generation.endTimeMatchesStatus in *. rewrite Hs, He.
  rewrite Hfail in Hinv. simpl in *.
  destruct (Generation.processingEndTime g); [reflexivity | discriminate].
Qed.

(** C6, at the input where the code departs from it.  Bob's failed
    generation has its end time set (the invariant holds); POST
    /retry/0 is accepted and stores the record with status processing
    and processingEndTime still 900: the invariant no longer holds. *)
Theorem retry_reset_breaks_end_time_invariant :
  let r := retry Quota.defaultEnv 1000 Scenarios.bobWorld 0 2 in
  map Generation.endTimeMatchesStatus
    (Generation.docs (generations Scenarios.bobWorld)) = [true]
  /\ fst r = RetryInitiated 0
  /\ map (fun g => (Generation.status g, Generation.processingEndTime g))
       (Generation.docs (generations (snd r)))
     = [(Generation.processing, Some 900%Z)]
  /\ map Generation.endTimeMatchesStatus (Generation.docs (generations (snd r)))
     = [false].
Proof. vm_compute. repeat split. Qed.

End Lifecycle.

(** ** Racing increments *)

Module Race.
Import Js Quota QuotaFacts Interleaving.

(** One call of [incrementUsage] on a stored record. *)
Lemma incrementUsage_found env today st uid tr q :
  findOne st uid today = Some q ->
  (1 <= tierLimit env (tierArg tr))%Z ->
  (0 <= generationsUsed q)%Z ->
  let l := tierLimit env (tierArg tr) in
  exists r st' q',
    incrementUsage env today st uid tr = (r, st')
    /\ findOne st' uid today = Some q'
    /\ generationsLimit q' = l
    /\ ((l <= generationsUsed q)%Z /\ isOk r = false
        /\ generationsUsed q' = generationsUsed q
        \/ (generationsUsed q < l)%Z /\ isOk r = true
           /\ generationsUsed q' = (generationsUsed q + 1)%Z).
Proof.
  intros Hf Hl H0 l.
  destruct (getTodayQuota_found env today st uid tr q Hf Hl) as (st1 & G & F & _).
  unfold incrementUsage. rewrite G. fold l in F |- *. simpl.
  destruct (l <=? generationsUsed q)%Z eqn:E.
  - apply Z.leb_le in E. eexists. eexists. eexists.
    split; [reflexivity|]. split; [exact F|]. split; [reflexivity|]. left. auto.
  - apply Z.leb_gt in E.
    destruct (saveUsed_found st1 uid today (setLimit l q) (generationsUsed q + 1) F)
      as (st2 & S & F2 & _); [simpl; lia|].
    simpl in S. unfold setUsed at 1. simpl. unfold setUsed in S at 1. simpl in S.
    rewrite S. eexists. eexists. eexists.
    split; [reflexivity|]. split; [exact F2|]. split; [reflexivity|]. right. auto.
Qed.

(** Calls that do not overlap respect the limit: starting from a stored
    record with 0 <= used <= limit, the successes and the usage at the
    start add up to at most the limit, and the stored usage stays within
    it. *)
Lemma sequential_calls_respect_limit env today uid tr n :
  (1 <= tierLimit env (tierArg tr))%Z ->
  forall st q,
    findOne st uid today = Some q ->
    (0 <= generationsUsed q <= tierLimit env (tierArg tr))%Z ->
    exists q',
      findOne (snd (runSequential env today uid tr n st)) uid today = Some q'
      /\ (generationsUsed q' <= tierLimit env (tierArg tr))%Z
      /\ (Z.of_nat (List.length (filter isOk (fst (runSequential env today uid tr n st))))
          + generationsUsed q <= tierLimit env (tierArg tr))%Z.
Proof.
  intros Hl. induction n as [|n IH]; intros st q Hf Hr.
  - simpl. exists q. split; [exact Hf|]. lia.
  - simpl.
    destruct (incrementUsage_found env today st uid tr q Hf Hl) as
      (r & st' & q' & Hi & Hf' & Hlim & Hcase); [lia|].
    rewrite Hi.
    destruct (runSequential env today uid tr n st') as [rs st''] eqn:Hrun.
    assert (Hr' : (0 <= generationsUsed q' <= tierLimit env (tierArg tr))%Z)
      by (destruct Hcase as [(? & ? & ->) | (? & ? & ->)]; lia).
    destruct (IH st' q' Hf' Hr') as (q'' & Hf'' & Hu'' & Hc'').
    rewrite Hrun in Hf'', Hc''. cbn [fst snd] in *.
    exists q''. split; [exact Hf''|]. split; [exact Hu''|].
    cbn [filter].
    destruct Hcase as [(? & Hk & Hu) | (? & Hk & Hu)]; rewrite Hk; rewrite Hu in Hc''.
    + exact Hc''.
    + cbn [List.length]. rewrite Nat2Z.inj_succ. lia.
Qed.

(** A call that runs alone through its (at most three) awaits is
    [Quota.incrementUsage]. *)
Lemma run_alone_is_incrementUsage env today uid tr st :
  run env today uid tr [0; 0; 0]%nat st [AtFind]
  = (snd (incrementUsage env today st uid tr),
     [Done (fst (incrementUsage env today st uid tr))]).
Proof.
  unfold incrementUsage, getTodayQuota. cbn [run nth_error step].
  destruct (findOne st uid today) as [q|] eqn:E.
  - destruct (negb (generationsLimit q =? tierLimit env (tierArg tr))%Z).
    + cbn [setNth nth_error step].
      destruct (saveLimit st _) as [[q' | e] st']; cbn [setNth nth_error step];
        [|reflexivity].
      unfold afterGet.
      destruct (generationsLimit q' <=? generationsUsed q')%Z;
        cbn [setNth nth_error step]; [reflexivity|].
      destruct (saveUsed st' _) as [[q'' | e] st'']; reflexivity.
    + unfold afterGet.
      destruct (generationsLimit q <=? generationsUsed q)%Z;
        cbn [setNth nth_error step]; [reflexivity|].
      destruct (saveUsed st _) as [[q'' | e] st'']; reflexivity.
  - cbn [setNth nth_error step].
    destruct (create st uid today 0 _) as [[q' | e] st']; cbn [setNth nth_error step];
      [|reflexivity].
    unfold afterGet.
    destruct (generationsLimit q' <=? generationsUsed q')%Z;
      cbn [setNth nth_error step]; [reflexivity|].
    destruct (saveUsed st' _) as [[q'' | e] st'']; reflexivity.
Qed.

(** C4, at the input where the code departs from it.  Alice's record of
    the day has generationsUsed = 0 and generationsLimit = 5.  Six
    incrementUsage calls each reach their findOne before any of them
    saves: all six finish without error, more than the limit, and the
    stored generationsUsed is 1.  The same six calls one after another
    give five successes and one rejection. *)
Theorem six_racing_calls_all_succeed :
  let r := run defaultEnv 0 1 None Scenarios.readsThenWrites
             Scenarios.aliceStore Scenarios.sixCalls in
  map generationsLimit (docs Scenarios.aliceStore) = [5%Z]
  /\ map generationsUsed (docs Scenarios.aliceStore) = [0%Z]
  /\ tierLimit defaultEnv (tierArg None) = 5%Z
  /\ forallb finished (snd r) = true
  /\ successes (snd r) = 6%nat
  /\ map generationsUsed (docs (fst r)) = [1%Z]
  /\ map isOk (fst (runSequential defaultEnv 0 1 None 6 Scenarios.aliceStore))
     = [true; true; true; true; true; false].
Proof. vm_compute. repeat split. Qed.

End Race.

(** ** More on the quota ledger *)

Module QuotaExtras.
Import Js Quota QuotaFacts Interleaving.

(** A successful [getTodayQuota] returns the record it leaves stored for
    (uid, today), and that record carries the limit of the tier passed. *)
Lemma getTodayQuota_ok_inv env today st uid tr q st' :
  getTodayQuota env today st uid tr = (Ok q, st') ->
  findOne st' uid today = Some q
  /\ generationsLimit q = tierLimit env (tierArg tr).
Proof.
  unfold getTodayQuota.
  destruct (findOne st uid today) as [q0|] eqn:E.
  - destruct (generationsLimit q0 =? tierLimit env (tierArg tr))%Z eqn:El; simpl.
    + intros [= <- <-]. apply Z.eqb_eq in El. auto.
    + unfold saveLimit.
      destruct (validate 0 _); [discriminate|].
      destruct (findById st _); [|discriminate].
      intros [= <- <-]. split; [|reflexivity].
      unfold findOne. simpl.
      apply (find_updateById_hit uid today (setLimit (tierLimit env (tierArg tr))));
        [intros; apply sameKey_setLimit | exact E].
  - unfold create. destruct (validate 0 _); [discriminate|]. rewrite E.
    intros [= <- <-]. split; [|reflexivity].
    unfold findOne in *. simpl. rewrite find_snoc by assumption.
    unfold sameKey. simpl. rewrite Nat.eqb_refl, Z.eqb_refl. reflexivity.
Qed.

(** Once answered, the same question finds the record as it left it. *)
Lemma getTodayQuota_repeat env today st uid tr q st' :
  getTodayQuota env today st uid tr = (Ok q, st') ->
  getTodayQuota env today st' uid tr = (Ok q, st').
Proof.
  intros H. apply getTodayQuota_ok_inv in H as [Hf Hl].
  unfold getTodayQuota. rewrite Hf, Hl, Z.eqb_refl. reflexivity.
Qed.

(** X1.  Asking again on the same day with the same tier changes
    nothing: the second [getTodayQuota] returns the same record and
    leaves the collection exactly as the first left it. *)
Theorem getTodayQuota_again_is_noop :
  forall env today st uid tr q st',
    getTodayQuota env today st uid tr = (Ok q, st') ->
    getTodayQuota env today st' uid tr = (Ok q, st').
Proof.
  intros env today st uid tr q st' H.
  apply getTodayQuota_ok_inv in H as [Hfound Hlimit].
  unfold getTodayQuota. rewrite Hfound, Hlimit, Z.eqb_refl. reflexivity.
Qed.

Lemma getTodayQuota_again_is_noop_witness :
  getTodayQuota defaultEnv 0
    (mkStore [mkQuota 0 1 0 0 50 1] 1) 1 (Some paid)
  = (Ok (mkQuota 0 1 0 0 50 1), mkStore [mkQuota 0 1 0 0 50 1] 1).
Proof.
  apply (getTodayQuota_again_is_noop defaultEnv 0 Scenarios.aliceStore 1 (Some paid)).
  reflexivity.
Defined.

(** X2.  [canUserGenerate] tells what the next [incrementUsage] of the
    same tier does, provided the stored usage is an integer from 0 to
    MAX_SAFE_INTEGER (where [+= 1] is exact): after [true] the increment
    succeeds and stores usage + 1; after [false] it throws 'Daily
    generation limit exceeded' and writes nothing. *)
Theorem canUserGenerate_predicts_incrementUsage :
  forall env today st uid tr b st1,
    canUserGenerate env today st uid tr = (Ok b, st1) ->
    (forall q, findOne st1 uid today = Some q ->
       (0 <= generationsUsed q <= MAX_SAFE_INTEGER)%Z) ->
    exists q, findOne st1 uid today = Some q
      /\ (b = true ->
          exists st2,
            incrementUsage env today st1 uid tr
            = (Ok (setUsed (generationsUsed q + 1) q), st2)
            /\ findOne st2 uid today = Some (setUsed (generationsUsed q + 1) q))
      /\ (b = false ->
          incrementUsage env today st1 uid tr
          = (Throw (PlainError "Daily generation limit exceeded"), st1)).
Proof.
  intros env today st uid tr b st1 H Hpos.
  unfold canUserGenerate in H.
  destruct (getTodayQuota env today st uid tr) as [[q | e] st'] eqn:G; [|discriminate].
  injection H as <- <-.
  pose proof (getTodayQuota_repeat _ _ _ _ _ _ _ G) as G2.
  apply getTodayQuota_ok_inv in G as [Hf Hl].
  exists q. split; [exact Hf|]. unfold incrementUsage. rewrite G2. split.
  - intros Hb. apply Z.ltb_lt in Hb.
    destruct (generationsLimit q <=? generationsUsed q)%Z eqn:E;
      [apply Z.leb_le in E; lia|].
    destruct (saveUsed_found st' uid today q (generationsUsed q + 1) Hf)
      as (st2 & S & F & _); [specialize (Hpos q Hf); lia|].
    exists st2. auto.
  - intros Hb. apply Z.ltb_ge in Hb. apply Z.leb_le in Hb. rewrite Hb. reflexivity.
Qed.

Lemma canUserGenerate_predicts_incrementUsage_witness :
  exists q, findOne Scenarios.aliceStore 1 0 = Some q
    /\ (true = true ->
        exists st2,
          incrementUsage defaultEnv 0 Scenarios.aliceStore 1 None
          = (Ok (setUsed (generationsUsed q + 1) q), st2)
          /\ findOne st2 1 0 = Some (setUsed (generationsUsed q + 1) q))
    /\ (true = false ->
        incrementUsage defaultEnv 0 Scenarios.aliceStore 1 None
        = (Throw (PlainError "Daily generation limit exceeded"), Scenarios.aliceStore)).
Proof.
  apply (canUserGenerate_predicts_incrementUsage defaultEnv 0 Scenarios.aliceStore 1 None).
  - reflexivity.
  - intros q [= <-]. vm_compute. split; discriminate.
Defined.

(** X3.  Calls of [incrementUsage] that do not overlap are accounted
    exactly, for a limit of at most MAX_SAFE_INTEGER (so that every
    [+= 1] is exact): from a stored record with 0 <= used <= limit, of [n]
    calls the first min(n, limit - used) succeed and all later ones are
    rejected, and the stored usage ends at used + min(n, limit - used). *)
Theorem sequential_calls_exact :
  forall env today uid tr n st q,
    (1 <= tierLimit env (tierArg tr) <= MAX_SAFE_INTEGER)%Z ->
    findOne st uid today = Some q ->
    (0 <= generationsUsed q <= tierLimit env (tierArg tr))%Z ->
    let k := Nat.min n (Z.to_nat (tierLimit env (tierArg tr) - generationsUsed q)) in
    map isOk (fst (runSequential env today uid tr n st))
    = (repeat true k ++ repeat false (n - k))%list
    /\ exists q',
         findOne (snd (runSequential env today uid tr n st)) uid today = Some q'
         /\ generationsUsed q' = (generationsUsed q + Z.of_nat k)%Z.
Proof.
  intros env today uid tr n st q [Hl _]. revert st q.
  induction n as [|n IH]; intros st q Hf Hr k.
  - subst k. simpl. split; [reflexivity|]. exists q. split; [exact Hf | lia].
  - destruct (Race.incrementUsage_found env today st uid tr q Hf Hl) as
      (r & st' & q' & Hi & Hf' & Hlim & Hcase); [lia|].
    cbn [runSequential]. rewrite Hi.
    destruct (runSequential env today uid tr n st') as [rs st''] eqn:Hrun.
    assert (Hr' : (0 <= generationsUsed q' <= tierLimit env (tierArg tr))%Z)
      by (destruct Hcase as [(? & ? & ->) | (? & ? & ->)]; lia).
    destruct (IH st' q' Hf' Hr') as (Hmap & q'' & Hf'' & Hu'').
    rewrite Hrun in Hmap, Hf''. cbn [fst snd] in *.
    destruct Hcase as [(Hge & Hk & Hu) | (Hlt & Hk & Hu)].
    + assert (Hz : Z.to_nat (tierLimit env (tierArg tr) - generationsUsed q) = 0%nat)
        by lia.
      assert (Hz' : Z.to_nat (tierLimit env (tierArg tr) - generationsUsed q') = 0%nat)
        by lia.
      subst k. rewrite Hz. rewrite Hz' in Hmap, Hu''.
      rewrite Nat.min_0_r in *. cbn [map]. rewrite Hk, Hmap.
      rewrite Nat.sub_0_r. simpl. split; [reflexivity|].
      exists q''. split; [exact Hf''|]. lia.
    + assert (Hz : Z.to_nat (tierLimit env (tierArg tr) - generationsUsed q)
                   = S (Z.to_nat (tierLimit env (tierArg tr) - generationsUsed q')))
        by lia.
      subst k. rewrite Hz. cbn [Nat.min map]. rewrite Hk, Hmap.
      split; [reflexivity|].
      exists q''. split; [exact Hf''|]. lia.
Qed.

Lemma sequential_calls_exact_witness :
  map isOk (fst (runSequential defaultEnv 0 1 None 7 Scenarios.aliceStore))
  = (repeat true (Nat.min 7 (Z.to_nat (5 - 0))) ++
     repeat false (7 - Nat.min 7 (Z.to_nat (5 - 0))))%list
  /\ exists q',
       findOne (snd (runSequential defaultEnv 0 1 None 7 Scenarios.aliceStore)) 1 0
       = Some q'
       /\ generationsUsed q'
          = (0 + Z.of_nat (Nat.min 7 (Z.to_nat (5 - 0))))%Z.
Proof.
  apply (sequential_calls_exact defaultEnv 0 1 None 7 Scenarios.aliceStore
           (mkQuota 0 1 0 0 5 1)).
  - vm_compute. split; discriminate.
  - reflexivity.
  - simpl. lia.
Defined.

End QuotaExtras.

(** ** Cleanup and reset of quota records *)

Module MaintenanceFacts.
Import Js Quota QuotaFacts QuotaMaintenance.

Lemma find_filter_keep {A : Type} (p f : A -> bool) (l : list A) (x : A) :
  find p l = Some x -> f x = true -> find p (filter f l) = Some x.
Proof.
  induction l as [|a l IH]; simpl; intros H Hx; [discriminate|].
  destruct (p a) eqn:Pa.
  - injection H as ->. rewrite Hx. simpl. rewrite Pa. reflexivity.
  - destruct (f a); simpl; [rewrite Pa|]; auto.
Qed.

Lemma filter_split_length {A : Type} (f : A -> bool) (l : list A) :
  (List.length (filter f l) + List.length (filter (fun x => negb (f x)) l)
   = List.length l)%nat.
Proof.
  induction l as [|a l IH]; simpl; [reflexivity|].
  destruct (f a); simpl; lia.
Qed.

Lemma start_of_next_day_is_later now :
  (now < (Routes.startOfDay now + 1) * Routes.msPerDay)%Z.
Proof.
  unfold Routes.startOfDay, Routes.msPerDay.
  pose proof (Z.mul_succ_div_gt now 86400000 ltac:(lia)). lia.
Qed.

(** X4.  The cleanup job never removes today's record: a record found for
    (uid, today) whose [resetAt] is not before the day after its date
    (the schema default is exactly that day) is found again, unchanged,
    after [resetExpiredQuotas]; the count returned plus the records left
    is the number there was, and no record left is expired. *)
Theorem resetExpiredQuotas_keeps_today :
  forall now st uid q,
    findOne st uid (Routes.startOfDay now) = Some q ->
    (date q + 1 <= resetAt q)%Z ->
    findOne (snd (resetExpiredQuotas now st)) uid (Routes.startOfDay now) = Some q
    /\ (fst (resetExpiredQuotas now st)
        + List.length (docs (snd (resetExpiredQuotas now st)))
        = List.length (docs st))%nat
    /\ (forall q', In q' (docs (snd (resetExpiredQuotas now st))) ->
          expired now q' = false /\ In q' (docs st)).
Proof.
  intros now st uid q Hf Hr. unfold resetExpiredQuotas. cbn [fst snd docs].
  split; [|split].
  - unfold findOne in *. cbn [docs]. apply find_filter_keep; [exact Hf|].
    destruct (findOne_In st uid _ q Hf) as (_ & _ & Hd).
    unfold expired. apply negb_true_iff. apply Z.ltb_ge.
    pose proof (start_of_next_day_is_later now) as Hlt.
    unfold Routes.msPerDay in *. nia.
  - apply filter_split_length.
  - intros q' Hin. apply filter_In in Hin as [Hin Hn].
    apply negb_true_iff in Hn. auto.
Qed.

Lemma resetExpiredQuotas_keeps_today_witness :
  let st := mkStore [mkQuota 0 1 0 2 5 1; mkQuota 1 1 1 3 5 2] 2 in
  findOne (snd (resetExpiredQuotas 86400500 st)) 1 (Routes.startOfDay 86400500)
  = Some (mkQuota 1 1 1 3 5 2)
  /\ (fst (resetExpiredQuotas 86400500 st)
      + List.length (docs (snd (resetExpiredQuotas 86400500 st)))
      = List.length (docs st))%nat
  /\ (forall q', In q' (docs (snd (resetExpiredQuotas 86400500 st))) ->
        expired 86400500 q' = false /\ In q' (docs st)).
Proof.
  intros st.
  apply (resetExpiredQuotas_keeps_today 86400500 st 1 (mkQuota 1 1 1 3 5 2)).
  - reflexivity.
  - simpl. lia.
Defined.

(** X5.  [reset] on a stored record gives the whole allowance back: the
    record is stored with generationsUsed = 0, so it is not exceeded and
    generationsRemaining is its limit (for a limit of at least 1), and
    its new resetAt is not yet expired at the time of the reset. *)
Theorem reset_restores_allowance :
  forall now st uid day q,
    findOne st uid day = Some q ->
    (1 <= generationsLimit q)%Z ->
    exists q' st',
      reset now st q = (Ok q', st')
      /\ findOne st' uid day = Some q'
      /\ generationsUsed q' = 0%Z
      /\ generationsLimit q' = generationsLimit q
      /\ generationsRemaining q' = generationsLimit q
      /\ isExceeded q' = false
      /\ expired now q' = false.
Proof.
  intros now st uid day q Hf Hl. unfold reset.
  destruct (findOne_In _ _ _ _ Hf) as (Hin & _ & _).
  destruct (findById_present _ _ Hin) as (q0 & ->).
  eexists. eexists. split; [reflexivity|].
  split; [|split; [|split; [|split; [|split]]]].
  - unfold findOne. cbn [docs].
    apply (find_updateById_hit uid day (cleared (Routes.startOfDay now + 1)));
      [intros; reflexivity | exact Hf].
  - reflexivity.
  - reflexivity.
  - unfold generationsRemaining. simpl. lia.
  - unfold isExceeded. simpl. apply Z.leb_gt. lia.
  - unfold expired. simpl. apply Z.ltb_ge.
    pose proof (start_of_next_day_is_later now). lia.
Qed.

Lemma reset_restores_allowance_witness :
  exists q' st',
    reset 1000 (Routes.quotas Scenarios.exhaustedWorld) (mkQuota 0 1 0 5 5 1)
    = (Ok q', st')
    /\ findOne st' 1 0 = Some q'
    /\ generationsUsed q' = 0%Z
    /\ generationsLimit q' = 5%Z
    /\ generationsRemaining q' = 5%Z
    /\ isExceeded q' = false
    /\ expired 1000 q' = false.
Proof.
  apply (reset_restores_allowance 1000 (Routes.quotas Scenarios.exhaustedWorld) 1 0
           (mkQuota 0 1 0 5 5 1)).
  - reflexivity.
  - simpl. lia.
Defined.

End MaintenanceFacts.

(** ** More on generation records *)

Module GenerationExtras.
Import Js Generation GenerationFacts GenerationViews.

(** X6.  The three ways the model code itself writes a terminal or fresh
    record keep "processingEndTime is set iff the status is terminal":
    the save of a newly built record whatever its status, markCompleted
    and markFailed on any loaded record. *)
Theorem model_saves_keep_end_time_invariant :
  (forall st now uid o g pu pr sz s r st',
      saveNew st now (construct st now uid o g pu pr sz s) = (Ok r, st') ->
      endTimeMatchesStatus r = true)
  /\ (forall st now d u m r st',
      markCompleted st now d u m = (Ok r, st') ->
      endTimeMatchesStatus r = true /\ status r = completed)
  /\ (forall st now d msg r st',
      markFailed st now d msg = (Ok r, st') ->
      endTimeMatchesStatus r = true /\ status r = failed).
Proof.
  split; [|split].
  - intros. eapply saveNew_construct_invariant; eauto.
  - intros st now d u m r st' H. split; [eapply markCompleted_invariant; eauto|].
    unfold markCompleted in H. apply save_result in H. subst r.
    unfold preSave. destruct m; simpl; destruct (statusModified d || _); reflexivity.
  - intros st now d msg r st' H. split; [eapply markFailed_invariant; eauto|].
    unfold markFailed in H. apply save_result in H. subst r.
    unfold preSave. simpl. destruct (statusModified d || _); reflexivity.
Qed.

Lemma model_saves_keep_end_time_invariant_witness :
  endTimeMatchesStatus
    (preSave 9 (construct emptyStore 9 1 "a" "b" "custom" "p" "1024x1024" completed))
  = true.
Proof.
  destruct model_saves_keep_end_time_invariant as (H & _ & _).
  eapply (H emptyStore 9%Z 1%nat "a" "b" "custom" "p" "1024x1024" completed).
  reflexivity.
Defined.

(** X7.  [markCompleted] at [now] on a record that is in processing,
    started at [s] and without a recorded processing time stores the
    elapsed time: processingEndTime = now, metadata.processingTime =
    now - s, which is also what the processingDuration virtual gives, and
    the generated URL is the one passed. *)
Theorem markCompleted_records_duration :
  forall st now d u r st' s,
    status (fields d) = processing ->
    processingStartTime (fields d) = Some s ->
    truthyTime (processingTime (fields d)) = false ->
    markCompleted st now d u None = (Ok r, st') ->
    status r = completed
    /\ generatedImageUrl r = Some u
    /\ processingEndTime r = Some now
    /\ processingTime r = Some (now - s)%Z
    /\ processingDuration r = Some (now - s)%Z.
Proof.
  intros st now d u r st' s Hs Hstart Hpt H.
  unfold markCompleted in H. apply save_result in H. subst r.
  unfold preSave, processingDuration. simpl. rewrite Hs. simpl.
  rewrite orb_true_r. simpl. rewrite Hstart, Hpt. auto.
Qed.

Lemma markCompleted_records_duration_witness :
  exists r st',
    markCompleted
      (mkStore [mkGeneration 0 1 (Some "in") None "p" "custom" "1024x1024"
                  processing None (Some 100%Z) None None] 1)
      700
      (load (mkGeneration 0 1 (Some "in") None "p" "custom" "1024x1024"
               processing None (Some 100%Z) None None))
      "out" None = (Ok r, st')
    /\ status r = completed
    /\ generatedImageUrl r = Some "out"
    /\ processingEndTime r = Some 700%Z
    /\ processingTime r = Some (700 - 100)%Z
    /\ processingDuration r = Some (700 - 100)%Z.
Proof.
  eexists. eexists. split; [reflexivity|].
  eapply (markCompleted_records_duration
            (mkStore [mkGeneration 0 1 (Some "in") None "p" "custom" "1024x1024"
                        processing None (Some 100%Z) None None] 1)
            700%Z
            (load (mkGeneration 0 1 (Some "in") None "p" "custom" "1024x1024"
                     processing None (Some 100%Z) None None))
            "out" _ _ 100%Z); reflexivity.
Defined.



End GenerationExtras.

(** ** More on the handlers: what a success response means *)

Module ResponseFacts.
Import Js JsString Routes ImageToImageFacts.

Lemma saveUsed_ok_inv st q r st' :
  Quota.saveUsed st q = (Ok r, st') ->
  r = q
  /\ Quota.docs st'
     = Quota.updateById (Quota._id q) (Quota.setUsed (Quota.generationsUsed q))
         (Quota.docs st).
Proof.
  unfold Quota.saveUsed. destruct (Quota.validate _ 1); [discriminate|].
  destruct (Quota.findById st _); [|discriminate].
  intros [= <- <-]. auto.
Qed.

Lemma setUsed_idem v q : Quota.setUsed v (Quota.setUsed v q) = Quota.setUsed v q.
Proof. reflexivity. Qed.

(** Where a success response comes from. *)
Lemma imageToImage_generated_inv cfg w req e r i o f u l m w' ev :
  imageToImage cfg w req = (Generated e r i o f u l m, w', ev) ->
  exists user quota,
    find (fun x => (u_id x =? userId req)%nat) (users w) = Some user
    /\ (Quota.generationsUsed quota < Quota.generationsLimit quota)%Z
    /\ u = (Quota.generationsUsed quota + 1)%Z
    /\ l = Quota.generationsLimit quota
    /\ m = Z.max 0 (l - u)
    /\ Quota.findOne (quotas w') (u_id user) (startOfDay (now cfg))
       = Some (Quota.setUsed u quota)
    /\ (forall q0, Quota.findOne (quotas w) (u_id user) (startOfDay (now cfg)) = Some q0 ->
          quota = q0).
Proof.
  unfold imageToImage.
  destruct (prompt req) as [p|]; [|discriminate].
  destruct (promptMissing (Some p)); [discriminate|].
  destruct (file req) as [fl|]; [|discriminate].
  destruct (1000 <? String.length p)%nat; [discriminate|].
  destruct (find _ (users w)) as [user|] eqn:Hu; [|discriminate].
  destruct (findOrCreateQuota_total (startOfDay (now cfg)) (quotas w) user)
    as (quota & qs & ev1 & -> & Hfind & _ & _ & Hsame).
  destruct (Quota.generationsLimit quota <=? Quota.generationsUsed quota)%Z eqn:Hle;
    [discriminate|].
  apply Z.leb_gt in Hle. cbv zeta.
  destruct (obtainImage cfg fl _ _) as [[resp | imageUrl] ev2] eqn:Hob.
  - intros [= -> <- <-]. apply Ordering.obtainImage_events in Hob as [_ Hfail].
    destruct (Hfail _ eq_refl) as (c & msg & Hc). discriminate.
  - unfold commit. cbv zeta.
    destruct (Quota.saveUsed _ _) as [[q | err] qs2] eqn:Hsave.
    + apply saveUsed_ok_inv in Hsave as [_ Hdocs]. cbn [quotas withQuotas] in Hdocs.
      assert (Hstored :
        Quota.findOne qs2 (u_id user) (startOfDay (now cfg))
        = Some (Quota.setUsed (Quota.generationsUsed quota + 1) quota)).
      { unfold Quota.findOne in *. rewrite Hdocs. cbn [Quota._id Quota.setUsed].
        apply (QuotaFacts.find_updateById_hit (u_id user) (startOfDay (now cfg))
                 (Quota.setUsed (Quota.generationsUsed quota + 1)));
          [intros; reflexivity | exact Hfind]. }
      destruct (Generation.saveNew _ _ _) as [[g | err] gs];
        intros [= <- <- <- <- <- <- <- <- <- <-];
        exists user, quota; repeat split; auto;
        intros q0 Hq0; destruct (Hsame q0 Hq0); auto.
    + intros [= Hr _ _]. destruct (routeError_is_Fail err) as (c & msg & Hc).
      rewrite Hc in Hr. discriminate.
Qed.

(** The numbers of a success response against the stored record. *)
Lemma generated_quota_stored cfg w req e r i o f u l m w' ev :
  imageToImage cfg w req = (Generated e r i o f u l m, w', ev) ->
  (u <= l)%Z
  /\ m = (l - u)%Z
  /\ exists q,
       Quota.findOne (quotas w') (userId req) (startOfDay (now cfg)) = Some q
       /\ Quota.generationsUsed q = u
       /\ Quota.generationsLimit q = l.
Proof.
  intros H.
  apply imageToImage_generated_inv in H
    as (user & quota & Hu & Hlt & -> & -> & -> & Hfind & _).
  apply find_some in Hu as [_ Hid]. apply Nat.eqb_eq in Hid. rewrite Hid in Hfind.
  split; [lia|]. split; [lia|].
  eexists. split; [exact Hfind|]. split; reflexivity.
Qed.



(** X10.  What the generation response reported is what GET /quota then
    reports on the same day: the same generationsUsed (the limit shown is
    the free limit of the environment, the call being tier-less). *)
Theorem getQuota_after_success_reports_same_usage :
  forall cfg w req e r i o f u l m w' ev env t,
    imageToImage cfg w req = (Generated e r i o f u l m, w', ev) ->
    (1 <= Quota.tierLimit env Quota.free)%Z ->
    startOfDay t = startOfDay (now cfg) ->
    exists resetAt date w'',
      getQuota env t w' (userId req)
      = (QuotaInfo u (Quota.tierLimit env Quota.free)
           (Z.max 0 (Quota.tierLimit env Quota.free - u)) resetAt date, w'').
Proof.
  intros cfg w req e r i o f u l m w' ev env t H Hl Ht.
  apply generated_quota_stored in H as (_ & _ & q & Hf & Hu & _).
  unfold getQuota. rewrite Ht.
  destruct (QuotaFacts.getTodayQuota_found env (startOfDay (now cfg)) (quotas w')
              (userId req) None q Hf Hl) as (st' & G & _).
  rewrite G. unfold Quota.generationsRemaining. cbn. rewrite Hu.
  eexists. eexists. eexists. reflexivity.
Qed.

Lemma getQuota_after_success_reports_same_usage_witness :
  exists resetAt date w'',
    getQuota Quota.defaultEnv 2000
      (snd (fst (imageToImage Scenarios.workingConfig Scenarios.aliceWorld
                   Scenarios.sunsetRequest))) 1
    = (QuotaInfo 1 (Quota.tierLimit Quota.defaultEnv Quota.free)
         (Z.max 0 (Quota.tierLimit Quota.defaultEnv Quota.free - 1)) resetAt date, w'').
Proof.
  eapply (getQuota_after_success_reports_same_usage Scenarios.workingConfig
            Scenarios.aliceWorld Scenarios.sunsetRequest).
  - vm_compute. reflexivity.
  - vm_compute. discriminate.
  - reflexivity.
Defined.

End ResponseFacts.

(** ** Retry, status and delete *)

Module AccessFacts.
Import Js Routes MoreRoutes.

Lemma map_used_updateById_setLimit i v l :
  map Quota.generationsUsed (Quota.updateById i (Quota.setLimit v) l)
  = map Quota.generationsUsed l.
Proof.
  unfold Quota.updateById. rewrite map_map. apply map_ext.
  intros q. destruct (Quota._id q =? i)%nat; reflexivity.
Qed.

(** One [getTodayQuota]: the usages stored are kept, and a record with
    usage 0 is added when there was none for (uid, today). *)
Lemma getTodayQuota_usages env today st uid tr r st' :
  Quota.getTodayQuota env today st uid tr = (r, st') ->
  map Quota.generationsUsed (Quota.docs st') = map Quota.generationsUsed (Quota.docs st)
  \/ map Quota.generationsUsed (Quota.docs st')
     = (map Quota.generationsUsed (Quota.docs st) ++ [0%Z])%list.
Proof.
  unfold Quota.getTodayQuota.
  destruct (Quota.findOne st uid today) as [q0|].
  - destruct (negb _).
    + unfold Quota.saveLimit. destruct (Quota.validate 0 _); [intros [= <- <-]; auto|].
      destruct (Quota.findById st _); intros [= <- <-]; auto.
      left. simpl. apply map_used_updateById_setLimit.
    + intros [= <- <-]. auto.
  - unfold Quota.create. destruct (Quota.validate 0 _); [intros [= <- <-]; auto|].
    destruct (Quota.findOne st uid today); intros [= <- <-]; auto.
    right. simpl. rewrite map_app. reflexivity.
Qed.

(** X11.  A retry never charges: whatever it answers, the usage of every
    stored quota record is what it was before; at most a record with
    usage 0 is added, when the user had none for the day. *)
Theorem retry_never_charges :
  forall env t w i uid,
    map Quota.generationsUsed (Quota.docs (quotas (snd (retry env t w i uid))))
    = map Quota.generationsUsed (Quota.docs (quotas w))
    \/ map Quota.generationsUsed (Quota.docs (quotas (snd (retry env t w i uid))))
       = (map Quota.generationsUsed (Quota.docs (quotas w)) ++ [0%Z])%list.
Proof.
  intros env t w i uid. unfold retry.
  destruct (Generation.findOne _ _ _) as [g|]; [|auto].
  destruct (negb _); [auto|].
  unfold Quota.canUserGenerate.
  destruct (Quota.getTodayQuota env (startOfDay t) (quotas w) uid None)
    as [[q | e] qs] eqn:G.
  - pose proof (getTodayQuota_usages _ _ _ _ _ _ _ G) as Hu.
    destruct (Quota.generationsUsed q <? Quota.generationsLimit q)%Z.
    + cbv zeta. destruct (Generation.save _ _ _) as [[g' | e] gs]; exact Hu.
    + rewrite (QuotaExtras.getTodayQuota_repeat _ _ _ _ _ _ _ G). exact Hu.
  - exact (getTodayQuota_usages _ _ _ _ _ _ _ G).
Qed.

Lemma findOne_none_for_stranger gs i uid :
  (forall g, In g (Generation.docs gs) ->
     Generation._id g = i -> Generation.userId g <> uid) ->
  Generation.findOne gs i uid = None.
Proof.
  intros H. unfold Generation.findOne.
  destruct (find _ (Generation.docs gs)) as [g|] eqn:E; [|reflexivity].
  apply find_some in E as [Hin Hk]. apply andb_true_iff in Hk as [Hi Hu].
  apply Nat.eqb_eq in Hi. apply Nat.eqb_eq in Hu.
  exfalso. exact (H g Hin Hi Hu).
Qed.

(** X12.  Generations are private to their owner: for a user who owns no
    generation with the id asked for (the id is unknown, or belongs to
    someone else), GET /status/:id, POST /retry/:id and DELETE
    /generations/:id all answer 404 and leave everything as it was. *)
Theorem strangers_get_404 :
  forall env t w i uid,
    (forall g, In g (Generation.docs (generations w)) ->
       Generation._id g = i -> Generation.userId g <> uid) ->
    getStatus w i uid = None
    /\ retry env t w i uid = (RetryFail 404 "Generation not found", w)
    /\ deleteGeneration w i uid = (false, w).
Proof.
  intros env t w i uid H.
  pose proof (findOne_none_for_stranger _ _ _ H) as Hn.
  unfold getStatus, retry, deleteGeneration. rewrite Hn. auto.
Qed.

Lemma strangers_get_404_witness :
  getStatus Scenarios.bobWorld 0 1 = None
  /\ retry Quota.defaultEnv 1000 Scenarios.bobWorld 0 1
     = (RetryFail 404 "Generation not found", Scenarios.bobWorld)
  /\ deleteGeneration Scenarios.bobWorld 0 1 = (false, Scenarios.bobWorld).
Proof.
  apply (strangers_get_404 Quota.defaultEnv 1000 Scenarios.bobWorld 0 1).
  intros g [<- | []] _. simpl. discriminate.
Defined.

Lemma find_removeById_other (P : Generation.t -> bool) i l :
  (forall g, P g = true -> Generation._id g <> i) ->
  find P (removeById i l) = find P l.
Proof.
  intros H. induction l as [|a l IH]; simpl; [reflexivity|].
  destruct (Generation._id a =? i)%nat eqn:E.
  - apply Nat.eqb_eq in E. destruct (P a) eqn:Pa; [|reflexivity].
    exfalso. exact (H a Pa E).
  - simpl. rewrite IH. reflexivity.
Qed.

Lemma removeById_gone i l :
  NoDup (map Generation._id l) ->
  forall g, In g (removeById i l) -> Generation._id g <> i.
Proof.
  induction l as [|a l IH]; simpl; intros Hnd g Hin; [contradiction|].
  inversion Hnd as [|x xs Hnotin Hnd']; subst.
  destruct (Generation._id a =? i)%nat eqn:E.
  - apply Nat.eqb_eq in E. intros Hg. apply Hnotin. rewrite E, <- Hg.
    apply in_map. exact Hin.
  - destruct Hin as [<- | Hin]; [apply Nat.eqb_neq; exact E | apply IH; auto].
Qed.

Lemma removeById_length i l :
  (exists g, In g l /\ Generation._id g = i) ->
  S (List.length (removeById i l)) = List.length l.
Proof.
  induction l as [|a l IH]; simpl; intros (g & Hin & Hg); [contradiction|].
  destruct (Generation._id a =? i)%nat eqn:E; [reflexivity|].
  simpl. f_equal. apply IH. destruct Hin as [-> | Hin].
  - apply Nat.eqb_neq in E. contradiction.
  - eauto.
Qed.

(** X13.  Deleting is exact.  With distinct ids in the collection, when
    the owner deletes generation [i] the answer is a success, exactly one
    record is removed, the status of [i] is a 404 from then on for
    everybody, the status of every other generation is answered as
    before, and users and quotas are untouched. *)
Theorem delete_removes_exactly_that_generation :
  forall w i uid g,
    NoDup (map Generation._id (Generation.docs (generations w))) ->
    Generation.findOne (generations w) i uid = Some g ->
    let w' := snd (deleteGeneration w i uid) in
    fst (deleteGeneration w i uid) = true
    /\ S (List.length (Generation.docs (generations w')))
       = List.length (Generation.docs (generations w))
    /\ (forall u, getStatus w' i u = None)
    /\ (forall j u, j <> i -> getStatus w' j u = getStatus w j u)
    /\ users w' = users w /\ quotas w' = quotas w.
Proof.
  intros w i uid g Hnd Hf w'. subst w'. unfold deleteGeneration. rewrite Hf.
  cbn [fst snd]. pose proof Hf as Hf'. unfold Generation.findOne in Hf'.
  apply find_some in Hf' as [Hin Hk]. apply andb_true_iff in Hk as [Hi _].
  apply Nat.eqb_eq in Hi. rewrite Hi.
  split; [reflexivity|]. split; [|split; [|split; [|split]]].
  - cbn. apply removeById_length. eauto.
  - intros u. unfold getStatus.
    rewrite findOne_none_for_stranger; [reflexivity|].
    intros g' Hin' Hid. exfalso. cbn in Hin'.
    exact (removeById_gone i _ Hnd g' Hin' Hid).
  - intros j u Hj. unfold getStatus, Generation.findOne. cbn.
    rewrite find_removeById_other; [reflexivity|].
    intros g' Hk Hid. apply andb_true_iff in Hk as [Hk _].
    apply Nat.eqb_eq in Hk. congruence.
  - reflexivity.
  - reflexivity.
Qed.

Lemma delete_removes_exactly_that_generation_witness :
  let w' := snd (deleteGeneration Scenarios.bobWorld 0 2) in
  fst (deleteGeneration Scenarios.bobWorld 0 2) = true
  /\ S (List.length (Generation.docs (generations w')))
     = List.length (Generation.docs (generations Scenarios.bobWorld))
  /\ (forall u, getStatus w' 0 u = None)
  /\ (forall j u, j <> 0%nat -> getStatus w' j u = getStatus Scenarios.bobWorld j u)
  /\ users w' = users Scenarios.bobWorld /\ quotas w' = quotas Scenarios.bobWorld.
Proof.
  eapply (delete_removes_exactly_that_generation Scenarios.bobWorld 0 2).
  - simpl. constructor; [intros [] | constructor].
  - reflexivity.
Defined.

End AccessFacts.

(** ** Built-in presets and the provider client seen from the handler *)

Module PresetAndClientFacts.
Import Js JsString Routes ImageToImageFacts.




(** The client resolves only with a file it wrote from the image data of
    the response. *)
Lemma client_url_is_local sslFallback raw u :
  GeminiService.generateImageFromImage sslFallback raw = GeminiService.Resolved u ->
  exists fl, raw = GeminiService.RawImage fl /\ u = "/uploads/" ++ fl.
Proof.
  destruct raw as [fl | | e]; cbn [GeminiService.generateImageFromImage].
  - intros [= <-]. exists fl. auto.
  - destruct (Outcomes.onError_rejects sslFallback
                (GeminiService.mkRawError
                   (Some "No image data received from Gemini API") None))
      as (msg & ->).
    discriminate.
  - destruct (Outcomes.onError_rejects sslFallback e) as (msg & ->). discriminate.
Qed.

(** X15.  With the provider client of services/geminiService.js behind
    the handler (either revision) and a request over http or https that
    passes validation and the quota check: the answer is always a success
    (the 502 branch cannot be reached), and its echoedInput flag is true
    exactly when the client rejected, which it does for every outcome of
    the remote call but a response with image data; when the flag is
    false the image URL is the file under /uploads/ that the client wrote
    from that data. *)
Theorem echo_flag_means_client_rejected :
  forall cfg w req p f user quota qs ev1 sslFallback raw,
    validRequest req p f ->
    find (fun u => (u_id u =? userId req)%nat) (users w) = Some user ->
    findOrCreateQuota (startOfDay (now cfg)) (quotas w) user = (Ok quota, qs, ev1) ->
    (0 <= Quota.generationsUsed quota < Quota.generationsLimit quota)%Z ->
    serviceAvailable cfg = true ->
    protocol req = "http" \/ protocol req = "https" ->
    let original := protocol req ++ "://" ++ host req ++ "/uploads/" ++ filename f in
    let fp := fst (PromptResolver.resolvePrompt (allPrompts cfg) (preset req) p original) in
    provider cfg (path f) fp
    = ofService (GeminiService.generateImageFromImage sslFallback raw) ->
    exists e ref imageUrl u l m w' ev,
      imageToImage cfg w req = (Generated e ref imageUrl original fp u l m, w', ev)
      /\ (e = true <->
          exists msg,
            GeminiService.generateImageFromImage sslFallback raw
            = GeminiService.Rejected msg)
      /\ (e = true <-> forall fl, raw <> GeminiService.RawImage fl)
      /\ (e = true -> imageUrl = original)
      /\ (e = false ->
          exists fl, raw = GeminiService.RawImage fl /\ imageUrl = "/uploads/" ++ fl).
Proof.
  intros cfg w req p f user quota qs ev1 ssl raw Hv Hu Hq Hrange Hs Hproto
         original fp Hp.
  destruct (GeminiService.generateImageFromImage ssl raw) as [u | msg] eqn:Hsvc.
  - destruct (client_url_is_local _ _ _ Hsvc) as (fl & -> & ->).
    assert (Hob : obtainImage cfg f fp original
                  = (inr ("/uploads/" ++ fl), [ProviderCalled (path f) fp])).
    { unfold obtainImage. rewrite Hs, Hp. reflexivity. }
    destruct (imageToImage_charges cfg w req p f user quota qs ev1 _ _ Hv Hu Hq Hrange Hob)
      as (ref & w' & g & ok & H & _).
    fold original fp in H.
    assert (He : ("/uploads/" ++ fl =? original) = false)
      by (subst original; destruct Hproto as [-> | ->]; reflexivity).
    rewrite He in H.
    do 8 eexists. split; [exact H|]. split; [|split; [|split]].
    + split; [discriminate | intros (m & Hm); discriminate].
    + split; [discriminate | intros Hno; destruct (Hno fl); reflexivity].
    + discriminate.
    + intros _. eauto.
  - assert (Hob : obtainImage cfg f fp original
                  = (inr original, [ProviderCalled (path f) fp])).
    { unfold obtainImage. rewrite Hs, Hp. reflexivity. }
    destruct (imageToImage_charges cfg w req p f user quota qs ev1 _ _ Hv Hu Hq Hrange Hob)
      as (ref & w' & g & ok & H & _).
    fold original fp in H. rewrite String.eqb_refl in H.
    do 8 eexists. split; [exact H|]. split; [|split; [|split]].
    + split; [eauto | reflexivity].
    + split; [|reflexivity]. intros _ fl ->. discriminate.
    + reflexivity.
    + discriminate.
Qed.

Lemma echo_flag_means_client_rejected_witness :
  let req := mkRequest 1 "http" "x" (Some "sunset") (Some "constructor") None
               (Some Scenarios.upload) in
  let fp := ", reference image: http://x/uploads/u.jpg, sunset" in
  exists e ref imageUrl u l m w' ev,
    imageToImage Scenarios.resetConfig Scenarios.aliceWorld req
    = (Generated e ref imageUrl Scenarios.uploadUrl fp u l m, w', ev)
    /\ (e = true <->
        exists msg,
          GeminiService.generateImageFromImage true
            (GeminiService.RawThrow Scenarios.resetError)
          = GeminiService.Rejected msg)
    /\ (e = true <->
        forall fl, GeminiService.RawThrow Scenarios.resetError
                   <> GeminiService.RawImage fl)
    /\ (e = true -> imageUrl = Scenarios.uploadUrl)
    /\ (e = false ->
        exists fl, GeminiService.RawThrow Scenarios.resetError = GeminiService.RawImage fl
                   /\ imageUrl = "/uploads/" ++ fl).
Proof.
  intros req fp.
  apply (echo_flag_means_client_rejected Scenarios.resetConfig Scenarios.aliceWorld
           req "sunset" Scenarios.upload Scenarios.alice
           (Quota.mkQuota 0 1 0 0 5 1) Scenarios.aliceStore []
           true (GeminiService.RawThrow Scenarios.resetError)).
  - repeat split. simpl. lia.
  - reflexivity.
  - reflexivity.
  - simpl. lia.
  - reflexivity.
  - left. reflexivity.
  - reflexivity.
Defined.

End PresetAndClientFacts.

(** ** The image reference in the final prompt *)

Module ReferenceFacts.
Import JsString PromptResolver.

Lemma includes_unfold s sub :
  includes s sub
  = match matchAt eq_cs sub s with
    | Some _ => true
    | None => match s with
              | "" => false
              | String _ s' => includes s' sub
              end
    end.
Proof. destruct s; reflexivity. Qed.

Lemma matchAt_self sub r : matchAt eq_cs sub (sub ++ r) = Some (sub, r).
Proof.
  induction sub as [|c sub IH]; simpl; [reflexivity|].
  unfold eq_cs at 1. rewrite Ascii.eqb_refl, IH. reflexivity.
Qed.

Lemma matchAt_app eqc p a b m r :
  matchAt eqc p a = Some (m, r) -> matchAt eqc p (a ++ b) = Some (m, r ++ b).
Proof.
  revert a m r. induction p as [|pc p IH]; simpl; intros a m r H.
  - injection H as <- <-. reflexivity.
  - destruct a as [|c a]; [discriminate|]. simpl.
    destruct (eqc pc c); [|discriminate].
    destruct (matchAt eqc p a) as [[m' r']|] eqn:E; [|discriminate].
    injection H as <- <-. rewrite (IH _ _ _ E). reflexivity.
Qed.

Lemma includes_here sub b : includes (sub ++ b) sub = true.
Proof. rewrite includes_unfold, matchAt_self. reflexivity. Qed.

Lemma includes_later a s sub : includes s sub = true -> includes (a ++ s) sub = true.
Proof.
  intros H. induction a as [|c a IH]; cbn [append]; [exact H|].
  rewrite includes_unfold. destruct (matchAt eq_cs sub _); [reflexivity | exact IH].
Qed.

Lemma includes_app_r a b sub : includes a sub = true -> includes (a ++ b) sub = true.
Proof.
  induction a as [|c a IH]; intros H.
  - rewrite includes_unfold in H.
    destruct (matchAt eq_cs sub "") as [[m r]|] eqn:E; [|discriminate].
    rewrite includes_unfold. rewrite (matchAt_app _ _ _ b _ _ E). reflexivity.
  - rewrite includes_unfold in H. cbn [append]. rewrite includes_unfold.
    destruct (matchAt eq_cs sub (String c a)) as [[m r]|] eqn:E.
    + change (String c (a ++ b)) with (String c a ++ b).
      rewrite (matchAt_app _ _ _ b _ _ E). reflexivity.
    + destruct (matchAt eq_cs sub (String c (a ++ b))); [reflexivity | auto].
Qed.

Lemma trimStart_app a c r :
  isWhiteSpace c = false -> trimStart (a ++ String c r) = trimStart a ++ String c r.
Proof.
  intros Hc. induction a as [|x a IH]; simpl.
  - rewrite Hc. reflexivity.
  - destruct (isWhiteSpace x); [exact IH | reflexivity].
Qed.

Lemma append_empty_inv a b : a ++ b = "" -> b = "".
Proof. destruct a; simpl; [auto | discriminate]. Qed.

Lemma trimEnd_app a b : trimEnd b <> "" -> trimEnd (a ++ b) = a ++ trimEnd b.
Proof.
  intros Hb. induction a as [|x a IH]; simpl; [reflexivity|].
  rewrite IH.
  destruct (a ++ trimEnd b =? "") eqn:E.
  - apply String.eqb_eq in E. apply append_empty_inv in E. contradiction.
  - rewrite andb_false_r. reflexivity.
Qed.

Lemma append_assoc3 a b c : (a ++ b) ++ c = a ++ b ++ c.
Proof. induction a as [|x a IH]; simpl; [reflexivity | rewrite IH; reflexivity]. Qed.

(** The appended reference survives the [trim]. *)
Lemma trimmed_reference_includes base url :
  trimEnd url = url ->
  includes (trim (base ++ ", reference image: " ++ url)) url = true.
Proof.
  intros Hu. destruct url as [|c u].
  - rewrite includes_unfold. reflexivity.
  - unfold trim.
    change (", reference image: " ++ String c u)
      with (String "," (" reference image: " ++ String c u)).
    rewrite trimStart_app by reflexivity.
    change (String "," (" reference image: " ++ String c u))
      with (", reference image: " ++ String c u).
    rewrite <- append_assoc3.
    rewrite trimEnd_app by (rewrite Hu; discriminate).
    rewrite Hu. apply includes_later.
    rewrite <- (includes_here (String c u) "") at 1.
    f_equal. clear. induction (String c u) as [|x s IH]; simpl; [reflexivity|].
    rewrite <- IH. reflexivity.
Qed.

(** X16.  The uploaded image is never dropped from the prompt: for every
    catalog outcome, preset (a catalog row, a built-in preset, a member
    the built-in table inherits, or none of these) and user prompt, the
    final prompt contains the image URL, provided the URL does not end in
    white space (the handler's URLs end in ".jpg"). *)
Theorem final_prompt_includes_image_url :
  forall allPrompts preset prompt url,
    trimEnd url = url ->
    includes (fst (resolvePrompt allPrompts preset prompt url)) url = true.
Proof.
  intros all preset prompt url Hu.
  assert (Href : includes (withReference prompt url) url = true).
  { unfold withReference. apply includes_later. apply includes_later.
    rewrite <- (includes_here url "") at 1. f_equal.
    clear. induction url as [|x s IH]; simpl; [reflexivity | rewrite <- IH; reflexivity]. }
  unfold resolvePrompt.
  destruct preset as [ps|]; [|exact Href].
  destruct (ps =? ""); [exact Href|].
  destruct all as [all|]; [|exact Href].
  destruct (findPreset all ps) as [pd|]; [|exact Href].
  cbn [fst]. unfold applyPreset.
  set (base1 := fold_left _ imagePlaceholderPatterns (main_prompt pd)).
  set (base2 := if includes base1 "{prompt}" then replace base1 "{prompt}" prompt else base1).
  assert (H3 : includes (if negb (includes base2 url)
                         then trim (base2 ++ ", reference image: " ++ url)
                         else base2) url = true).
  { destruct (includes base2 url) eqn:E; simpl; [exact E|].
    apply trimmed_reference_includes. exact Hu. }
  destruct (negb (includes (main_prompt pd) "{prompt}") && _ && _);
    [apply includes_app_r|]; exact H3.
Qed.

Lemma final_prompt_includes_image_url_witness :
  includes
    (fst (resolvePrompt (Some Scenarios.styleCatalog) (Some "constructor") "sunset"
            "http://x/u.jpg"))
    "http://x/u.jpg" = true.
Proof.
  apply (final_prompt_includes_image_url (Some Scenarios.styleCatalog)
           (Some "constructor") "sunset" "http://x/u.jpg").
  reflexivity.
Defined.

End ReferenceFacts.

(** ** Preset listing and paging *)

Module ListingFacts.
Import Js Routes MoreRoutes.

Lemma filter_all_true {A : Type} (l : list A) : filter (fun _ => true) l = l.
Proof. induction l as [|a l IH]; simpl; [reflexivity | rewrite IH; reflexivity]. Qed.

Lemma filter_all_false {A : Type} (l : list A) : filter (fun _ => false) l = [].
Proof. induction l as [|a l IH]; simpl; auto. Qed.

(** X17.  GET /presets shows every preset of the catalog in use (the
    loaded rows, or the three built-in ones when none were loaded)
    exactly once.  A paying user gets them all unlocked, in catalog
    order.  A free user gets the free-tier ones unlocked first, then the
    others locked with requiresPaid.  Any other tier gets only the
    free-tier ones.  The source is labelled "csv" only when more than
    three rows were loaded. *)
Theorem getPresets_lists_catalog_once :
  forall loaded userTier,
    let all := if (List.length loaded =? 0)%nat then fallbackRows else loaded in
    let r := getPresets (Some loaded) userTier in
    (isPaying userTier = true ->
       presets r = map (fun p => mkPresetEntry p true false) all)
    /\ (userTier = "free" ->
          presets r
          = (map (fun p => mkPresetEntry p true false)
               (filter (fun p => p_user_tier p =? "free") all)
             ++ map (fun p => mkPresetEntry p false true)
                  (filter (fun p => negb (p_user_tier p =? "free")) all))%list
          /\ List.length (presets r) = List.length all)
    /\ (isPaying userTier = false -> userTier <> "free" ->
          presets r = map (fun p => mkPresetEntry p true false)
                        (filter (fun p => p_user_tier p =? "free") all))
    /\ (source r = "csv" <-> (3 < List.length loaded)%nat)
    /\ loadError r = None.
Proof.
  intros loaded userTier all r. subst r. unfold getPresets. fold all.
  cbn [presets source loadError].
  split; [|split; [|split; [|split]]].
  - intros Hp. unfold isAvailable, isUnavailable. rewrite Hp.
    rewrite filter_all_true, filter_all_false.
    destruct (userTier =? "free"); simpl; rewrite app_nil_r; reflexivity.
  - intros ->.
    assert (Hp : isPaying "free" = false) by reflexivity.
    assert (Hf : ("free" =? "free") = true) by reflexivity.
    unfold isAvailable, isUnavailable. rewrite Hp, Hf.
    split; [reflexivity|].
    rewrite length_app, !length_map.
    apply MaintenanceFacts.filter_split_length.
  - intros Hp Hne. unfold isAvailable. rewrite Hp.
    destruct (userTier =? "free") eqn:E; [apply String.eqb_eq in E; contradiction|].
    rewrite app_nil_r. reflexivity.
  - subst all. change (List.length fallbackRows) with 3%nat.
    destruct (List.length loaded =? 0)%nat eqn:E0.
    + apply Nat.eqb_eq in E0. rewrite E0. simpl. split; [discriminate | lia].
    + destruct (3 <? List.length loaded)%nat eqn:E3.
      * apply Nat.ltb_lt in E3. split; auto.
      * apply Nat.ltb_ge in E3. split; [discriminate | lia].
  - reflexivity.
Qed.

Lemma getPresets_lists_catalog_once_witness :
  let loaded := [mkPresetRow "portrait_1" "portrait" "" "portrait" "realistic"
                   "studio portrait of {image}" "" "free";
                 mkPresetRow "pro_2" "pro" "" "pro" "realistic"
                   "cinematic {image}" "" "paid"] in
  let r := getPresets (Some loaded) "free" in
  presets r
  = [mkPresetEntry (mkPresetRow "portrait_1" "portrait" "" "portrait" "realistic"
                      "studio portrait of {image}" "" "free") true false;
     mkPresetEntry (mkPresetRow "pro_2" "pro" "" "pro" "realistic"
                      "cinematic {image}" "" "paid") false true]
  /\ List.length (presets r) = 2%nat.
Proof.
  intros loaded r.
  destruct (getPresets_lists_catalog_once loaded "free") as (_ & H & _).
  exact (H eq_refl).
Defined.

Lemma ceilDiv_gt page limit total :
  (1 <= limit)%Z -> ((page <? ceilDiv total limit)%Z = true <-> (page * limit < total)%Z).
Proof.
  intros Hl. unfold ceilDiv. rewrite Z.ltb_lt.
  pose proof (Z.div_mod (- total) limit ltac:(lia)) as Hdm.
  pose proof (Z.mod_pos_bound (- total) limit ltac:(lia)) as Hb.
  split; intros H; nia.
Qed.

(** X18.  Paging covers the results: for a limit of at least 1, the
    result at index [i] is on page [i / limit + 1] (asked for with that
    limit) at position [i mod limit], the page is answered without
    error, and its hasNext says whether results remain after it. *)
Theorem paginate_covers_results :
  forall (A : Type) (results : list A) (lim : Z) (i : nat),
    (1 <= lim)%Z ->
    (i < List.length results)%nat ->
    let pageNo := (Z.of_nat i / lim + 1)%Z in
    exists pg,
      paginate results (Some pageNo) (Some lim) = Ok pg
      /\ nth_error (items pg) (Z.to_nat (Z.of_nat i mod lim)) = nth_error results i
      /\ page pg = pageNo /\ limit pg = lim
      /\ total pg = Z.of_nat (List.length results)
      /\ (pageNo <= pages pg)%Z
      /\ (hasNext pg = true <-> (pageNo * lim < Z.of_nat (List.length results))%Z)
      /\ (hasPrev pg = true <-> (lim <= Z.of_nat i)%Z).
Proof.
  intros A results lim i Hl Hi pageNo.
  pose proof (Z.div_mod (Z.of_nat i) lim ltac:(lia)) as Hdm.
  pose proof (Z.mod_pos_bound (Z.of_nat i) lim ltac:(lia)) as Hb.
  assert (Hq : (0 <= Z.of_nat i / lim)%Z) by (apply Z.div_pos; lia).
  assert (Hp0 : (pageNo =? 0)%Z = false) by (apply Z.eqb_neq; subst pageNo; lia).
  assert (Hl0 : (lim =? 0)%Z = false) by (apply Z.eqb_neq; lia).
  unfold paginate, Quota.parsedOr. rewrite Hp0, Hl0.
  assert (Hskip : ((pageNo - 1) * lim <? 0)%Z = false)
    by (apply Z.ltb_ge; subst pageNo; nia).
  rewrite Hskip. eexists. split; [reflexivity|]. cbn [items page limit total pages hasNext hasPrev].
  split; [|split; [|split; [|split; [|split; [|split]]]]]; try reflexivity.
  - rewrite nth_error_firstn.
    assert (Hlt : (Z.to_nat (Z.of_nat i mod lim) <? Z.to_nat (Z.abs lim))%nat = true)
      by (apply Nat.ltb_lt; lia).
    rewrite Hlt, nth_error_skipn. f_equal. subst pageNo.
    assert (E : ((Z.of_nat i / lim + 1 - 1) * lim + Z.of_nat i mod lim
                 = Z.of_nat i)%Z) by nia.
    rewrite <- Z2Nat.inj_add; [rewrite E; apply Nat2Z.id | nia | lia].
  - assert (Hc : ((pageNo - 1 <? ceilDiv (Z.of_nat (List.length results)) lim)%Z = true)).
    { apply ceilDiv_gt; [exact Hl|]. subst pageNo.
      replace ((Z.of_nat i / lim + 1 - 1) * lim)%Z with (lim * (Z.of_nat i / lim))%Z
        by ring.
      lia. }
    apply Z.ltb_lt in Hc. lia.
  - apply ceilDiv_gt. exact Hl.
  - rewrite Z.ltb_lt. subst pageNo. split; intros H.
    + assert (1 <= Z.of_nat i / lim)%Z by lia. nia.
    + assert (1 <= Z.of_nat i / lim)%Z by (apply Z.div_le_lower_bound; lia). lia.
Qed.

Lemma paginate_covers_results_witness :
  exists pg,
    paginate [10; 11; 12; 13; 14]%nat (Some (Z.of_nat 3 / 2 + 1)%Z) (Some 2%Z) = Ok pg
    /\ nth_error (items pg) (Z.to_nat (Z.of_nat 3 mod 2)) = nth_error [10; 11; 12; 13; 14]%nat 3
    /\ page pg = (Z.of_nat 3 / 2 + 1)%Z /\ limit pg = 2%Z
    /\ total pg = Z.of_nat (List.length [10; 11; 12; 13; 14]%nat)
    /\ ((Z.of_nat 3 / 2 + 1) <= pages pg)%Z
    /\ (hasNext pg = true
        <-> ((Z.of_nat 3 / 2 + 1) * 2 < Z.of_nat (List.length [10; 11; 12; 13; 14]%nat))%Z)
    /\ (hasPrev pg = true <-> (2 <= Z.of_nat 3)%Z).
Proof.
  apply (paginate_covers_results nat [10; 11; 12; 13; 14]%nat 2%Z 3%nat).
  - lia.
  - simpl. lia.
Defined.

End ListingFacts.

(** ** The prompt catalog: loading and matching *)

Module CatalogFacts.
Import Js JsString PromptMatcher.

Lemma rowToPrompt_wellLoaded n row p : rowToPrompt n row = Some p -> wellLoaded p.
Proof.
  unfold rowToPrompt.
  set (cat := match option_map trim (row_category row) with
              | Some c => orElse c "general"
              | None => "general"
              end).
  set (main := match row_main_prompt row with Some m => trim m | None => "" end).
  destruct (cat =? "") eqn:Ec; [discriminate|].
  destruct (main =? "") eqn:Em; [discriminate|]. simpl.
  intros [= <-]. unfold wellLoaded. simpl.
  apply String.eqb_neq in Ec. apply String.eqb_neq in Em. auto.
Qed.

Lemma loadRows_keeps (P : Prompt -> Prop) rows :
  (forall n row p, rowToPrompt n row = Some p -> In row rows -> P p) ->
  forall acc, (forall p, In p acc -> P p) ->
  forall p, In p (loadRows acc rows) -> P p.
Proof.
  induction rows as [|row rows IH]; intros Hrow acc Hacc p Hin; simpl in Hin.
  - auto.
  - destruct (rowToPrompt (List.length acc) row) as [q|] eqn:E.
    + apply (IH (fun n r x Hx Hr => Hrow n r x Hx (or_intror Hr)) (acc ++ [q])%list); auto.
      intros x Hx. apply in_app_or in Hx as [Hx | [<- | []]]; auto.
      apply (Hrow _ _ _ E). left. reflexivity.
    + apply (IH (fun n r x Hx Hr => Hrow n r x Hx (or_intror Hr)) acc); auto.
Qed.

Lemma loadRows_length rows acc :
  (List.length (loadRows acc rows) <= List.length acc + List.length rows)%nat.
Proof.
  revert acc. induction rows as [|row rows IH]; intros acc; simpl; [lia|].
  destruct (rowToPrompt _ row).
  - specialize (IH (acc ++ [p])%list). rewrite length_app in IH. simpl in IH. lia.
  - specialize (IH acc). lia.
Qed.

Lemma filter_id {A : Type} (f : A -> bool) (l : list A) :
  (forall x, In x l -> f x = true) -> filter f l = l.
Proof.
  induction l as [|a l IH]; simpl; intros H; [reflexivity|].
  rewrite (H a (or_introl eq_refl)), IH; auto.
Qed.

(** The entries kept by the loader. *)
Lemma loaded_are_wellLoaded rows p : In p (loadPrompts rows) -> wellLoaded p.
Proof.
  revert p. apply (loadRows_keeps wellLoaded rows).
  - intros n row p Hp _. exact (rowToPrompt_wellLoaded n row p Hp).
  - intros p [].
Qed.

Lemma loaded_catalog_facts rows :
  (forall p, In p (loadPrompts rows) -> wellLoaded p)
  /\ (forall userTier, getPromptsByUserTier (loadPrompts rows) userTier
                       = loadPrompts rows).
Proof.
  split; [apply loaded_are_wellLoaded|].
  intros userTier. unfold getPromptsByUserTier. apply filter_id.
  intros p Hp. destruct (loaded_are_wellLoaded rows p Hp) as (_ & _ & -> & _).
  destruct (userTier =? "premium"); reflexivity.
Qed.

(** X19.  Whatever the CSV rows, every entry that [loadPrompts] keeps has
    a non-empty main prompt and category, no tags, no description and
    tier "free"; no more entries are kept than there are rows; and so
    the by-tier filter keeps the whole catalog for every tier. *)
Theorem loaded_catalog_is_free_for_all :
  forall rows,
    (forall p, In p (loadPrompts rows) -> wellLoaded p)
    /\ (List.length (loadPrompts rows) <= List.length rows)%nat
    /\ (forall userTier, getPromptsByUserTier (loadPrompts rows) userTier
                         = loadPrompts rows).
Proof.
  intros rows. split; [|split].
  - intros p Hp. apply (loadRows_keeps wellLoaded rows) with (acc := []); auto.
    + intros n row q Hq _. exact (rowToPrompt_wellLoaded n row q Hq).
    + intros q [].
  - exact (loadRows_length rows []).
  - intros userTier. unfold getPromptsByUserTier. apply filter_id.
    intros p Hp.
    assert (Hw : wellLoaded p).
    { apply (loadRows_keeps wellLoaded rows) with (acc := []); auto.
      - intros n row q Hq _. exact (rowToPrompt_wellLoaded n row q Hq).
      - intros q []. }
    destruct Hw as (_ & _ & -> & _).
    destruct (userTier =? "premium"); reflexivity.
Qed.

Lemma includes_empty s : includes s "" = true.
Proof. rewrite ReferenceFacts.includes_unfold. reflexivity. Qed.

(** With no tags the empty tag matches every input: the score is at
    least 3. *)
Lemma score_without_tags input p nm :
  name p = Some nm -> tags p = "" ->
  exists sc, score input p = Some sc /\ (3 <= sc)%nat.
Proof.
  intros Hn Ht. unfold score. rewrite Hn, Ht. eexists. split; [reflexivity|].
  cbn [toLowerCase split split_from map trim trimStart trimEnd list_sum].
  rewrite includes_empty. simpl bonus. change (list_sum [3%nat]) with 3%nat. lia.
Qed.

Lemma scoreAll_all_positive input ps :
  (forall p, In p ps -> exists sc, score input p = Some sc /\ (3 <= sc)%nat) ->
  exists ms,
    scoreAll input ps = Ok ms
    /\ List.length ms = List.length ps
    /\ (forall x, In x ms -> (3 <= snd x)%nat).
Proof.
  induction ps as [|p ps IH]; intros H; simpl.
  - exists []. repeat split. intros x [].
  - destruct (H p (or_introl eq_refl)) as (sc & -> & Hsc).
    destruct IH as (ms & -> & Hlen & Hall); [intros q Hq; apply H; right; exact Hq|].
    destruct (0 <? sc)%nat eqn:E; [|apply Nat.ltb_ge in E; lia].
    eexists. split; [reflexivity|]. split; [simpl; lia|].
    intros x [<- | Hx]; [exact Hsc | auto].
Qed.

Lemma insertByScore_length x l :
  List.length (insertByScore x l) = S (List.length l).
Proof.
  induction l as [|y r IH]; simpl; [reflexivity|].
  destruct (snd y <=? snd x)%nat; simpl; [reflexivity | rewrite IH; reflexivity].
Qed.

Lemma sortByScore_length l : List.length (sortByScore l) = List.length l.
Proof.
  induction l as [|x l IH]; simpl; [reflexivity|].
  rewrite insertByScore_length, IH. reflexivity.
Qed.

Lemma insertByScore_In x l z : In z (insertByScore x l) -> z = x \/ In z l.
Proof.
  induction l as [|y r IH]; simpl.
  - intros [<- | []]. auto.
  - destruct (snd y <=? snd x)%nat; simpl.
    + intros [<- | [<- | H]]; auto.
    + intros [<- | H]; [auto|]. destruct (IH H); auto.
Qed.

Lemma sortByScore_In l z : In z (sortByScore l) -> In z l.
Proof.
  induction l as [|x l IH]; simpl; [auto|].
  intros H. apply insertByScore_In in H as [-> | H]; auto.
Qed.

Lemma In_firstn {A : Type} n (l : list A) z : In z (firstn n l) -> In z l.
Proof.
  revert n. induction l as [|a l IH]; intros [|n]; simpl; try contradiction.
  intros [<- | H]; eauto.
Qed.

Lemma slice0_In {A : Type} (l : list A) limit z : In z (slice0 l limit) -> In z l.
Proof. unfold slice0. destruct (limit <? 0)%Z; apply In_firstn. Qed.

Lemma loadRows_named rows :
  (forall row, In row rows -> row_category row <> None) ->
  forall acc, (forall p, In p acc -> name p <> None) ->
  forall p, In p (loadRows acc rows) -> name p <> None.
Proof.
  intros Hrows. apply loadRows_keeps.
  intros n row p Hp Hin. specialize (Hrows row Hin).
  unfold rowToPrompt in Hp. destruct (row_category row) as [c|]; [|contradiction].
  destruct (_ || _); [discriminate|]. injection Hp as <-. discriminate.
Qed.

(** X20.  Because loaded entries have no tags, every search matches all
    of them: for a CSV whose rows all have a category, [findMatches]
    answers any input, for any tier, with min(limit, size of the catalog)
    entries, each with a score of at least 3 (limit >= 0, no category
    filter). *)
Theorem findMatches_matches_whole_catalog :
  forall rows userInput userTier limit,
    (forall row, In row rows -> row_category row <> None) ->
    (0 <= limit)%Z ->
    exists ms,
      findMatches (loadPrompts rows) userInput userTier None limit = Ok ms
      /\ List.length ms = Nat.min (Z.to_nat limit) (List.length (loadPrompts rows))
      /\ (forall x, In x ms -> (3 <= snd x)%nat).
Proof.
  intros rows userInput userTier limit Hrows Hl.
  destruct (loaded_catalog_facts rows) as (Hwell & Htier).
  unfold findMatches, candidates. rewrite Htier.
  destruct (List.length (loadPrompts rows) =? 0)%nat eqn:E0.
  - apply Nat.eqb_eq in E0. exists []. rewrite E0, Nat.min_0_r.
    repeat split. intros x [].
  - destruct (scoreAll_all_positive (toLowerCase userInput) (loadPrompts rows))
      as (ms & -> & Hlen & Hall).
    { intros p Hp. destruct (Hwell p Hp) as (_ & _ & _ & Ht & _).
      destruct (name p) as [nm|] eqn:En.
      - apply (score_without_tags _ p nm En Ht).
      - exfalso. apply (loadRows_named rows Hrows [] (fun _ H => match H with end) p Hp En). }
    eexists. split; [reflexivity|]. split.
    + unfold slice0. destruct (limit <? 0)%Z eqn:E; [apply Z.ltb_lt in E; lia|].
      rewrite length_firstn, sortByScore_length, Hlen. reflexivity.
    + intros x Hx. apply Hall. apply sortByScore_In. eapply slice0_In. exact Hx.
Qed.

Lemma findMatches_matches_whole_catalog_witness :
  exists ms,
    findMatches
      (loadPrompts [mkRow (Some "portrait") (Some "studio portrait");
                    mkRow (Some "landscape") (Some "wide landscape")])
      "spaceship" "free" None 5 = Ok ms
    /\ List.length ms
       = Nat.min (Z.to_nat 5)
           (List.length
              (loadPrompts [mkRow (Some "portrait") (Some "studio portrait");
                            mkRow (Some "landscape") (Some "wide landscape")]))
    /\ (forall x, In x ms -> (3 <= snd x)%nat).
Proof.
  apply (findMatches_matches_whole_catalog
           [mkRow (Some "portrait") (Some "studio portrait");
            mkRow (Some "landscape") (Some "wide landscape")]
           "spaceship" "free" 5%Z).
  - intros row [<- | [<- | []]]; discriminate.
  - lia.
Defined.

Lemma loaded_catalog_is_free_for_all_witness :
  let rows := [mkRow (Some "portrait") (Some "studio portrait");
               mkRow (Some "x") (Some "  ")] in
  wellLoaded (mkPrompt "portrait_1" (Some "portrait") "" "portrait" ""
                "studio portrait" "" "realistic" "high" "free" true)
  /\ (List.length (loadPrompts rows) <= List.length rows)%nat
  /\ getPromptsByUserTier (loadPrompts rows) "paid" = loadPrompts rows.
Proof.
  intros rows.
  destruct (loaded_catalog_is_free_for_all rows) as (H1 & H2 & H3).
  split; [|split; [exact H2 | exact (H3 "paid")]].
  apply H1. left. reflexivity.
Defined.

Lemma scoreAll_sound input ps ms :
  scoreAll input ps = Ok ms ->
  forall x, In x ms ->
    In (fst x) ps /\ score input (fst x) = Some (snd x) /\ (0 < snd x)%nat.
Proof.
  revert ms. induction ps as [|p ps IH]; simpl; intros ms H x Hx.
  - injection H as <-. contradiction.
  - destruct (score input p) as [sc|] eqn:Es; [|discriminate].
    destruct (scoreAll input ps) as [ms'|e]; [|discriminate].
    injection H as <-.
    destruct (0 <? sc)%nat eqn:E.
    + destruct Hx as [<- | Hx].
      * apply Nat.ltb_lt in E. simpl. auto.
      * destruct (IH ms' eq_refl x Hx) as (H1 & H2 & H3). auto.
    + destruct (IH ms' eq_refl x Hx) as (H1 & H2 & H3). auto.
Qed.

Lemma isDescending_cons x l :
  isDescending (x :: l) = true <->
  (forall y, hd_error l = Some y -> (y <= x)%nat) /\ isDescending l = true.
Proof.
  destruct l as [|y r]; cbn [isDescending hd_error].
  - split; [intros _; split; [discriminate | reflexivity] | reflexivity].
  - rewrite andb_true_iff, Nat.leb_le. split.
    + intros [H1 H2]. split; [intros z [= <-]; exact H1 | exact H2].
    + intros [H1 H2]. split; [apply H1; reflexivity | exact H2].
Qed.

Lemma insertByScore_descending x l :
  isDescending (map snd l) = true ->
  isDescending (map snd (insertByScore x l)) = true.
Proof.
  induction l as [|y r IH]; intros H.
  - reflexivity.
  - cbn [insertByScore]. destruct (snd y <=? snd x)%nat eqn:E.
    + cbn [map]. apply isDescending_cons. split.
      * cbn [hd_error]. intros z [= <-]. apply Nat.leb_le. exact E.
      * exact H.
    + cbn [map] in *. apply isDescending_cons in H as [Hhd Htl].
      apply isDescending_cons. split; [|apply IH; exact Htl].
      apply Nat.leb_gt in E. intros z Hz.
      destruct r as [|w r']; cbn [insertByScore map hd_error] in Hz.
      * injection Hz as <-. lia.
      * destruct (snd w <=? snd x)%nat; cbn [map hd_error] in Hz; injection Hz as <-;
          [lia | apply Hhd; reflexivity].
Qed.

Lemma sortByScore_descending l : isDescending (map snd (sortByScore l)) = true.
Proof.
  induction l as [|x l IH]; [reflexivity|].
  cbn [sortByScore fold_right]. apply insertByScore_descending. exact IH.
Qed.

Lemma firstn_descending n l :
  isDescending l = true -> isDescending (firstn n l) = true.
Proof.
  revert n. induction l as [|x l IH]; intros [|n] H; try reflexivity.
  cbn [firstn]. apply isDescending_cons in H as [Hhd Htl].
  apply isDescending_cons. split; [|apply IH; exact Htl].
  intros y Hy. apply Hhd. destruct l as [|z l']; destruct n; try discriminate.
  exact Hy.
Qed.

(** X21.  What [findMatches] returns, when it returns: at most [limit]
    entries (limit >= 0), in order of decreasing score, each a candidate
    of the tier and category asked for, paired with its own positive
    score; for any tier other than "premium", "paid" included, only
    free-tier entries. *)
Theorem findMatches_result_is_ranked :
  forall prompts userInput userTier category_ limit ms,
    (0 <= limit)%Z ->
    findMatches prompts userInput userTier category_ limit = Ok ms ->
    (List.length ms <= Z.to_nat limit)%nat
    /\ isDescending (map snd ms) = true
    /\ (forall x, In x ms ->
          In (fst x) (candidates prompts userTier category_)
          /\ score (toLowerCase userInput) (fst x) = Some (snd x)
          /\ (0 < snd x)%nat
          /\ (userTier <> "premium" -> user_tier (fst x) = "free")).
Proof.
  intros prompts userInput userTier category_ limit ms Hl H.
  unfold findMatches in H.
  destruct (List.length (candidates prompts userTier category_) =? 0)%nat.
  - injection H as <-. split; [simpl; lia|]. split; [reflexivity|]. intros x [].
  - destruct (scoreAll _ _) as [ms0|e] eqn:Es; [|discriminate].
    injection H as <-. unfold slice0.
    destruct (limit <? 0)%Z eqn:E; [apply Z.ltb_lt in E; lia|].
    split; [rewrite length_firstn; lia|]. split.
    + rewrite <- firstn_map. apply firstn_descending, sortByScore_descending.
    + intros x Hx. apply In_firstn in Hx. apply sortByScore_In in Hx.
      destruct (scoreAll_sound _ _ _ Es x Hx) as (Hc & Hs & Hp).
      repeat split; auto.
      intros Hne. unfold candidates in Hc.
      assert (Hav : In (fst x) (getPromptsByUserTier prompts userTier)).
      { destruct category_ as [c|]; [|exact Hc].
        destruct (c =? ""); [exact Hc|]. apply filter_In in Hc as [Hc _]. exact Hc. }
      unfold getPromptsByUserTier in Hav. apply filter_In in Hav as [_ Hf].
      destruct (userTier =? "premium") eqn:Ep;
        [apply String.eqb_eq in Ep; contradiction|].
      apply String.eqb_eq. exact Hf.
Qed.

Lemma findMatches_result_is_ranked_witness :
  let prompts :=
    [mkPrompt "a" (Some "portrait") "" "portrait" "face,studio" "studio portrait"
       "" "realistic" "high" "free" true;
     mkPrompt "b" (Some "pro portrait") "" "portrait" "" "cinematic portrait"
       "" "realistic" "high" "paid" true] in
  exists ms,
    findMatches prompts "Portrait" "paid" None 5 = Ok ms
    /\ (List.length ms <= Z.to_nat 5)%nat
    /\ isDescending (map snd ms) = true
    /\ (forall x, In x ms ->
          In (fst x) (candidates prompts "paid" None)
          /\ score (toLowerCase "Portrait") (fst x) = Some (snd x)
          /\ (0 < snd x)%nat
          /\ ("paid" <> "premium" -> user_tier (fst x) = "free")).
Proof.
  intros prompts. eexists. split; [vm_compute; reflexivity|].
  apply (findMatches_result_is_ranked prompts "Portrait" "paid" None 5%Z).
  - lia.
  - vm_compute. reflexivity.
Defined.

Lemma scoreAll_throws input ps p :
  In p ps -> score input p = None ->
  scoreAll input ps
  = Throw (mkError "TypeError"
             "Cannot read properties of undefined (reading 'toLowerCase')").
Proof.
  induction ps as [|q ps IH]; intros Hin Hs; [contradiction|].
  cbn [scoreAll]. destruct Hin as [-> | Hin].
  - rewrite Hs. reflexivity.
  - destruct (score input q); [|reflexivity]. rewrite (IH Hin Hs). reflexivity.
Qed.

Lemma loadRows_mono rows acc p : In p acc -> In p (loadRows acc rows).
Proof.
  revert acc. induction rows as [|row rows IH]; intros acc H; simpl; [exact H|].
  destruct (rowToPrompt _ row); apply IH; [apply in_or_app; auto | exact H].
Qed.

Lemma loadRows_unnamed rows acc row m :
  In row rows -> row_category row = None ->
  row_main_prompt row = Some m -> trim m <> "" ->
  exists p, In p (loadRows acc rows) /\ name p = None.
Proof.
  revert acc. induction rows as [|r rows IH]; intros acc Hin Hc Hm Ht; [contradiction|].
  simpl. destruct Hin as [-> | Hin].
  - unfold rowToPrompt. rewrite Hc, Hm. cbn [option_map].
    destruct (trim m =? "") eqn:E; [apply String.eqb_eq in E; contradiction|].
    cbn [orb String.eqb]. change ("general" =? "") with false. cbn [orb].
    eexists. split; [apply loadRows_mono, in_or_app; right; left; reflexivity|].
    reflexivity.
  - destruct (rowToPrompt _ r); eapply IH; eauto.
Qed.

(** X22.  One CSV row without a category breaks matching for everybody:
    if some row has a main prompt but no category value, it is loaded
    with an undefined name, and from then on [findMatches] and
    [findBestMatch] throw a TypeError for every input, tier and limit (no
    category filter). *)
Theorem row_without_category_breaks_matching :
  forall rows row m userInput userTier limit,
    In row rows -> row_category row = None ->
    row_main_prompt row = Some m -> trim m <> "" ->
    let err := mkError "TypeError"
                 "Cannot read properties of undefined (reading 'toLowerCase')" in
    findMatches (loadPrompts rows) userInput userTier None limit = Throw err
    /\ findBestMatch (loadPrompts rows) userInput userTier None = Throw err.
Proof.
  intros rows row m userInput userTier limit Hin Hc Hm Ht err.
  destruct (loadRows_unnamed rows [] row m Hin Hc Hm Ht) as (p & Hp & Hn).
  change (loadRows [] rows) with (loadPrompts rows) in Hp.
  destruct (loaded_catalog_facts rows) as (_ & Htier).
  assert (Hs : score (toLowerCase userInput) p = None) by (unfold score; rewrite Hn; reflexivity).
  pose proof (scoreAll_throws (toLowerCase userInput) (loadPrompts rows) p Hp Hs) as Hthrow.
  unfold findMatches, findBestMatch, candidates. rewrite Htier.
  destruct (loadPrompts rows) as [|q l] eqn:El; [contradiction|].
  cbn [List.length Nat.eqb]. rewrite Hthrow. auto.
Qed.

Lemma row_without_category_breaks_matching_witness :
  let rows := [mkRow (Some "portrait") (Some "studio portrait");
               mkRow None (Some "orphan")] in
  let err := mkError "TypeError"
               "Cannot read properties of undefined (reading 'toLowerCase')" in
  findMatches (loadPrompts rows) "portrait" "free" None 5 = Throw err
  /\ findBestMatch (loadPrompts rows) "portrait" "free" None = Throw err.
Proof.
  intros rows.
  apply (row_without_category_breaks_matching rows (mkRow None (Some "orphan")) "orphan"
           "portrait" "free" 5%Z).
  - right. left. reflexivity.
  - reflexivity.
  - reflexivity.
  - discriminate.
Defined.

End CatalogFacts.

(** ** Without a provider, and the limit of a new record *)

Module ConfigurationFacts.
Import Js JsString Routes ImageToImageFacts.

(** X23.  When no provider was configured (geminiService is null), every
    request that passes validation and the quota check is still answered
    with success and charged (usage + 1, the usage being at most
    MAX_SAFE_INTEGER): the "generated" image is the upload itself,
    echoedInput is true, and the provider is not called.  The Generation
    is written with status completed and the upload's URL: it is stored
    when it passes the schema's validators, and otherwise nothing is
    stored and the answer carries the stand-in id. *)
Theorem unconfigured_provider_echoes_and_charges :
  forall cfg w req p f user quota qs ev1,
    validRequest req p f ->
    find (fun u => (u_id u =? userId req)%nat) (users w) = Some user ->
    findOrCreateQuota (startOfDay (now cfg)) (quotas w) user = (Ok quota, qs, ev1) ->
    (0 <= Quota.generationsUsed quota < Quota.generationsLimit quota)%Z ->
    (Quota.generationsUsed quota <= MAX_SAFE_INTEGER)%Z ->
    serviceAvailable cfg = false ->
    let original := protocol req ++ "://" ++ host req ++ "/uploads/" ++ filename f in
    let rp := PromptResolver.resolvePrompt (allPrompts cfg) (preset req) p original in
    let used' := (Quota.generationsUsed quota + 1)%Z in
    exists ref w' g ok,
      imageToImage cfg w req
      = (Generated true ref original original (fst rp) used'
           (Quota.generationsLimit quota)
           (Z.max 0 (Quota.generationsLimit quota - used')),
         w',
         (ev1 ++ [QuotaUsageSaved (Quota.setUsed used' quota) true;
                  GenerationWrite g ok])%list)
      /\ Quota.findOne (quotas w') (u_id user) (startOfDay (now cfg))
         = Some (Quota.setUsed used' quota)
      /\ Generation.status g = Generation.completed
      /\ Generation.generatedImageUrl g = Some original
      /\ Generation.prompt g = fst rp
      /\ Generation.presetUsed g = snd rp
      /\ (ok = true <-> Generation.validateNew g = None)
      /\ (ok = true ->
          ref = RealId (Generation._id g)
          /\ Generation.docs (generations w')
             = (Generation.docs (generations w) ++ [g])%list)
      /\ (ok = false -> ref = TempId /\ generations w' = generations w)
      /\ (forall a b, ~ In (ProviderCalled a b)
                        (ev1 ++ [QuotaUsageSaved (Quota.setUsed used' quota) true;
                                 GenerationWrite g ok])%list).
Proof.
  intros cfg w req p f user quota qs ev1 Hv Hu Hq Hrange _ Hs original rp used'.
  assert (Hob : obtainImage cfg f (fst rp) original = (inr original, []))
    by (unfold obtainImage; rewrite Hs; reflexivity).
  destruct (imageToImage_records cfg w req p f user quota qs ev1 _ _ Hv Hu Hq Hrange Hob)
    as (ref & w' & g & ok & H & Hfi & Hst & _ & Hgen & Hpr & Hps & Hiff & Hok & Hko).
  fold original rp used' in H, Hfi. rewrite String.eqb_refl in H. cbn [app] in H.
  exists ref, w', g, ok.
  split; [exact H|]. split; [exact Hfi|]. split; [exact Hst|]. split; [exact Hgen|].
  split; [exact Hpr|]. split; [exact Hps|]. split; [exact Hiff|].
  split; [exact Hok|]. split; [exact Hko|].
  intros a b Hin. apply in_app_or in Hin as [Hin | Hin].
  - unfold findOrCreateQuota in Hq.
    destruct (Quota.findOne _ _ _).
    + injection Hq as _ _ <-. contradiction.
    + destruct (Quota.create _ _ _ _ _) as [[q' | e] qs'];
        [|discriminate].
      injection Hq as _ _ <-. destruct Hin as [Hin | []]. discriminate.
  - destruct Hin as [Hin | [Hin | []]]; discriminate.
Qed.

Lemma unconfigured_provider_echoes_and_charges_witness :
  exists ref w' g ok,
    imageToImage Scenarios.unconfigured Scenarios.aliceWorld Scenarios.landscapeRequest
    = (Generated true ref Scenarios.uploadUrl Scenarios.uploadUrl
         Scenarios.landscapePrompt 1 5 4,
       w',
       [QuotaUsageSaved (Quota.mkQuota 0 1 0 1 5 1) true; GenerationWrite g ok])
    /\ Quota.findOne (quotas w') 1 0 = Some (Quota.mkQuota 0 1 0 1 5 1)
    /\ Generation.status g = Generation.completed
    /\ Generation.generatedImageUrl g = Some Scenarios.uploadUrl
    /\ Generation.prompt g = Scenarios.landscapePrompt
    /\ Generation.presetUsed g = "Artistic Landscape"
    /\ (ok = true <-> Generation.validateNew g = None)
    /\ (ok = true ->
        ref = RealId (Generation._id g)
        /\ Generation.docs (generations w')
           = (Generation.docs (generations Scenarios.aliceWorld) ++ [g])%list)
    /\ (ok = false -> ref = TempId /\ generations w' = generations Scenarios.aliceWorld)
    /\ (forall a b, ~ In (ProviderCalled a b)
                      [QuotaUsageSaved (Quota.mkQuota 0 1 0 1 5 1) true;
                       GenerationWrite g ok]).
Proof.
  apply (unconfigured_provider_echoes_and_charges Scenarios.unconfigured
           Scenarios.aliceWorld Scenarios.landscapeRequest "sunset" Scenarios.upload
           Scenarios.alice (Quota.mkQuota 0 1 0 0 5 1) Scenarios.aliceStore []).
  - repeat split. simpl. lia.
  - reflexivity.
  - reflexivity.
  - simpl. lia.
  - vm_compute. discriminate.
  - reflexivity.
Defined.

(** The two outcomes of the write, computed without a provider: with no
    preset the generation is stored as completed, with the built-in preset
    nothing is stored; both requests are charged. *)
Example unconfigured_runs :
  let r1 := imageToImage Scenarios.unconfigured Scenarios.aliceWorld
              Scenarios.sunsetRequest in
  let r2 := imageToImage Scenarios.unconfigured Scenarios.aliceWorld
              Scenarios.landscapeRequest in
  fst (fst r1)
  = Generated true (RealId 0) Scenarios.uploadUrl Scenarios.uploadUrl
      Scenarios.sunsetPrompt 1 5 4
  /\ map Generation.status (Generation.docs (generations (snd (fst r1))))
     = [Generation.completed]
  /\ fst (fst r2)
     = Generated true TempId Scenarios.uploadUrl Scenarios.uploadUrl
         Scenarios.landscapePrompt 1 5 4
  /\ Generation.docs (generations (snd (fst r2))) = []
  /\ snd r1 <> [] /\ snd r2 <> []
  /\ Quota.docs (quotas (snd (fst r1))) = [Quota.mkQuota 0 1 0 1 5 1]
  /\ Quota.docs (quotas (snd (fst r2))) = [Quota.mkQuota 0 1 0 1 5 1].
Proof. vm_compute. repeat split; discriminate. Qed.

(** X24.  The limit of a record that the image-to-image handler creates
    does not come from the environment: it is 50 for paid and 5 for any
    other tier, whatever PAID_TIER_DAILY_LIMIT and FREE_TIER_DAILY_LIMIT
    say.  The first GET /quota of the day then overwrites it with the
    configured free limit, keeping the record's id and usage. *)
Theorem handler_limit_ignores_environment :
  forall env t w user,
    Quota.findOne (quotas w) (u_id user) (startOfDay t) = None ->
    (1 <= Quota.tierLimit env Quota.free)%Z ->
    exists quota qs,
      findOrCreateQuota (startOfDay t) (quotas w) user
      = (Ok quota, qs, [QuotaInserted quota])
      /\ Quota.generationsLimit quota = Quota.tierLimit Quota.defaultEnv (tier user)
      /\ Quota.generationsUsed quota = 0%Z
      /\ exists w',
           getQuota env t (withQuotas w qs) (u_id user)
           = (QuotaInfo 0 (Quota.tierLimit env Quota.free)
                (Z.max 0 (Quota.tierLimit env Quota.free - 0))
                (Quota.resetAt quota) (Quota.date quota), w')
           /\ Quota.findOne (quotas w') (u_id user) (startOfDay t)
              = Some (Quota.setLimit (Quota.tierLimit env Quota.free) quota).
Proof.
  intros env t w user Hnone Hl.
  destruct (findOrCreateQuota_total (startOfDay t) (quotas w) user)
    as (quota & qs & ev & Hq & Hfind & _).
  pose proof Hq as Hq'. unfold findOrCreateQuota in Hq'. rewrite Hnone in Hq'.
  unfold Quota.create in Hq'. rewrite Hnone in Hq'.
  assert (Hv : Quota.validate 0 (match tier user with
                                 | Quota.paid => 50%Z
                                 | Quota.free => 5%Z
                                 end) = None) by (destruct (tier user); reflexivity).
  rewrite Hv in Hq'. injection Hq' as <- <- <-.
  eexists. eexists. split; [exact Hq|].
  split; [destruct (tier user); reflexivity|]. split; [reflexivity|].
  destruct (QuotaFacts.getTodayQuota_found env (startOfDay t) _ (u_id user) None _
              Hfind Hl) as (st' & G & F & _).
  unfold getQuota. cbn [quotas withQuotas]. rewrite G.
  eexists. split; [reflexivity | exact F].
Qed.

Lemma handler_limit_ignores_environment_witness :
  let env := Quota.mkEnv (Some 100%Z) (Some 10%Z) in
  exists quota qs,
    findOrCreateQuota (startOfDay 1000) (quotas Scenarios.freshWorld) Scenarios.bob
    = (Ok quota, qs, [QuotaInserted quota])
    /\ Quota.generationsLimit quota = Quota.tierLimit Quota.defaultEnv (tier Scenarios.bob)
    /\ Quota.generationsUsed quota = 0%Z
    /\ exists w',
         getQuota env 1000 (withQuotas Scenarios.freshWorld qs) (u_id Scenarios.bob)
         = (QuotaInfo 0 (Quota.tierLimit env Quota.free)
              (Z.max 0 (Quota.tierLimit env Quota.free - 0))
              (Quota.resetAt quota) (Quota.date quota), w')
         /\ Quota.findOne (quotas w') (u_id Scenarios.bob) (startOfDay 1000)
            = Some (Quota.setLimit (Quota.tierLimit env Quota.free) quota).
Proof.
  intros env.
  apply (handler_limit_ignores_environment env 1000 Scenarios.freshWorld Scenarios.bob).
  - reflexivity.
  - vm_compute. discriminate.
Defined.

End ConfigurationFacts.
